(** * nacp: admission-control proxy in front of the Nomad HTTP API

    A shallow embedding of the request/response rewriting code of
    [cmd/nacp/nacp.go], of the two webhook stages
    ([admissionctrl/validator/webhook_validator.go] and
    [admissionctrl/mutator/json_patch_webhook.go]) and of the library
    functions they rely on, followed by the properties established
    about them.

    Conventions.
    - Go [string] and [[]byte] are [string] (a sequence of bytes).
    - A nil slice and an empty slice are both the empty list; the code
      only ever ranges over slices and takes their [len].
    - A Go [error] interface value is [option error]: [None] is nil.
    - HTTP headers are maps from canonical header names to values;
      [Header.Get] of an absent header is the empty string.
    - In the webhook stages a [[]byte] filled by [json.Marshal] is the
      document it encodes; the proxy, which measures and compresses
      bodies, works on their text through [json.Text]. *)

From Stdlib Require Import Ascii String ZArith Lia.
From stdpp Require Import base strings gmap list pretty.

Set Warnings "-register-all".

Open Scope string_scope.
Open Scope list_scope.

Definition LF : string := String "010"%char EmptyString.
Definition TAB : string := String "009"%char EmptyString.

(** ** Go error values *)

(** [errorString] is what [errors.New] and [fmt.Errorf] without [%w]
    build, [wrapError prefix inner] is [fmt.Errorf(prefix + "%w", inner)]
    and [multiError es] is a [*multierror.Error] whose [Errors] field is
    [es] (with the default [ErrorFormat]). *)
Inductive error : Type :=
| errorString (msg : string)
| wrapError (prefix : string) (inner : error)
| multiError (Errors : list error).

Module multierror.

(** [ListFormatFunc], the default formatter, on the messages of the
    collected errors. *)
Definition ListFormatFunc (es : list string) : string :=
  match es with
  | [e] => "1 error occurred:" +:+ LF +:+ TAB +:+ "* " +:+ e +:+ LF +:+ LF
  | _ =>
      pretty (length es) +:+ " errors occurred:" +:+ LF +:+ TAB
        +:+ String.concat (LF +:+ TAB) (List.map (fun e => "* " +:+ e) es)
        +:+ LF +:+ LF
  end.

(** One step of the flattening loop of [Append]: a [*multierror.Error]
    argument contributes its [Errors], any other error itself. *)
Definition flatten_step (acc : list error) (e : error) : list error :=
  match e with
  | multiError es => acc ++ es
  | _ => acc ++ [e]
  end.

(** [Append(err, errs...)].  When [err] is a [*multierror.Error] the
    errors are appended to its [Errors] field in place and the same
    pointer is returned; the result below is that updated object.
    Otherwise a fresh [Error] is filled with [err] (when non-nil) and
    [errs]. *)
Definition Append (err : option error) (errs : list error) : error :=
  match err with
  | Some (multiError es) => multiError (fold_left flatten_step errs es)
  | Some e => multiError (fold_left flatten_step (e :: errs) [])
  | None => multiError (fold_left flatten_step errs [])
  end.

End multierror.

(** The [Error()] method. *)
Fixpoint Error (e : error) : string :=
  match e with
  | errorString msg => msg
  | wrapError prefix inner => prefix +:+ Error inner
  | multiError es => multierror.ListFormatFunc (List.map Error es)
  end.

(** A non-[multierror] error, as produced by [fmt.Errorf]. *)
Definition is_plain (e : error) : bool :=
  match e with
  | multiError _ => false
  | _ => true
  end.

(** ** Nomad's [helper] package *)
Module helper.

(** [warningsFormatter], the [ErrorFormat] used for job warnings. *)
Definition warningsFormatter (es : list string) : string :=
  fold_left (fun sb e => sb +:+ LF +:+ "* " +:+ e) es
            (pretty (length es) +:+ " warning(s):" +:+ LF).

(** [MergeMultierrorWarnings(errs...)]: collect the arguments in a
    fresh multi-error and print it with [warningsFormatter]. *)
Definition MergeMultierrorWarnings (errs : list error) : string :=
  match errs with
  | [] => ""
  | _ =>
      match multierror.Append (Some (multiError [])) errs with
      | multiError es => warningsFormatter (List.map Error es)
      | e => Error e
      end
  end.

End helper.

(** ** Go's [regexp] package, for the patterns the proxy compiles *)
Module regexp.

(** An item of a bracket expression: one character or a range. *)
Inductive class_item : Type :=
| Single (c : ascii)
| Range (lo hi : ascii).

(** [AnyChar] is any character at all; it only serves for the text
    an unanchored match may skip. *)
Inductive Regexp : Type :=
| NoMatch
| EmptyMatch
| AnyChar
| Literal (c : ascii)
| CharClass (items : list class_item)
| Concat (r1 r2 : Regexp)
| Alternate (r1 r2 : Regexp)
| Star (r : Regexp)
| Plus (r : Regexp).

(** A compiled pattern: whether it starts with [^], whether it ends
    with [$], and what lies between. *)
Record Compiled : Type := {
  begin_text : bool;
  end_text : bool;
  body : Regexp;
}.

Definition is_alnum (c : ascii) : bool :=
  let n := nat_of_ascii c in
  ((48 <=? n)%nat && (n <=? 57)%nat) || ((65 <=? n)%nat && (n <=? 90)%nat)
  || ((97 <=? n)%nat && (n <=? 122)%nat).

(** [parseClassChar]: one character of a bracket expression; a
    backslash followed by a punctuation character is that character
    (the other escapes are not needed by the proxy's patterns and
    are rejected). *)
Definition parseClassChar (t : list ascii) : option (ascii * list ascii) :=
  match t with
  | "\"%char :: c :: t' =>
      if is_alnum c || (128 <=? nat_of_ascii c)%nat then None else Some (c, t')
  | "\"%char :: [] => None
  | c :: t' => Some (c, t')
  | [] => None
  end.

(** The loop of [parseClass] in Perl mode, after the opening bracket:
    each round reads a character [lo] and, when it is followed by a
    dash that is not the last character of the class, the upper end
    [hi] of a range.  A dash in any other position is a literal. *)
Fixpoint parseClassItems (fuel : nat) (first : bool) (t : list ascii)
    (acc : list class_item) : option (list class_item * list ascii) :=
  match fuel with
  | O => None
  | S fuel' =>
      match t with
      | [] => None
      | c :: t0 =>
          if Ascii.eqb c "]" && negb first then Some (acc, t0)
          else
            match parseClassChar t with
            | None => None
            | Some (lo, t1) =>
                match t1 with
                | "-"%char :: c2 :: t2 =>
                    if Ascii.eqb c2 "]" then
                      parseClassItems fuel' false t1 (acc ++ [Single lo])
                    else
                      match parseClassChar (c2 :: t2) with
                      | None => None
                      | Some (hi, t3) =>
                          if (nat_of_ascii hi <? nat_of_ascii lo)%nat then None
                          else parseClassItems fuel' false t3 (acc ++ [Range lo hi])
                      end
                | _ => parseClassItems fuel' false t1 (acc ++ [Single lo])
                end
            end
      end
  end.

(** A possibly repeated atom, then the rest of the concatenation.
    Groups, alternation, the dot, counted repetition and the remaining
    escapes do not occur in the proxy's patterns; they are refused
    ([MustCompile] is only modelled on the subset it is used on). *)
Definition applyPostfix (atom : Regexp) (t : list ascii) : Regexp * list ascii :=
  match t with
  | "*"%char :: t' => (Star atom, t')
  | "+"%char :: t' => (Plus atom, t')
  | _ => (atom, t)
  end.

Definition is_meta (c : ascii) : bool :=
  existsb (Ascii.eqb c) (list_ascii_of_string "^$()|?*+{}[].").

Fixpoint parseConcat (fuel : nat) (t : list ascii) : option (Regexp * bool) :=
  match fuel with
  | O => None
  | S fuel' =>
      match t with
      | [] => Some (EmptyMatch, false)
      | "$"%char :: [] => Some (EmptyMatch, true)
      | "["%char :: t0 =>
          match t0 with
          | "^"%char :: _ => None
          | _ =>
              match parseClassItems (S (length t0)) true t0 [] with
              | None => None
              | Some (items, t1) =>
                  let '(atom, t2) := applyPostfix (CharClass items) t1 in
                  match parseConcat fuel' t2 with
                  | None => None
                  | Some (rest, e) => Some (Concat atom rest, e)
                  end
              end
          end
      | "\"%char :: _ =>
          match parseClassChar t with
          | None => None
          | Some (c, t1) =>
              let '(atom, t2) := applyPostfix (Literal c) t1 in
              match parseConcat fuel' t2 with
              | None => None
              | Some (rest, e) => Some (Concat atom rest, e)
              end
          end
      | c :: t0 =>
          if is_meta c then None
          else
            let '(atom, t2) := applyPostfix (Literal c) t0 in
            match parseConcat fuel' t2 with
            | None => None
            | Some (rest, e) => Some (Concat atom rest, e)
            end
      end
  end.

(** [Compile]; [None] is a pattern outside the modelled subset or a
    malformed one. *)
Definition Compile (pattern : string) : option Compiled :=
  let t := list_ascii_of_string pattern in
  let '(b, t') := match t with
                  | "^"%char :: t' => (true, t')
                  | _ => (false, t)
                  end in
  match parseConcat (S (length t')) t' with
  | None => None
  | Some (r, e) => Some {| begin_text := b; end_text := e; body := r |}
  end.

(** [MustCompile] panics on a pattern that does not compile; the
    model maps it to the pattern that matches nothing. *)
Definition MustCompile (pattern : string) : Compiled :=
  match Compile pattern with
  | Some re => re
  | None => {| begin_text := true; end_text := true; body := NoMatch |}
  end.

Definition in_item (c : ascii) (i : class_item) : bool :=
  match i with
  | Single a => Ascii.eqb c a
  | Range lo hi =>
      (nat_of_ascii lo <=? nat_of_ascii c)%nat
      && (nat_of_ascii c <=? nat_of_ascii hi)%nat
  end.

Definition in_class (c : ascii) (items : list class_item) : bool :=
  existsb (in_item c) items.

(** Matching by derivatives. *)
Fixpoint nullable (r : Regexp) : bool :=
  match r with
  | NoMatch | AnyChar | Literal _ | CharClass _ => false
  | EmptyMatch | Star _ => true
  | Concat r1 r2 => nullable r1 && nullable r2
  | Alternate r1 r2 => nullable r1 || nullable r2
  | Plus r1 => nullable r1
  end.

Fixpoint deriv (c : ascii) (r : Regexp) : Regexp :=
  match r with
  | NoMatch | EmptyMatch => NoMatch
  | AnyChar => EmptyMatch
  | Literal a => if Ascii.eqb c a then EmptyMatch else NoMatch
  | CharClass items => if in_class c items then EmptyMatch else NoMatch
  | Concat r1 r2 =>
      if nullable r1 then Alternate (Concat (deriv c r1) r2) (deriv c r2)
      else Concat (deriv c r1) r2
  | Alternate r1 r2 => Alternate (deriv c r1) (deriv c r2)
  | Star r1 => Concat (deriv c r1) (Star r1)
  | Plus r1 => Concat (deriv c r1) (Star r1)
  end.

Definition full_match (r : Regexp) (s : string) : bool :=
  nullable (fold_left (fun r c => deriv c r) (list_ascii_of_string s) r).

(** [re.MatchString(s)]: an unanchored side may skip any text. *)
Definition MatchString (re : Compiled) (s : string) : bool :=
  let r1 := if begin_text re then body re else Concat (Star AnyChar) (body re) in
  let r2 := if end_text re then r1 else Concat r1 (Star AnyChar) in
  full_match r2 s.

(** What it means for a text to match, independently of how
    [MatchString] decides it. *)
Inductive matches : Regexp -> list ascii -> Prop :=
| matches_empty : matches EmptyMatch []
| matches_any (c : ascii) : matches AnyChar [c]
| matches_literal (c : ascii) : matches (Literal c) [c]
| matches_class (c : ascii) (items : list class_item) :
    in_class c items = true -> matches (CharClass items) [c]
| matches_concat (r1 r2 : Regexp) (s1 s2 : list ascii) :
    matches r1 s1 -> matches r2 s2 -> matches (Concat r1 r2) (s1 ++ s2)
| matches_left (r1 r2 : Regexp) (s : list ascii) :
    matches r1 s -> matches (Alternate r1 r2) s
| matches_right (r1 r2 : Regexp) (s : list ascii) :
    matches r2 s -> matches (Alternate r1 r2) s
| matches_star_nil (r : Regexp) : matches (Star r) []
| matches_star_more (r : Regexp) (s1 s2 : list ascii) :
    matches r s1 -> matches (Star r) s2 -> matches (Star r) (s1 ++ s2)
| matches_plus (r : Regexp) (s1 s2 : list ascii) :
    matches r s1 -> matches (Star r) s2 -> matches (Plus r) (s1 ++ s2).

(** The literal text [p] followed by [r]. *)
Definition literals (p : string) (r : Regexp) : Regexp :=
  fold_right (fun c r => Concat (Literal c) r) r (list_ascii_of_string p).

End regexp.

(** ** JSON documents, as [encoding/json] sees them *)
Module json.

Inductive value : Type :=
| JNull
| JBool (b : bool)
| JNumber (n : Z)
| JString (s : string)
| JArray (elems : list value)
| JObject (members : list (string * value)).

(** The text level of [encoding/json]: [marshal] prints a document,
    [unmarshal] parses one ([None]: not a JSON text).  The proxy and
    the stages never look at the text themselves, so the two functions
    are kept abstract. *)
Record Text : Type := {
  marshal : value -> string;
  unmarshal : string -> option value;
}.

Definition lower (c : ascii) : ascii :=
  let n := nat_of_ascii c in
  if (65 <=? n)%nat && (n <=? 90)%nat then ascii_of_nat (n + 32) else c.

Fixpoint to_lower (s : string) : string :=
  match s with
  | EmptyString => EmptyString
  | String c s' => String (lower c) (to_lower s')
  end.

(** Member names are matched with struct fields without regard to
    case. *)
Definition equalFold (a b : string) : bool :=
  String.eqb (to_lower a) (to_lower b).

Fixpoint get (key : string) (ms : list (string * value)) : option value :=
  match ms with
  | [] => None
  | (k, v) :: ms' => if String.eqb k key then Some v else get key ms'
  end.

Fixpoint set (key : string) (v : value) (ms : list (string * value))
    : list (string * value) :=
  match ms with
  | [] => [(key, v)]
  | (k, v0) :: ms' =>
      if String.eqb k key then (k, v) :: ms' else (k, v0) :: set key v ms'
  end.

Fixpoint remove (key : string) (ms : list (string * value))
    : list (string * value) :=
  match ms with
  | [] => []
  | (k, v0) :: ms' =>
      if String.eqb k key then ms' else (k, v0) :: remove key ms'
  end.

(** Equality of documents; the members of an object are compared as
    a map. *)
Fixpoint eqb (a b : value) : bool :=
  match a, b with
  | JNull, JNull => true
  | JBool x, JBool y => Bool.eqb x y
  | JNumber x, JNumber y => Z.eqb x y
  | JString x, JString y => String.eqb x y
  | JArray xs, JArray ys =>
      (fix all2 (xs ys : list value) : bool :=
         match xs, ys with
         | [], [] => true
         | x :: xs', y :: ys' => eqb x y && all2 xs' ys'
         | _, _ => false
         end) xs ys
  | JObject xs, JObject ys =>
      Nat.eqb (length xs) (length ys)
      && forallb (fun kv => match get (fst kv) ys with
                            | Some y => eqb (snd kv) y
                            | None => false
                            end) xs
  | _, _ => false
  end.

(** Decoding a document into a [[]string] field: [null] leaves the
    nil slice, an array must hold strings ([null] for the empty
    string) only. *)
Fixpoint strings_of (elems : list value) : option (list string) :=
  match elems with
  | [] => Some []
  | JString s :: rest =>
      match strings_of rest with
      | Some l => Some (s :: l)
      | None => None
      end
  | JNull :: rest =>
      match strings_of rest with
      | Some l => Some (EmptyString :: l)
      | None => None
      end
  | _ => None
  end.

Definition string_slice (v : value) : option (list string) :=
  match v with
  | JNull => Some []
  | JArray elems => strings_of elems
  | _ => None
  end.

(** Decoding into a [string] field: [null] leaves it as it is. *)
Definition string_field (old : string) (v : value) : option string :=
  match v with
  | JNull => Some old
  | JString s => Some s
  | _ => None
  end.

End json.
Export json(value, JNull, JBool, JNumber, JString, JArray, JObject).

(** ** [github.com/evanphx/json-patch]: RFC 6902 patches *)
Module jsonpatch.

(** An operation is the JSON object it was written as. *)
Definition Operation : Type := list (string * value).
Definition Patch : Type := list Operation.

Fixpoint operations_of (elems : list value) : option Patch :=
  match elems with
  | [] => Some []
  | JObject ms :: rest =>
      match operations_of rest with
      | Some p => Some (ms :: p)
      | None => None
      end
  | _ => None
  end.

(** [DecodePatch]: the text must be an array of objects ([null]
    decodes to the empty patch). *)
Definition DecodePatch (doc : value) : option Patch :=
  match doc with
  | JNull => Some []
  | JArray elems => operations_of elems
  | _ => None
  end.

(** [strings.Split(s, "/")]. *)
Fixpoint split_slash (s : string) : list string :=
  match s with
  | EmptyString => [EmptyString]
  | String c s' =>
      if Ascii.eqb c "/" then EmptyString :: split_slash s'
      else
        match split_slash s' with
        | h :: t => String c h :: t
        | [] => [String c EmptyString]
        end
  end.

(** [decodePatchKey]: [~1] stands for a slash and [~0] for a tilde. *)
Fixpoint decodePatchKey (s : string) : string :=
  match s with
  | String "~" (String "1" s') => String "/" (decodePatchKey s')
  | String "~" (String "0" s') => String "~" (decodePatchKey s')
  | String c s' => String c (decodePatchKey s')
  | EmptyString => EmptyString
  end.

Definition digit (c : ascii) : option nat :=
  let n := nat_of_ascii c in
  if (48 <=? n)%nat && (n <=? 57)%nat then Some (n - 48) else None.

Fixpoint digits (acc : nat) (s : string) : option nat :=
  match s with
  | EmptyString => Some acc
  | String c s' =>
      match digit c with
      | Some d => digits (10 * acc + d) s'
      | None => None
      end
  end.

(** [strconv.Atoi] on an array index. *)
Definition Atoi (s : string) : option Z :=
  match s with
  | EmptyString => None
  | String "-" EmptyString | String "+" EmptyString => None
  | String "-" s' => option_map (fun n => (- Z.of_nat n)%Z) (digits 0 s')
  | String "+" s' => option_map Z.of_nat (digits 0 s')
  | _ => option_map Z.of_nat (digits 0 s)
  end.

(** The position an index names in an array of [len] elements;
    negative indices count from the end; [limit] is the first
    position that is out of range. *)
Definition position (len limit : nat) (key : string) : option nat :=
  match Atoi key with
  | None => None
  | Some i =>
      let i' := if (i <? 0)%Z then (i + Z.of_nat len)%Z else i in
      if (i' <? 0)%Z then None
      else if (Z.to_nat i' <? limit)%nat then Some (Z.to_nat i') else None
  end.

Definition con_get (key : string) (con : value) : option value :=
  match con with
  | JObject ms => json.get key ms
  | JArray l =>
      match position (length l) (length l) key with
      | Some i => l !! i
      | None => None
      end
  | _ => None
  end.

Definition con_add (key : string) (v : value) (con : value) : option value :=
  match con with
  | JObject ms => Some (JObject (json.set key v ms))
  | JArray l =>
      if String.eqb key "-" then Some (JArray (l ++ [v]))
      else
        match position (length l) (S (length l)) key with
        | Some i => Some (JArray (take i l ++ v :: drop i l))
        | None => None
        end
  | _ => None
  end.

Definition con_remove (key : string) (con : value) : option value :=
  match con with
  | JObject ms =>
      match json.get key ms with
      | Some _ => Some (JObject (json.remove key ms))
      | None => None
      end
  | JArray l =>
      match position (length l) (length l) key with
      | Some i => Some (JArray (take i l ++ drop (S i) l))
      | None => None
      end
  | _ => None
  end.

Definition con_set (key : string) (v : value) (con : value) : option value :=
  match con with
  | JObject ms =>
      match json.get key ms with
      | Some _ => Some (JObject (json.set key v ms))
      | None => None
      end
  | JArray l =>
      match position (length l) (length l) key with
      | Some i => Some (JArray (<[i := v]> l))
      | None => None
      end
  | _ => None
  end.

(** Walk down [parts] and rewrite the container found there. *)
Fixpoint update (parts : list string) (f : value -> option value)
    (doc : value) : option value :=
  match parts with
  | [] => f doc
  | p :: ps =>
      let key := decodePatchKey p in
      match con_get key doc with
      | None => None
      | Some child =>
          match update ps f child with
          | None => None
          | Some child' => con_set key child' doc
          end
      end
  end.

Fixpoint lookup_path (parts : list string) (doc : value) : option value :=
  match parts with
  | [] => Some doc
  | p :: ps =>
      match con_get (decodePatchKey p) doc with
      | None => None
      | Some child => lookup_path ps child
      end
  end.

(** [findObject]: the parts leading to the container, and the key in
    it; what precedes the first slash is not looked at. *)
Definition findObject (path : string) : option (list string * string) :=
  match split_slash path with
  | _ :: rest =>
      match rev rest with
      | key :: parts_rev => Some (rev parts_rev, decodePatchKey key)
      | [] => None
      end
  | [] => None
  end.

Definition member_string (name : string) (op : Operation) : option string :=
  match json.get name op with
  | Some (JString s) => Some s
  | _ => None
  end.

Definition op_value (op : Operation) : value :=
  match json.get "value" op with
  | Some v => v
  | None => JNull
  end.

Definition at_path (path : string) (f : string -> value -> option value)
    (doc : value) : option value :=
  match findObject path with
  | Some (parts, key) => update parts (f key) doc
  | None => None
  end.

Definition read_path (path : string) (doc : value) : option value :=
  match findObject path with
  | Some (parts, key) =>
      match lookup_path parts doc with
      | Some con => con_get key con
      | None => None
      end
  | None => None
  end.

(** One operation; [None] is the error return. *)
Definition apply_op (op : Operation) (doc : value) : option value :=
  match member_string "op" op, member_string "path" op with
  | Some kind, Some path =>
      if String.eqb kind "add" then
        at_path path (fun key => con_add key (op_value op)) doc
      else if String.eqb kind "remove" then
        at_path path con_remove doc
      else if String.eqb kind "replace" then
        at_path path (fun key => con_set key (op_value op)) doc
      else if String.eqb kind "move" then
        match member_string "from" op with
        | Some from =>
            match read_path from doc with
            | Some v =>
                match at_path from con_remove doc with
                | Some doc' => at_path path (fun key => con_add key v) doc'
                | None => None
                end
            | None => None
            end
        | None => None
        end
      else if String.eqb kind "copy" then
        match member_string "from" op with
        | Some from =>
            match read_path from doc with
            | Some v => at_path path (fun key => con_add key v) doc
            | None => None
            end
        | None => None
        end
      else if String.eqb kind "test" then
        match read_path path doc with
        | Some v => if json.eqb v (op_value op) then Some doc else None
        | None =>
            match op_value op with
            | JNull => Some doc
            | _ => None
            end
        end
      else None
  | _, _ => None
  end.

(** [Patch.Apply]: the operations in order, on an object or an array;
    the first failing operation aborts. *)
Fixpoint apply_ops (p : Patch) (doc : value) : option value :=
  match p with
  | [] => Some doc
  | op :: rest =>
      match apply_op op doc with
      | Some doc' => apply_ops rest doc'
      | None => None
      end
  end.

Definition Apply (p : Patch) (doc : value) : option value :=
  match doc with
  | JObject _ | JArray _ => apply_ops p doc
  | _ => None
  end.

End jsonpatch.

(** ** Nomad's [api] package: the part of its types the proxy touches *)
Module api.

(** [api.Job], restricted to its [ID] (a [*string]) and its [Meta]
    (a [map[string]string], possibly nil), the two fields the data
    model singles out. *)
Record Job : Type := {
  ID : option string;
  Meta : option (gmap string string);
}.

Definition empty_Job : Job := {| ID := None; Meta := None |}.

Definition string_ptr_to_json (s : option string) : value :=
  match s with
  | Some s => JString s
  | None => JNull
  end.

Definition meta_to_json (m : option (gmap string string)) : value :=
  match m with
  | None => JNull
  | Some m => JObject (List.map (fun kv => (fst kv, JString (snd kv))) (map_to_list m))
  end.

(** [json.Marshal] of a job. *)
Definition Job_to_json (j : Job) : value :=
  JObject [("ID", string_ptr_to_json (ID j)); ("Meta", meta_to_json (Meta j))].

Definition Job_ptr_to_json (j : option Job) : value :=
  match j with
  | Some j => Job_to_json j
  | None => JNull
  end.

Fixpoint meta_entries (ms : list (string * value)) (acc : gmap string string)
    : option (gmap string string) :=
  match ms with
  | [] => Some acc
  | (k, v) :: rest =>
      match json.string_field "" v with
      | Some s => meta_entries rest (<[k := s]> acc)
      | None => None
      end
  end.

(** The members of an object, decoded in order into a job: a member
    whose name is not a field of the struct is skipped. *)
Fixpoint Job_members (ms : list (string * value)) (j : Job) : option Job :=
  match ms with
  | [] => Some j
  | (k, v) :: rest =>
      if json.equalFold k "ID" then
        match v with
        | JNull => Job_members rest {| ID := None; Meta := Meta j |}
        | JString s => Job_members rest {| ID := Some s; Meta := Meta j |}
        | _ => None
        end
      else if json.equalFold k "Meta" then
        match v with
        | JNull => Job_members rest {| ID := ID j; Meta := None |}
        | JObject entries =>
            match meta_entries entries (default ∅ (Meta j)) with
            | Some m => Job_members rest {| ID := ID j; Meta := Some m |}
            | None => None
            end
        | _ => None
        end
      else Job_members rest j
  end.

(** [json.Unmarshal] into a zero [api.Job]; [None] is a decode error. *)
Definition Job_of_json (doc : value) : option Job :=
  match doc with
  | JNull => Some empty_Job
  | JObject ms => Job_members ms empty_Job
  | _ => None
  end.

(** The same into a [*api.Job] field. *)
Definition Job_ptr_of_json (doc : value) : option (option Job) :=
  match doc with
  | JNull => Some None
  | _ => option_map Some (Job_of_json doc)
  end.

(** [api.ACLToken], restricted to two of its fields. *)
Record ACLToken : Type := {
  AccessorID : string;
  Name : string;
}.

Definition ACLToken_to_json (t : ACLToken) : value :=
  JObject [("AccessorID", JString (AccessorID t)); ("Name", JString (Name t))].

Fixpoint ACLToken_members (ms : list (string * value)) (t : ACLToken)
    : option ACLToken :=
  match ms with
  | [] => Some t
  | (k, v) :: rest =>
      if json.equalFold k "AccessorID" then
        match json.string_field (AccessorID t) v with
        | Some s => ACLToken_members rest {| AccessorID := s; Name := Name t |}
        | None => None
        end
      else if json.equalFold k "Name" then
        match json.string_field (Name t) v with
        | Some s => ACLToken_members rest {| AccessorID := AccessorID t; Name := s |}
        | None => None
        end
      else ACLToken_members rest t
  end.

Definition ACLToken_of_json (doc : value) : option ACLToken :=
  match doc with
  | JNull => Some {| AccessorID := ""; Name := "" |}
  | JObject ms => ACLToken_members ms {| AccessorID := ""; Name := "" |}
  | _ => None
  end.

(** The request envelopes [JobRegisterRequest], [JobPlanRequest] and
    [JobValidateRequest]: the job (field [Job], here [ReqJob]), and
    the other members of the envelope as they were sent. *)
Record JobRequest : Type := {
  ReqJob : option Job;
  RequestOther : list (string * value);
}.
Definition JobRegisterRequest : Type := JobRequest.
Definition JobPlanRequest : Type := JobRequest.
Definition JobValidateRequest : Type := JobRequest.

Fixpoint JobRequest_members (ms : list (string * value)) (q : JobRequest)
    : option JobRequest :=
  match ms with
  | [] => Some q
  | (k, v) :: rest =>
      if json.equalFold k "Job" then
        match Job_ptr_of_json v with
        | Some j => JobRequest_members rest {| ReqJob := j; RequestOther := RequestOther q |}
        | None => None
        end
      else
        JobRequest_members rest
          {| ReqJob := ReqJob q; RequestOther := RequestOther q ++ [(k, v)] |}
  end.

Definition JobRequest_of_json (doc : value) : option JobRequest :=
  match doc with
  | JNull => Some {| ReqJob := None; RequestOther := [] |}
  | JObject ms => JobRequest_members ms {| ReqJob := None; RequestOther := [] |}
  | _ => None
  end.

Definition JobRequest_to_json (q : JobRequest) : value :=
  JObject (("Job", Job_ptr_to_json (ReqJob q)) :: RequestOther q).

(** The response envelopes [JobRegisterResponse] and
    [JobPlanResponse]: the [Warnings] string and the other members. *)
Record JobResponse : Type := {
  Warnings : string;
  ResponseOther : list (string * value);
}.
Definition JobRegisterResponse : Type := JobResponse.
Definition JobPlanResponse : Type := JobResponse.

Fixpoint JobResponse_members (ms : list (string * value)) (q : JobResponse)
    : option JobResponse :=
  match ms with
  | [] => Some q
  | (k, v) :: rest =>
      if json.equalFold k "Warnings" then
        match json.string_field (Warnings q) v with
        | Some w => JobResponse_members rest {| Warnings := w; ResponseOther := ResponseOther q |}
        | None => None
        end
      else
        JobResponse_members rest
          {| Warnings := Warnings q; ResponseOther := ResponseOther q ++ [(k, v)] |}
  end.

Definition JobResponse_of_json (doc : value) : option JobResponse :=
  match doc with
  | JNull => Some {| Warnings := ""; ResponseOther := [] |}
  | JObject ms => JobResponse_members ms {| Warnings := ""; ResponseOther := [] |}
  | _ => None
  end.

Definition JobResponse_to_json (q : JobResponse) : value :=
  JObject (("Warnings", JString (Warnings q)) :: ResponseOther q).

(** [JobValidateResponse]; [ValidationErrors] is a [[]string] whose
    nil value prints as [null]. *)
Record JobValidateResponse : Type := {
  DriverConfigValidated : bool;
  ValidationErrors : option (list string);
  Error : string;
  ValidateWarnings : string;
}.

Definition zero_JobValidateResponse : JobValidateResponse :=
  {| DriverConfigValidated := false; ValidationErrors := None;
     Error := ""; ValidateWarnings := "" |}.

Fixpoint JobValidateResponse_members (ms : list (string * value))
    (q : JobValidateResponse) : option JobValidateResponse :=
  match ms with
  | [] => Some q
  | (k, v) :: rest =>
      if json.equalFold k "DriverConfigValidated" then
        match v with
        | JNull => JobValidateResponse_members rest q
        | JBool b =>
            JobValidateResponse_members rest
              {| DriverConfigValidated := b; ValidationErrors := ValidationErrors q;
                 Error := Error q; ValidateWarnings := ValidateWarnings q |}
        | _ => None
        end
      else if json.equalFold k "ValidationErrors" then
        match v with
        | JNull =>
            JobValidateResponse_members rest
              {| DriverConfigValidated := DriverConfigValidated q;
                 ValidationErrors := None;
                 Error := Error q; ValidateWarnings := ValidateWarnings q |}
        | JArray elems =>
            match json.strings_of elems with
            | Some l =>
                JobValidateResponse_members rest
                  {| DriverConfigValidated := DriverConfigValidated q;
                     ValidationErrors := Some l;
                     Error := Error q; ValidateWarnings := ValidateWarnings q |}
            | None => None
            end
        | _ => None
        end
      else if json.equalFold k "Error" then
        match json.string_field (Error q) v with
        | Some e =>
            JobValidateResponse_members rest
              {| DriverConfigValidated := DriverConfigValidated q;
                 ValidationErrors := ValidationErrors q;
                 Error := e; ValidateWarnings := ValidateWarnings q |}
        | None => None
        end
      else if json.equalFold k "Warnings" then
        match json.string_field (ValidateWarnings q) v with
        | Some w =>
            JobValidateResponse_members rest
              {| DriverConfigValidated := DriverConfigValidated q;
                 ValidationErrors := ValidationErrors q;
                 Error := Error q; ValidateWarnings := w |}
        | None => None
        end
      else JobValidateResponse_members rest q
  end.

Definition JobValidateResponse_of_json (doc : value) : option JobValidateResponse :=
  match doc with
  | JNull => Some zero_JobValidateResponse
  | JObject ms => JobValidateResponse_members ms zero_JobValidateResponse
  | _ => None
  end.

Definition JobValidateResponse_to_json (q : JobValidateResponse) : value :=
  JObject [("DriverConfigValidated", JBool (DriverConfigValidated q));
           ("ValidationErrors",
            match ValidationErrors q with
            | Some l => JArray (List.map JString l)
            | None => JNull
            end);
           ("Error", JString (Error q));
           ("Warnings", JString (ValidateWarnings q))].

End api.

(** ** [config.RequestContext] and [types.Payload] *)
Module config.

Record RequestContext : Type := {
  ClientIP : string;
  AccessorID : string;
  TokenInfo : option api.ACLToken;
}.

(** Modelled from the spec: the struct tags of [RequestContext]
    (package [config]); its JSON members are named as the data model
    names its fields ([clientIP], [accessorID], [tokenInfo]). *)
Definition RequestContext_to_json (c : RequestContext) : value :=
  JObject ([("clientIP", JString (ClientIP c));
            ("accessorID", JString (AccessorID c))]
           ++ match TokenInfo c with
              | Some t => [("tokenInfo", api.ACLToken_to_json t)]
              | None => []
              end).

End config.

Module types.

Record Payload : Type := {
  Job : option api.Job;
  Context : option config.RequestContext;
}.

(** Modelled from the spec: the struct tags of [Payload] (package
    [admissionctrl/types]); the request body of a webhook stage is the
    JSON encoding of the payload, an object that holds the job and the
    context (members [job] and [context]). *)
Definition Payload_to_json (p : Payload) : value :=
  JObject ([("job", api.Job_ptr_to_json (Job p))]
           ++ match Context p with
              | Some c => [("context", config.RequestContext_to_json c)]
              | None => []
              end).

End types.

(** ** What a Go call does: it returns, or it panics (here: on a nil
    pointer dereference). *)
Inductive outcome (A : Type) : Type :=
| Returns (a : A)
| Panics.
Arguments Returns {A} a.
Arguments Panics {A}.

(** ** [fmt] and [net/http] helpers shared by the stages *)
Module fmt.

Definition is_flag (c : ascii) : bool :=
  existsb (Ascii.eqb c) (list_ascii_of_string "#0+- .123456789").

(** [fmt.Sprintf(format)] without operands: after a percent sign the
    flags, width and precision are skipped; then [%] prints a percent
    sign, any other verb finds no operand, and the end of the format no
    verb.  (A [*] width is not modelled.) *)
Fixpoint Sprintf_scan (in_verb : bool) (format : string) : string :=
  match format with
  | EmptyString => if in_verb then "%!(NOVERB)" else EmptyString
  | String c rest =>
      if in_verb then
        if is_flag c then Sprintf_scan true rest
        else if Ascii.eqb c "%" then String "%" (Sprintf_scan false rest)
        else "%!" +:+ String c "(MISSING)" +:+ Sprintf_scan false rest
      else if Ascii.eqb c "%" then Sprintf_scan true rest
      else String c (Sprintf_scan false rest)
  end.

Definition Sprintf0 (format : string) : string := Sprintf_scan false format.

(** [fmt.Errorf(format)] with the text itself as format. *)
Definition Errorf0 (format : string) : error := errorString (Sprintf0 format).

(** [fmt.Errorf("%v", s)] and [fmt.Errorf("%s", s)] on a string. *)
Definition Errorf_v (s : string) : error := errorString s.

End fmt.

Module http.

(** The outbound request of a webhook stage; its body is the JSON
    document that was marshalled into it. *)
Record WebhookRequest : Type := {
  wh_method : string;
  wh_url : string;
  wh_header : gmap string string;
  wh_body : value;
}.

(** What the webhook endpoint does with a request: the transport
    fails, or a reply arrives whose body is a JSON document or
    ([None]) not one. *)
Definition WebhookClient : Type := WebhookRequest -> error + option value.

Definition isTokenChar (c : ascii) : bool :=
  let n := nat_of_ascii c in
  regexp.is_alnum c
  || existsb (Ascii.eqb c) (list_ascii_of_string "!#$%&'*+-.^_`|~").

Definition validMethod (method : string) : bool :=
  forallb isTokenChar (list_ascii_of_string method).

(** [http.NewRequest]: refuses a method that is not a token (the
    empty method stands for GET).  The URL is the printed form of an
    endpoint that [url.Parse] accepted when the stage was built. *)
Definition NewRequest (method url : string) (body : value)
    : error + WebhookRequest :=
  if validMethod method then
    inr {| wh_method := if String.eqb method "" then "GET" else method;
           wh_url := url; wh_header := ∅; wh_body := body |}
  else inl (errorString ("net/http: invalid method " +:+ method)).

Definition Header_Set (key val : string) (r : WebhookRequest) : WebhookRequest :=
  {| wh_method := wh_method r; wh_url := wh_url r;
     wh_header := <[key := val]> (wh_header r); wh_body := wh_body r |}.

(** The headers both webhook stages add from the payload's context. *)
Definition add_context_headers (ctx : option config.RequestContext)
    (req : WebhookRequest) : WebhookRequest :=
  match ctx with
  | None => req
  | Some c =>
      let req1 :=
        if negb (String.eqb (config.ClientIP c) "") then
          Header_Set "Nacp-Client-Ip" (config.ClientIP c)
            (Header_Set "X-Forwarded-For" (config.ClientIP c) req)
        else req in
      if negb (String.eqb (config.AccessorID c) "") then
        Header_Set "Nacp-Accessor-Id" (config.AccessorID c) req1
      else req1
  end.

End http.

(** ** [admissionctrl/validator/webhook_validator.go] *)
Module validator.

Record WebhookValidator : Type := {
  endpoint : string;
  method : string;
  name : string;
}.

Record validationWebhookResponse : Type := {
  Errors : list string;
  Warnings : list string;
}.

Fixpoint response_members (ms : list (string * value))
    (r : validationWebhookResponse) : option validationWebhookResponse :=
  match ms with
  | [] => Some r
  | (k, v) :: rest =>
      if json.equalFold k "errors" then
        match json.string_slice v with
        | Some l => response_members rest {| Errors := l; Warnings := Warnings r |}
        | None => None
        end
      else if json.equalFold k "warnings" then
        match json.string_slice v with
        | Some l => response_members rest {| Errors := Errors r; Warnings := l |}
        | None => None
        end
      else response_members rest r
  end.

(** [Decode(valdationResult)] into the zero response. *)
Definition decode_response (body : option value) : option validationWebhookResponse :=
  match body with
  | Some JNull => Some {| Errors := []; Warnings := [] |}
  | Some (JObject ms) => response_members ms {| Errors := []; Warnings := [] |}
  | _ => None
  end.

Definition decode_error : error := errorString "json: cannot decode the webhook reply".

(** [Validate]: the pair (warnings, error) it returns.  Logging the
    rejected job reads [payload.Job.ID]. *)
Definition Validate (client : http.WebhookClient) (w : WebhookValidator)
    (payload : types.Payload) : outcome (list error * option error) :=
  let data := types.Payload_to_json payload in
  match http.NewRequest (method w) (endpoint w) data with
  | inl err => Returns ([], Some err)
  | inr req0 =>
      let req := http.add_context_headers (types.Context payload) req0 in
      match client req with
      | inl err => Returns ([], Some err)
      | inr body =>
          match decode_response body with
          | None => Returns ([], Some decode_error)
          | Some valdationResult =>
              if (0 <? length (Errors valdationResult))%nat then
                match types.Job payload with
                | None => Panics
                | Some _ =>
                    let oneError :=
                      fold_left
                        (fun oneError e =>
                           multierror.Append (Some oneError) [fmt.Errorf_v e])
                        (Errors valdationResult) (multiError []) in
                    Returns ([], Some oneError)
                end
              else
                let warnings :=
                  if (0 <? length (Warnings valdationResult))%nat then
                    fold_left (fun warnings w => warnings ++ [fmt.Errorf_v w])
                              (Warnings valdationResult) []
                  else [] in
                Returns (warnings, None)
          end
      end
  end.

End validator.

(** ** [admissionctrl/mutator/json_patch_webhook.go] *)
Module mutator.

Record JsonPatchWebhookMutator : Type := {
  name : string;
  endpoint : string;
  method : string;
}.

(** [Patch] is a [[]interface{}]: [None] is the nil slice. *)
Record jsonPatchWebhookResponse : Type := {
  Patch : option (list value);
  Warnings : list string;
  Errors : list string;
}.

Definition zero_response : jsonPatchWebhookResponse :=
  {| Patch := None; Warnings := []; Errors := [] |}.

Fixpoint response_members (ms : list (string * value))
    (r : jsonPatchWebhookResponse) : option jsonPatchWebhookResponse :=
  match ms with
  | [] => Some r
  | (k, v) :: rest =>
      if json.equalFold k "patch" then
        match v with
        | JNull =>
            response_members rest
              {| Patch := None; Warnings := Warnings r; Errors := Errors r |}
        | JArray elems =>
            response_members rest
              {| Patch := Some elems; Warnings := Warnings r; Errors := Errors r |}
        | _ => None
        end
      else if json.equalFold k "warnings" then
        match json.string_slice v with
        | Some l =>
            response_members rest
              {| Patch := Patch r; Warnings := l; Errors := Errors r |}
        | None => None
        end
      else if json.equalFold k "errors" then
        match json.string_slice v with
        | Some l =>
            response_members rest
              {| Patch := Patch r; Warnings := Warnings r; Errors := l |}
        | None => None
        end
      else response_members rest r
  end.

(** [Decode(&patchResponse)] on a pointer to the response pointer:
    the inner [option] is that pointer, which a [null] body resets to
    nil. *)
Definition decode_response (body : option value)
    : option (option jsonPatchWebhookResponse) :=
  match body with
  | Some JNull => Some None
  | Some (JObject ms) => option_map Some (response_members ms zero_response)
  | _ => None
  end.

Definition decode_error : error := errorString "json: cannot decode the webhook reply".
Definition patch_decode_error : error := errorString "jsonpatch: cannot decode the patch".
Definition patch_apply_error : error := errorString "jsonpatch: cannot apply the patch".
Definition job_decode_error : error := errorString "json: cannot unmarshal the patched job".

(** [json.Marshal(patchResponse.Patch)]. *)
Definition Patch_to_json (p : option (list value)) : value :=
  match p with
  | None => JNull
  | Some elems => JArray elems
  end.

(** [Mutate]: the triple (job, warnings, error) it returns.  The two
    debug log calls read [payload.Job.ID]. *)
Definition Mutate (client : http.WebhookClient) (j : JsonPatchWebhookMutator)
    (payload : types.Payload)
    : outcome (option api.Job * list error * option error) :=
  let jobJson := types.Payload_to_json payload in
  match http.NewRequest (method j) (endpoint j) jobJson with
  | inl err => Returns (None, [], Some err)
  | inr req0 =>
      let req := http.add_context_headers (types.Context payload) req0 in
      match client req with
      | inl err => Returns (None, [], Some err)
      | inr body =>
          match decode_response body with
          | None => Returns (None, [], Some decode_error)
          | Some None => Panics
          | Some (Some patchResponse) =>
              let has_warnings := (0 <? length (Warnings patchResponse))%nat in
              match has_warnings, types.Job payload with
              | true, None => Panics
              | _, _ =>
                  let warnings :=
                    if has_warnings then
                      fold_left (fun warnings warning => warnings ++ [fmt.Errorf0 warning])
                                (Warnings patchResponse) []
                    else [] in
                  let patchJson := Patch_to_json (Patch patchResponse) in
                  match jsonpatch.DecodePatch patchJson with
                  | None => Returns (None, [], Some patch_decode_error)
                  | Some patch =>
                      match types.Job payload with
                      | None => Panics
                      | Some _ =>
                          match jsonpatch.Apply patch jobJson with
                          | None => Returns (None, [], Some patch_apply_error)
                          | Some patchedJobJson =>
                              match api.Job_of_json patchedJobJson with
                              | None => Returns (None, [], Some job_decode_error)
                              | Some patchedJob =>
                                  Returns (Some patchedJob, warnings, None)
                              end
                          end
                      end
                  end
              end
          end
      end
  end.

End mutator.

(** ** [admissionctrl.JobHandler]: the admission pipeline

    The proxy only calls four methods of the pipeline; a handler is
    given by what these return.  (A stage may call a webhook; the
    handlers call each method at most once per request.) *)
Module admissionctrl.

Record JobHandler : Type := {
  ResolveToken : bool;
  ApplyAdmissionControllers :
    types.Payload -> option api.Job * list error * option error;
  AdmissionMutators :
    types.Payload -> option api.Job * list error * option error;
  AdmissionValidators : types.Payload -> list error * option error;
}.

End admissionctrl.

(** ** [compress/gzip], kept abstract: [compress] is what a
    [gzip.Writer] leaves in its buffer once closed, [decompress] what a
    [gzip.Reader] delivers ([None]: not a gzip stream). *)
Module gzip.

Record Codec : Type := {
  compress : string -> string;
  decompress : string -> option string;
}.

End gzip.

(** ** [cmd/nacp/nacp.go] *)
Module nacp.

(** The values the handlers keep on a request's [context.Context],
    one field per key: the string key ["request_context"] and the two
    struct-typed keys.  [ctxValidationError] is stored
    unconditionally, also as a nil error ([Some None]). *)
Record Context : Type := {
  request_context : option config.RequestContext;
  ctxWarnings : option (list error);
  ctxValidationError : option (option error);
}.

Definition Background : Context :=
  {| request_context := None; ctxWarnings := None; ctxValidationError := None |}.

Abbreviation Header := (gmap string string).

Definition Header_Get (h : Header) (key : string) : string :=
  default "" (h !! key).

(** An [*http.Request]: [Path] is [URL.Path], [ReqBody] what is left to
    read of [Body], [Ctx] what [Context()] returns. *)
Record Request : Type := {
  Method : string;
  Path : string;
  ReqHeader : Header;
  RemoteAddr : string;
  ReqBody : string;
  ReqContentLength : Z;
  Ctx : Context;
}.

(** An [*http.Response]: [Body] is what is left to read of it,
    [RespRequest] the request it answers ([resp.Request]). *)
Record Response : Type := {
  Status : string;
  StatusCode : Z;
  RespHeader : Header;
  ContentLength : Z;
  Body : string;
  RespRequest : Request;
}.

(** What reaches the client. *)
Record ClientResponse : Type := {
  client_status : Z;
  client_header : Header;
  client_body : string;
}.

(** What the handler does besides answering: log lines of the
    application logger and requests sent to the upstream. *)
Inductive event : Type :=
| Logged (level msg : string) (err : option error)
| UpstreamCall (req : Request).

(** The upstream behind the shared transport: the round trip fails or
    delivers a response. *)
Definition RoundTripper : Type := Request -> error + Response.

Definition StatusOK : Z := 200.
Definition StatusInternalServerError : Z := 500.
Definition StatusBadGateway : Z := 502.

Definition jobPathRegex : regexp.Compiled :=
  regexp.MustCompile "^/v1/job/[a-zA-Z]+[a-z-Z0-9\-]*$".
Definition jobPlanPathRegex : regexp.Compiled :=
  regexp.MustCompile "^/v1/job/[a-zA-Z]+[a-z-Z0-9\-]*/plan$".

(** [strings.Split(s, ",")[0]]. *)
Fixpoint before_comma (s : string) : string :=
  match s with
  | EmptyString => EmptyString
  | String c s' => if Ascii.eqb c "," then EmptyString else String c (before_comma s')
  end.

(** The host that [net.SplitHostPort] returns, or the empty string
    when it fails: the text before the last colon, without the
    brackets of an IPv6 literal. *)
Fixpoint host_of (s : string) : option string :=
  match s with
  | EmptyString => None
  | String c s' =>
      match host_of s' with
      | Some h => Some (String c h)
      | None => if Ascii.eqb c ":" then Some EmptyString else None
      end
  end.

Definition strip_brackets (h : string) : string :=
  match h with
  | String "[" h' =>
      match rev (list_ascii_of_string h') with
      | "]"%char :: inner => string_of_list_ascii (rev inner)
      | _ => EmptyString
      end
  | _ => if existsb (Ascii.eqb ":") (list_ascii_of_string h) then EmptyString else h
  end.

Definition getClientIP (r : Request) : string :=
  let forwarded := Header_Get (ReqHeader r) "X-Forwarded-For" in
  if negb (String.eqb forwarded "") then before_comma forwarded
  else
    match host_of (RemoteAddr r) with
    | Some h => strip_brackets h
    | None => ""
    end.

Definition is_put_or_post (r : Request) : bool :=
  String.eqb (Method r) "PUT" || String.eqb (Method r) "POST".

Definition isCreate (r : Request) : bool :=
  is_put_or_post r && String.eqb (Path r) "/v1/jobs".

Definition isUpdate (r : Request) : bool :=
  is_put_or_post r && regexp.MatchString jobPathRegex (Path r).

Definition isRegister (r : Request) : bool :=
  isCreate r || isUpdate r.

Definition isPlan (r : Request) : bool :=
  is_put_or_post r && regexp.MatchString jobPlanPathRegex (Path r).

Definition isValidate (r : Request) : bool :=
  is_put_or_post r && String.eqb (Path r) "/v1/validate/job".

Definition WithContext (r : Request) (ctx : Context) : Request :=
  {| Method := Method r; Path := Path r; ReqHeader := ReqHeader r;
     RemoteAddr := RemoteAddr r; ReqBody := ReqBody r;
     ReqContentLength := ReqContentLength r; Ctx := ctx |}.

Definition WithValue_request_context (ctx : Context) (c : config.RequestContext) : Context :=
  {| request_context := Some c; ctxWarnings := ctxWarnings ctx;
     ctxValidationError := ctxValidationError ctx |}.

Definition WithValue_ctxWarnings (ctx : Context) (ws : list error) : Context :=
  {| request_context := request_context ctx; ctxWarnings := Some ws;
     ctxValidationError := ctxValidationError ctx |}.

Definition WithValue_ctxValidationError (ctx : Context) (err : option error) : Context :=
  {| request_context := request_context ctx; ctxWarnings := ctxWarnings ctx;
     ctxValidationError := Some err |}.

Definition rewriteRequest (r : Request) (data : string) : Request :=
  {| Method := Method r; Path := Path r; ReqHeader := ReqHeader r;
     RemoteAddr := RemoteAddr r; ReqBody := data;
     ReqContentLength := Z.of_nat (String.length data); Ctx := Ctx r |}.

Definition Header_Set (resp : Response) (key val : string) : Response :=
  {| Status := Status resp; StatusCode := StatusCode resp;
     RespHeader := <[key := val]> (RespHeader resp);
     ContentLength := ContentLength resp; Body := Body resp;
     RespRequest := RespRequest resp |}.

Definition set_body (resp : Response) (len : nat) (body : string) : Response :=
  {| Status := Status resp; StatusCode := StatusCode resp;
     RespHeader := RespHeader resp;
     ContentLength := Z.of_nat len; Body := body;
     RespRequest := RespRequest resp |}.

(** A body handed to a reader is read to its end. *)
Definition drained (resp : Response) : Response :=
  {| Status := Status resp; StatusCode := StatusCode resp;
     RespHeader := RespHeader resp;
     ContentLength := ContentLength resp; Body := "";
     RespRequest := RespRequest resp |}.

Definition rewriteResponse (resp : Response) (newResponeData : string) : Response :=
  let resp1 := Header_Set resp "Content-Length" (pretty (String.length newResponeData)) in
  set_body resp1 (String.length newResponeData) newResponeData.

(** [allWarnings] points to one [multierror.Error] throughout: the
    first [Append], whose result the code drops, has already added the
    upstream warning to that object when the second one runs. *)
Definition buildFullWarningMsg (upstreamResponseWarnings : string)
    (warnings : list error) : string :=
  let allWarnings := multiError [] in
  let allWarnings :=
    if negb (String.eqb upstreamResponseWarnings "") then
      multierror.Append (Some allWarnings) [fmt.Errorf_v upstreamResponseWarnings]
    else allWarnings in
  let allWarnings := multierror.Append (Some allWarnings) warnings in
  helper.MergeMultierrorWarnings [allWarnings].

Definition json_decode_error : error := errorString "json: cannot decode the body".
Definition gzip_header_error : error := errorString "gzip: invalid header".

Section Handlers.

Variable T : json.Text.
Variable G : gzip.Codec.

Definition rewriteResponseGzip (resp : Response) (newResponeData : string) : Response :=
  let compressed := gzip.compress G newResponeData in
  let resp1 := Header_Set resp "Content-Length" (pretty (String.length compressed)) in
  set_body resp1 (String.length compressed) compressed.

(** The reader is what it will deliver when read to its end. *)
Definition checkIfGzipAndTransformReader (resp : Response) (reader : string)
    : error + (bool * string) :=
  let enc := Header_Get (RespHeader resp) "Content-Encoding" in
  let isGzip := String.eqb enc "gzip" in
  if isGzip then
    match gzip.decompress G (Body resp) with
    | None => inl gzip_header_error
    | Some gzipReader => inr (isGzip, gzipReader)
    end
  else inr (isGzip, reader).

(** [json.NewDecoder(reader).Decode(x)] for the envelope types. *)
Definition Decode {A : Type} (of_json : value -> option A) (reader : string)
    : error + A :=
  match json.unmarshal T reader with
  | None => inl json_decode_error
  | Some doc =>
      match of_json doc with
      | None => inl json_decode_error
      | Some x => inr x
      end
  end.

(** The context value under [ctxWarnings], asserted to be a
    [[]error]: the value and [ok]. *)
Definition warnings_value (ctx : Context) : list error * bool :=
  match ctxWarnings ctx with
  | Some ws => (ws, true)
  | None => ([], false)
  end.

Definition handRegisterResponse (resp : Response) : Response * option error :=
  let '(warnings, ok) := warnings_value (Ctx (RespRequest resp)) in
  if negb ok && Nat.eqb (length warnings) 0 then (resp, None)
  else
    match checkIfGzipAndTransformReader resp (Body resp) with
    | inl err => (drained resp, Some err)
    | inr (isGzip, reader) =>
        match Decode api.JobResponse_of_json reader with
        | inl err => (drained resp, Some err)
        | inr response =>
            let response :=
              {| api.Warnings := buildFullWarningMsg (api.Warnings response) warnings;
                 api.ResponseOther := api.ResponseOther response |} in
            let responeData := json.marshal T (api.JobResponse_to_json response) in
            if isGzip then (rewriteResponseGzip resp responeData, None)
            else (rewriteResponse resp responeData, None)
        end
    end.

Definition handleJobPlanResponse (resp : Response) : Response * option error :=
  let '(warnings, ok) := warnings_value (Ctx (RespRequest resp)) in
  if negb ok && Nat.eqb (length warnings) 0 then (resp, None)
  else
    match checkIfGzipAndTransformReader resp (Body resp) with
    | inl err => (drained resp, Some err)
    | inr (isGzip, reader) =>
        match Decode api.JobResponse_of_json reader with
        | inl err => (drained resp, Some err)
        | inr response =>
            let response :=
              {| api.Warnings := buildFullWarningMsg (api.Warnings response) warnings;
                 api.ResponseOther := api.ResponseOther response |} in
            let responeData := json.marshal T (api.JobResponse_to_json response) in
            if isGzip then (rewriteResponseGzip resp responeData, None)
            else (rewriteResponse resp responeData, None)
        end
    end.

(** The context value under [ctxValidationError], asserted to be an
    [error]: a stored nil fails the assertion. *)
Definition validation_error_value (ctx : Context) : option error * bool :=
  match ctxValidationError ctx with
  | Some (Some e) => (Some e, true)
  | _ => (None, false)
  end.

(** In the branch for an error that is not a multi-error the code
    calls [Error()] on [err], the nil error that
    [checkIfGzipAndTransformReader] returned. *)
Definition handleJobValdidateResponse (resp : Response)
    : outcome (Response * option error) :=
  let ctx := Ctx (RespRequest resp) in
  let '(validationErr, okErr) := validation_error_value ctx in
  let '(warnings, okWarnings) := warnings_value ctx in
  if negb okErr && negb okWarnings then Returns (resp, None)
  else
    match checkIfGzipAndTransformReader resp (Body resp) with
    | inl err => Returns (drained resp, Some err)
    | inr (isGzip, reader) =>
        match Decode api.JobValidateResponse_of_json reader with
        | inl err => Returns (drained resp, Some err)
        | inr response =>
            let filled : outcome api.JobValidateResponse :=
              match validationErr with
              | Some (multiError merr_Errors) =>
                  let validationErrors :=
                    fold_left (fun acc err => acc ++ [Error err]) merr_Errors [] in
                  let validationError := Error (multiError merr_Errors) in
                  Returns {| api.DriverConfigValidated := api.DriverConfigValidated response;
                             api.ValidationErrors := Some validationErrors;
                             api.Error := validationError;
                             api.ValidateWarnings := api.ValidateWarnings response |}
              | Some _ => Panics
              | None => Returns response
              end in
            match filled with
            | Panics => Panics
            | Returns response =>
                let response :=
                  if (0 <? length warnings)%nat then
                    {| api.DriverConfigValidated := api.DriverConfigValidated response;
                       api.ValidationErrors := api.ValidationErrors response;
                       api.Error := api.Error response;
                       api.ValidateWarnings :=
                         buildFullWarningMsg (api.ValidateWarnings response) warnings |}
                  else response in
                let responeData :=
                  json.marshal T (api.JobValidateResponse_to_json response) in
                if isGzip then Returns (rewriteResponseGzip resp responeData, None)
                else Returns (rewriteResponse resp responeData, None)
            end
        end
    end.

Definition handleRegister (r : Request) (jobHandler : admissionctrl.JobHandler)
    : Request * option error :=
  match Decode api.JobRequest_of_json (ReqBody r) with
  | inl err =>
      (r, Some (wrapError "failed decoding job, skipping admission controller: " err))
  | inr jobRegisterRequest =>
      let orginalJob := api.ReqJob jobRegisterRequest in
      let payload :=
        {| types.Job := orginalJob; types.Context := request_context (Ctx r) |} in
      let '(job, warnings, err) :=
        admissionctrl.ApplyAdmissionControllers jobHandler payload in
      match err with
      | Some err =>
          (r, Some (wrapError "admission controllers send an error, returning error: " err))
      | None =>
          let jobRegisterRequest :=
            {| api.ReqJob := job;
               api.RequestOther := api.RequestOther jobRegisterRequest |} in
          let data := json.marshal T (api.JobRequest_to_json jobRegisterRequest) in
          let ctx := Ctx r in
          let ctx :=
            if (0 <? length warnings)%nat then WithValue_ctxWarnings ctx warnings
            else ctx in
          let r := WithContext r ctx in
          (rewriteRequest r data, None)
      end
  end.

Definition handlePlan (r : Request) (jobHandler : admissionctrl.JobHandler)
    : Request * option error :=
  match Decode api.JobRequest_of_json (ReqBody r) with
  | inl err =>
      (r, Some (wrapError "failed decoding job, skipping admission controller: " err))
  | inr jobPlanRequest =>
      let orginalJob := api.ReqJob jobPlanRequest in
      let payload :=
        {| types.Job := orginalJob; types.Context := request_context (Ctx r) |} in
      let '(job, warnings, err) :=
        admissionctrl.ApplyAdmissionControllers jobHandler payload in
      match err with
      | Some err =>
          (r, Some (wrapError "admission controllers send an error, returning error: " err))
      | None =>
          let jobPlanRequest :=
            {| api.ReqJob := job;
               api.RequestOther := api.RequestOther jobPlanRequest |} in
          let data := json.marshal T (api.JobRequest_to_json jobPlanRequest) in
          let ctx := Ctx r in
          let ctx :=
            if (0 <? length warnings)%nat then WithValue_ctxWarnings ctx warnings
            else ctx in
          let r := WithContext r ctx in
          (rewriteRequest r data, None)
      end
  end.

Definition handleValidate (r : Request) (jobHandler : admissionctrl.JobHandler)
    : Request * option error :=
  match Decode api.JobRequest_of_json (ReqBody r) with
  | inl err => (r, Some err)
  | inr jobValidateRequest =>
      let job := api.ReqJob jobValidateRequest in
      let payload :=
        {| types.Job := job; types.Context := request_context (Ctx r) |} in
      let '(job, mutateWarnings, err) :=
        admissionctrl.AdmissionMutators jobHandler payload in
      match err with
      | Some err => (r, Some err)
      | None =>
          let jobValidateRequest :=
            {| api.ReqJob := job;
               api.RequestOther := api.RequestOther jobValidateRequest |} in
          let payload :=
            {| types.Job := job; types.Context := types.Context payload |} in
          let '(validateWarnings, err) :=
            admissionctrl.AdmissionValidators jobHandler payload in
          let ctx := Ctx r in
          let ctx := WithValue_ctxValidationError ctx err in
          let validateWarnings := validateWarnings ++ mutateWarnings in
          let data := json.marshal T (api.JobRequest_to_json jobValidateRequest) in
          let ctx :=
            if (0 <? length validateWarnings)%nat
            then WithValue_ctxWarnings ctx validateWarnings
            else ctx in
          let r := WithContext r ctx in
          (rewriteRequest r data, None)
      end
  end.

(** [writeError] on a fresh [ResponseWriter]. *)
Definition writeError (err : error) : ClientResponse :=
  {| client_status := StatusInternalServerError;
     client_header := ∅;
     client_body := Error err |}.

(** The request [resolveTokenAccessor] builds: a GET of the
    upstream address with the path replaced.  ([http.NewRequest]
    cannot refuse it: the method is valid and the URL is a parsed
    one.) *)
Definition selfRequest (token : string) : Request :=
  {| Method := "GET"; Path := "/v1/acl/token/self";
     ReqHeader := <["X-Nomad-Token" := token]> ∅;
     RemoteAddr := ""; ReqBody := ""; ReqContentLength := 0;
     Ctx := Background |}.

Definition resolveTokenAccessor (transport : RoundTripper) (token : string)
    : list event * (option api.ACLToken * option error) :=
  if String.eqb token "" then ([], (None, None))
  else
    let req := selfRequest token in
    match transport req with
    | inl err => ([UpstreamCall req], (None, Some err))
    | inr resp =>
        if negb (Z.eqb (StatusCode resp) StatusOK) then
          ([UpstreamCall req],
           (None, Some (errorString ("unexpected status code: " +:+ Status resp))))
        else
          match Decode api.ACLToken_of_json (Body resp) with
          | inl err => ([UpstreamCall req], (None, Some err))
          | inr aclToken => ([UpstreamCall req], (Some aclToken, None))
          end
    end.

(** The [ModifyResponse] hook installed on the reverse proxy. *)
Definition ModifyResponse (resp : Response)
    : list event * outcome (Response * option error) :=
  let res :=
    if isRegister (RespRequest resp) then Returns (handRegisterResponse resp)
    else if isPlan (RespRequest resp) then Returns (handleJobPlanResponse resp)
    else if isValidate (RespRequest resp) then handleJobValdidateResponse resp
    else Returns (resp, None) in
  match res with
  | Returns (_, Some err) =>
      ([Logged "error" "Preparing response failed" (Some err)], res)
  | _ => ([], res)
  end.

(** [httputil.ReverseProxy.ServeHTTP] for an upstream address
    without a path prefix: the request is sent as it is, a failed
    round trip or a failing [ModifyResponse] is answered with 502,
    and otherwise status, headers and body are copied to the
    client. *)
Definition ServeHTTP (transport : RoundTripper) (r : Request)
    : list event * outcome ClientResponse :=
  let bad_gateway :=
    {| client_status := StatusBadGateway; client_header := ∅; client_body := "" |} in
  match transport r with
  | inl err => ([UpstreamCall r], Returns bad_gateway)
  | inr res =>
      let res :=
        {| Status := Status res; StatusCode := StatusCode res;
           RespHeader := RespHeader res; ContentLength := ContentLength res;
           Body := Body res; RespRequest := r |} in
      let '(logs, modified) := ModifyResponse res in
      match modified with
      | Panics => (UpstreamCall r :: logs, Panics)
      | Returns (_, Some err) => (UpstreamCall r :: logs, Returns bad_gateway)
      | Returns (res', None) =>
          (UpstreamCall r :: logs,
           Returns {| client_status := StatusCode res';
                      client_header := RespHeader res';
                      client_body := Body res' |})
      end
  end.

(** The request context built before the pipeline runs, with the
    trace of the token resolution. *)
Definition buildRequestContext (transport : RoundTripper)
    (jobHandler : admissionctrl.JobHandler) (r : Request)
    : list event * config.RequestContext :=
  let reqCtx :=
    {| config.ClientIP := getClientIP r; config.AccessorID := "";
       config.TokenInfo := None |} in
  let token := Header_Get (ReqHeader r) "X-Nomad-Token" in
  if admissionctrl.ResolveToken jobHandler then
    let '(calls, (tokenInfo, err)) := resolveTokenAccessor transport token in
    let logs :=
      match err with
      | Some err => [Logged "error" "Resolving token failed" (Some err)]
      | None => []
      end in
    let reqCtx :=
      match tokenInfo with
      | Some tokenInfo =>
          {| config.ClientIP := config.ClientIP reqCtx;
             config.AccessorID := api.AccessorID tokenInfo;
             config.TokenInfo := Some tokenInfo |}
      | None => reqCtx
      end in
    (calls ++ logs, reqCtx)
  else ([], reqCtx).

(** The handler [NewProxyHandler] returns, from the point where the
    request context is stored on the request. *)
Definition dispatch (transport : RoundTripper)
    (jobHandler : admissionctrl.JobHandler) (r : Request)
    : list event * outcome ClientResponse :=
  let '(r, err) :=
    if isRegister r then handleRegister r jobHandler
    else if isPlan r then handlePlan r jobHandler
    else if isValidate r then handleValidate r jobHandler
    else (r, None) in
  match err with
  | Some err =>
      ([Logged "warn" "Error applying admission controllers" (Some err)],
       Returns (writeError err))
  | None => ServeHTTP transport r
  end.

(** The handler [NewProxyHandler] returns. *)
Definition ProxyHandler (transport : RoundTripper)
    (jobHandler : admissionctrl.JobHandler) (r : Request)
    : list event * outcome ClientResponse :=
  let '(trace, reqCtx) := buildRequestContext transport jobHandler r in
  let received := Logged "info" "Request received" None in
  let ctx := WithValue_request_context (Ctx r) reqCtx in
  let r := WithContext r ctx in
  let '(trace', result) := dispatch transport jobHandler r in
  (trace ++ received :: trace', result).

End Handlers.

End nacp.

(** ** A concrete text level and a concrete codec

    The statements below hold for every [json.Text] and [gzip.Codec].
    To run the handlers on sample requests the examples use a compact
    printer and a parser for the JSON fragment without fractions and
    exponents, and a codec that frames the data without compressing
    it. *)
Module sample.

Definition DQ : ascii := ascii_of_nat 34.
Definition BS : ascii := ascii_of_nat 92.

Fixpoint escape (s : string) : string :=
  match s with
  | EmptyString => EmptyString
  | String c s' =>
      if Ascii.eqb c DQ || Ascii.eqb c BS then String BS (String c (escape s'))
      else if Ascii.eqb c "010" then String BS (String "n" (escape s'))
      else if Ascii.eqb c "009" then String BS (String "t" (escape s'))
      else String c (escape s')
  end.

Definition quote (s : string) : string :=
  String DQ (escape s) +:+ String DQ EmptyString.

Definition print_Z (n : Z) : string :=
  match n with
  | Z0 => "0"
  | Zpos p => pretty (Pos.to_nat p)
  | Zneg p => "-" +:+ pretty (Pos.to_nat p)
  end.

Fixpoint print (v : value) : string :=
  match v with
  | JNull => "null"
  | JBool true => "true"
  | JBool false => "false"
  | JNumber n => print_Z n
  | JString s => quote s
  | JArray elems => "[" +:+ String.concat "," (List.map print elems) +:+ "]"
  | JObject ms =>
      "{" +:+ String.concat ","
                (List.map (fun kv => quote (fst kv) +:+ ":" +:+ print (snd kv)) ms)
          +:+ "}"
  end.

Definition is_space (c : ascii) : bool :=
  Ascii.eqb c " " || Ascii.eqb c "010" || Ascii.eqb c "009" || Ascii.eqb c "013".

Fixpoint skip_space (t : list ascii) : list ascii :=
  match t with
  | c :: t' => if is_space c then skip_space t' else t
  | [] => []
  end.

(** The characters of a string up to its closing quote. *)
Fixpoint parse_chars (t : list ascii) : option (string * list ascii) :=
  match t with
  | [] => None
  | c :: t' =>
      if Ascii.eqb c DQ then Some (EmptyString, t')
      else if Ascii.eqb c BS then
        match t' with
        | e :: t'' =>
            let decoded :=
              if Ascii.eqb e "n" then Some "010"%char
              else if Ascii.eqb e "t" then Some "009"%char
              else if Ascii.eqb e DQ || Ascii.eqb e BS || Ascii.eqb e "/" then Some e
              else None in
            match decoded, parse_chars t'' with
            | Some d, Some (s, rest) => Some (String d s, rest)
            | _, _ => None
            end
        | [] => None
        end
      else
        match parse_chars t' with
        | Some (s, rest) => Some (String c s, rest)
        | None => None
        end
  end.

Fixpoint parse_digits (acc : nat) (t : list ascii) : nat * list ascii :=
  match t with
  | c :: t' =>
      match jsonpatch.digit c with
      | Some d => parse_digits (10 * acc + d) t'
      | None => (acc, t)
      end
  | [] => (acc, [])
  end.

Definition starts_number_tail (t : list ascii) : bool :=
  match t with
  | c :: _ => Ascii.eqb c "." || Ascii.eqb c "e" || Ascii.eqb c "E"
  | [] => false
  end.

Fixpoint parse_value (fuel : nat) (t : list ascii) : option (value * list ascii) :=
  match fuel with
  | O => None
  | S fuel' =>
      match skip_space t with
      | "n"%char :: "u"%char :: "l"%char :: "l"%char :: rest => Some (JNull, rest)
      | "t"%char :: "r"%char :: "u"%char :: "e"%char :: rest => Some (JBool true, rest)
      | "f"%char :: "a"%char :: "l"%char :: "s"%char :: "e"%char :: rest =>
          Some (JBool false, rest)
      | "["%char :: rest =>
          match skip_space rest with
          | "]"%char :: rest' => Some (JArray [], rest')
          | _ =>
              (fix elements (n : nat) (t : list ascii) (acc : list value)
                   : option (value * list ascii) :=
                 match n with
                 | O => None
                 | S n' =>
                     match parse_value fuel' t with
                     | None => None
                     | Some (v, t1) =>
                         match skip_space t1 with
                         | ","%char :: t2 => elements n' t2 (acc ++ [v])
                         | "]"%char :: t2 => Some (JArray (acc ++ [v]), t2)
                         | _ => None
                         end
                     end
                 end) fuel' rest []
          end
      | "{"%char :: rest =>
          match skip_space rest with
          | "}"%char :: rest' => Some (JObject [], rest')
          | _ =>
              (fix members (n : nat) (t : list ascii) (acc : list (string * value))
                   : option (value * list ascii) :=
                 match n with
                 | O => None
                 | S n' =>
                     match skip_space t with
                     | q :: t0 =>
                         if Ascii.eqb q DQ then
                           match parse_chars t0 with
                           | None => None
                           | Some (k, t1) =>
                               match skip_space t1 with
                               | ":"%char :: t2 =>
                                   match parse_value fuel' t2 with
                                   | None => None
                                   | Some (v, t3) =>
                                       match skip_space t3 with
                                       | ","%char :: t4 => members n' t4 (acc ++ [(k, v)])
                                       | "}"%char :: t4 =>
                                           Some (JObject (acc ++ [(k, v)]), t4)
                                       | _ => None
                                       end
                                   end
                               | _ => None
                               end
                           end
                         else None
                     | [] => None
                     end
                 end) fuel' rest []
          end
      | "-"%char :: c :: rest =>
          match jsonpatch.digit c with
          | Some _ =>
              let '(n, rest') := parse_digits 0 (c :: rest) in
              if starts_number_tail rest' then None
              else Some (JNumber (- Z.of_nat n), rest')
          | None => None
          end
      | c :: rest =>
          if Ascii.eqb c DQ then
            match parse_chars rest with
            | Some (s, rest') => Some (JString s, rest')
            | None => None
            end
          else
            match jsonpatch.digit c with
            | Some _ =>
                let '(n, rest') := parse_digits 0 (c :: rest) in
                if starts_number_tail rest' then None
                else Some (JNumber (Z.of_nat n), rest')
            | None => None
            end
      | [] => None
      end
  end.

Definition parse (s : string) : option value :=
  let t := list_ascii_of_string s in
  match parse_value (S (length t)) t with
  | Some (v, rest) =>
      match skip_space rest with
      | [] => Some v
      | _ => None
      end
  | None => None
  end.

Definition text : json.Text := {| json.marshal := print; json.unmarshal := parse |}.

(** Framing: a two-byte mark in front of the data. *)
Definition frame (data : string) : string := "GZ" +:+ data.
Definition unframe (s : string) : option string :=
  match s with
  | String "G" (String "Z" data) => Some data
  | _ => None
  end.

Definition codec : gzip.Codec := {| gzip.compress := frame; gzip.decompress := unframe |}.

End sample.

(** ** The route classifier as the specification words it *)
Module classifier_spec.

Definition jobPathRegex : regexp.Compiled :=
  regexp.MustCompile "^/v1/job/[A-Za-z][A-Za-z0-9-]*$".
Definition jobPlanPathRegex : regexp.Compiled :=
  regexp.MustCompile "^/v1/job/[A-Za-z][A-Za-z0-9-]*/plan$".

Definition put_or_post (method : string) : bool :=
  String.eqb method "PUT" || String.eqb method "POST".

Definition Register (method path : string) : bool :=
  put_or_post method
  && (String.eqb path "/v1/jobs" || regexp.MatchString jobPathRegex path).

Definition Plan (method path : string) : bool :=
  put_or_post method && regexp.MatchString jobPlanPathRegex path.

(** The bracket expressions of the patterns: the two of the code
    ([letters], then [tail_chars]) and the two of the specification. *)
Definition letters : list regexp.class_item :=
  [regexp.Range "a" "z"; regexp.Range "A" "Z"].
Definition tail_chars : list regexp.class_item :=
  [regexp.Range "a" "z"; regexp.Single "-"; regexp.Single "Z";
   regexp.Range "0" "9"; regexp.Single "-"].
Definition spec_first : list regexp.class_item :=
  [regexp.Range "A" "Z"; regexp.Range "a" "z"].
Definition spec_rest : list regexp.class_item :=
  [regexp.Range "A" "Z"; regexp.Range "a" "z"; regexp.Range "0" "9";
   regexp.Single "-"].

End classifier_spec.

(** ** Sample requests, pipelines and upstreams *)
Module examples.

Import nacp.

Definition request (method path : string) (header : Header) (body : value) : Request :=
  {| Method := method; Path := path; ReqHeader := header;
     RemoteAddr := "10.0.0.7:51034";
     ReqBody := sample.print body;
     ReqContentLength := Z.of_nat (String.length (sample.print body));
     Ctx := Background |}.

Definition app : api.Job := {| api.ID := Some "app"; api.Meta := None |}.

Definition envelope : value := JObject [("Job", api.Job_to_json app)].

Definition validate_request : Request :=
  request "POST" "/v1/validate/job" ∅ envelope.

Definition register_request : Request :=
  request "POST" "/v1/jobs" (<["X-Nomad-Token" := "secret"]> ∅) envelope.

(** A pipeline whose mutators and validators each leave a warning. *)
Definition warning_pipeline : admissionctrl.JobHandler :=
  {| admissionctrl.ResolveToken := false;
     admissionctrl.ApplyAdmissionControllers :=
       fun p => (types.Job p,
                 [errorString "from the mutator"; errorString "from the validator"],
                 None);
     admissionctrl.AdmissionMutators :=
       fun p => (types.Job p, [errorString "from the mutator"], None);
     admissionctrl.AdmissionValidators :=
       fun p => ([errorString "from the validator"], None) |}.

(** A pipeline whose mutator fails. *)
Definition failing_mutator_pipeline : admissionctrl.JobHandler :=
  {| admissionctrl.ResolveToken := false;
     admissionctrl.ApplyAdmissionControllers :=
       fun p => (None, [], Some (errorString "mutator unreachable"));
     admissionctrl.AdmissionMutators :=
       fun p => (None, [], Some (errorString "mutator unreachable"));
     admissionctrl.AdmissionValidators := fun p => ([], None) |}.

(** A pipeline whose validator rejects the job, with token resolution
    switched on. *)
Definition rejecting_pipeline : admissionctrl.JobHandler :=
  {| admissionctrl.ResolveToken := true;
     admissionctrl.ApplyAdmissionControllers :=
       fun p => (None, [], Some (multiError [errorString "forbidden image"]));
     admissionctrl.AdmissionMutators := fun p => (types.Job p, [], None);
     admissionctrl.AdmissionValidators :=
       fun p => ([], Some (multiError [errorString "bad"])) |}.

Definition reply (req : Request) (header : Header) (body : string) : Response :=
  {| Status := "200 OK"; StatusCode := 200; RespHeader := header;
     ContentLength := Z.of_nat (String.length body); Body := body;
     RespRequest := req |}.

Definition token : api.ACLToken :=
  {| api.AccessorID := "b780e702"; api.Name := "ci" |}.

(** An upstream that knows the token and answers every job request
    with an empty validation result. *)
Definition upstream : RoundTripper :=
  fun req =>
    if String.eqb (Path req) "/v1/acl/token/self" then
      inr (reply req ∅ (sample.print (api.ACLToken_to_json token)))
    else
      inr (reply req ∅
             (sample.print (api.JobValidateResponse_to_json
                              {| api.DriverConfigValidated := true;
                                 api.ValidationErrors := Some [];
                                 api.Error := ""; api.ValidateWarnings := "" |}))).

(** An upstream that refuses the token. *)
Definition denying_upstream : RoundTripper :=
  fun req =>
    inr {| Status := "403 Forbidden"; StatusCode := 403; RespHeader := ∅;
           ContentLength := 0; Body := ""; RespRequest := req |}.

(** A pipeline whose validator warns, and an upstream that has a
    warning of its own. *)
Definition cautious_pipeline : admissionctrl.JobHandler :=
  {| admissionctrl.ResolveToken := false;
     admissionctrl.ApplyAdmissionControllers :=
       fun p => (types.Job p, [errorString "cpu low"], None);
     admissionctrl.AdmissionMutators := fun p => (types.Job p, [], None);
     admissionctrl.AdmissionValidators :=
       fun p => ([errorString "cpu low"], None) |}.

Definition warning_upstream : RoundTripper :=
  fun req =>
    inr (reply req ∅ (sample.print (JObject [("Warnings", JString "existing")]))).

(** A gzip-encoded register reply and the request it answers, on
    which the pipeline left one warning. *)
Definition warned_request : Request :=
  WithContext (request "PUT" "/v1/jobs" ∅ envelope)
              (WithValue_ctxWarnings Background [errorString "w1"]).

Definition gzip_reply : Response :=
  reply warned_request (<["Content-Encoding" := "gzip"]> ∅)
        (sample.frame (sample.print (JObject [("Warnings", JString "");
                                               ("EvalID", JString "e1")]))).

Definition plain_reply : Response :=
  reply (request "PUT" "/v1/jobs" ∅ envelope) ∅
        (sample.print (JObject [("Warnings", JString "")])).

(** The webhook stages and replies of the scenarios. *)
Definition webhook_validator : validator.WebhookValidator :=
  {| validator.endpoint := "http://hooks.local/validate";
     validator.method := "POST"; validator.name := "hook" |}.

Definition webhook_mutator : mutator.JsonPatchWebhookMutator :=
  {| mutator.name := "hook"; mutator.endpoint := "http://hooks.local/mutate";
     mutator.method := "POST" |}.

Definition payload : types.Payload :=
  {| types.Job := Some app; types.Context := None |}.

Definition rejecting_webhook : http.WebhookClient :=
  fun _ => inr (Some (JObject [("errors", JArray [JString "first"; JString "second"]);
                               ("warnings", JArray [JString "ignored"])])).

Definition add_meta_patch : value :=
  JArray [JObject [("op", JString "add"); ("path", JString "/Meta");
                   ("value", JObject [("foo", JString "bar")])]].

Definition patching_webhook : http.WebhookClient :=
  fun _ => inr (Some (JObject [("patch", add_meta_patch)])).

End examples.

(** ** [testutil/hello_mutator.go] *)
Module testutil.

Record HelloMutator : Type := {
  MutatorName : string;
}.

(** [Mutate] writes into the job the payload points to and returns
    that same pointer: the result carries the payload as the call
    leaves it, then the triple (job, warnings, error).  Reading
    [payload.Job.Meta] of a payload without job panics. *)
Definition Mutate (h : HelloMutator) (payload : types.Payload)
    : outcome (types.Payload * (option api.Job * list error * option error)) :=
  match types.Job payload with
  | None => Panics
  | Some job =>
      let meta :=
        match api.Meta job with
        | None => ∅
        | Some m => m
        end in
      let meta := <["hello" := "world"]> meta in
      let job := {| api.ID := api.ID job; api.Meta := Some meta |} in
      Returns ({| types.Job := Some job; types.Context := types.Context payload |},
               (Some job, [], None))
  end.

Definition Name (h : HelloMutator) : string := MutatorName h.

End testutil.

(** ** [cmd/nacp/nacp.go]: building the stages and the server *)
Module startup.

(** The configuration, as far as [buildServer] and the functions it
    calls read it. *)
Record Webhook : Type := {
  Endpoint : string;
  Method : string;
}.

Record NotationVerifierConfig : Type := {
  TrustPolicyFile : string;
  TrustStoreDir : string;
  RepoPlainHTTP : bool;
  MaxSigAttempts : Z;
  CredentialStoreFile : string;
}.

Record OpaRule : Type := {
  Filename : string;
  Query : string;
  RuleNotation : option NotationVerifierConfig;
}.

(** An entry of [c.Mutators]. *)
Record Mutator : Type := {
  MutatorName : string;
  MutatorType : string;
  MutatorResolveToken : bool;
  MutatorOpaRule : OpaRule;
  MutatorWebhook : Webhook;
}.

(** An entry of [c.Validators]. *)
Record Validator : Type := {
  ValidatorName : string;
  ValidatorType : string;
  ValidatorResolveToken : bool;
  ValidatorOpaRule : OpaRule;
  ValidatorWebhook : Webhook;
  ValidatorNotation : option NotationVerifierConfig;
}.

Record NomadServerTLS : Type := {
  NomadCertFile : string;
  NomadKeyFile : string;
  NomadCaFile : string;
  InsecureSkipVerify : bool;
}.

Record Tls : Type := {
  CertFile : string;
  KeyFile : string;
  CaFile : string;
  NoClientCert : bool;
}.

Record Config : Type := {
  Bind : string;
  Port : Z;
  NomadAddress : string;
  NomadTLS : option NomadServerTLS;
  ServerTls : option Tls;
  Mutators : list Mutator;
  Validators : list Validator;
}.

Section Build.

(** What lies outside the program: parsing a URL, the policy engine,
    the signature verifier and the files the TLS settings name.  Each
    is given by what it returns. *)
Variables Policy ImageVerifier OpaMutator OpaValidator NotationValidator
          TlsConfig : Type.
Variable url_Parse : string -> error + string.
Variable LoadTrustPolicyDocument : string -> error + Policy.
Variable NewImageVerifier : Policy -> NotationVerifierConfig -> error + ImageVerifier.
Variable NewOpaJsonPatchMutator :
  string -> string -> string -> option ImageVerifier -> error + OpaMutator.
Variable NewOpaValidator :
  string -> string -> string -> option ImageVerifier -> error + OpaValidator.
Variable NewNotationValidator : string -> ImageVerifier -> NotationValidator.
Variable buildTlsConfig : NomadServerTLS -> error + TlsConfig.
Variable createTlsConfig : string -> bool -> error + TlsConfig.

(** The stages a pipeline can hold. *)
Inductive JobMutator : Type :=
| OpaJsonPatchStage (m : OpaMutator)
| JsonPatchWebhookStage (m : mutator.JsonPatchWebhookMutator).

Inductive JobValidator : Type :=
| OpaStage (v : OpaValidator)
| WebhookStage (v : validator.WebhookValidator)
| NotationStage (v : NotationValidator).

(** [mutator.NewJsonPatchWebhookMutator] and
    [validator.NewWebhookValidator]; the endpoint is kept in its
    printed form. *)
Definition NewJsonPatchWebhookMutator (name endpoint method : string)
    : error + mutator.JsonPatchWebhookMutator :=
  match url_Parse endpoint with
  | inl err => inl err
  | inr u => inr {| mutator.name := name; mutator.endpoint := u;
                    mutator.method := method |}
  end.

Definition NewWebhookValidator (name endpoint method : string)
    : error + validator.WebhookValidator :=
  match url_Parse endpoint with
  | inl err => inl err
  | inr u => inr {| validator.endpoint := u; validator.method := method;
                    validator.name := name |}
  end.

Definition buildVerifier (notationVerifierConfig : option NotationVerifierConfig)
    : error + ImageVerifier :=
  match notationVerifierConfig with
  | None => inl (errorString "notation verifier config is nil")
  | Some cfg =>
      match LoadTrustPolicyDocument (TrustPolicyFile cfg) with
      | inl err => inl err
      | inr policy => NewImageVerifier policy cfg
      end
  end.

(** The verifier is a nilable interface: [None] is no verifier. *)
Definition buildVerifierIfEnabled
    (notationVerifierConfig : option NotationVerifierConfig)
    : error + option ImageVerifier :=
  match notationVerifierConfig with
  | None => inr None
  | Some _ =>
      match buildVerifier notationVerifierConfig with
      | inl err => inl err
      | inr v => inr (Some v)
      end
  end.

(** The loop of [createMutators], from an entry on, with the stages
    and the flag collected so far. *)
Fixpoint createMutators_from (ms : list Mutator) (jobMutators : list JobMutator)
    (resolveToken : bool) : list JobMutator * bool * option error :=
  match ms with
  | [] => (jobMutators, resolveToken, None)
  | m :: rest =>
      let resolveToken := if MutatorResolveToken m then true else resolveToken in
      if String.eqb (MutatorType m) "opa_json_patch" then
        match buildVerifierIfEnabled (RuleNotation (MutatorOpaRule m)) with
        | inl err => ([], resolveToken, Some err)
        | inr notationVerifier =>
            match NewOpaJsonPatchMutator (MutatorName m)
                    (Filename (MutatorOpaRule m)) (Query (MutatorOpaRule m))
                    notationVerifier with
            | inl err => ([], resolveToken, Some err)
            | inr mutator =>
                createMutators_from rest (jobMutators ++ [OpaJsonPatchStage mutator])
                                    resolveToken
            end
        end
      else if String.eqb (MutatorType m) "json_patch_webhook" then
        match NewJsonPatchWebhookMutator (MutatorName m)
                (Endpoint (MutatorWebhook m)) (Method (MutatorWebhook m)) with
        | inl err => ([], resolveToken, Some err)
        | inr mutator =>
            createMutators_from rest (jobMutators ++ [JsonPatchWebhookStage mutator])
                                resolveToken
        end
      else
        ([], resolveToken,
         Some (errorString ("unknown mutator type " +:+ MutatorType m)))
  end.

Definition createMutators (c : Config) : list JobMutator * bool * option error :=
  createMutators_from (Mutators c) [] false.

Fixpoint createValidators_from (vs : list Validator) (jobValidators : list JobValidator)
    (resolveToken : bool) : list JobValidator * bool * option error :=
  match vs with
  | [] => (jobValidators, resolveToken, None)
  | v :: rest =>
      let resolveToken := if ValidatorResolveToken v then true else resolveToken in
      if String.eqb (ValidatorType v) "opa" then
        match buildVerifierIfEnabled (ValidatorNotation v) with
        | inl err => ([], resolveToken, Some err)
        | inr notationVerifier =>
            match NewOpaValidator (ValidatorName v)
                    (Filename (ValidatorOpaRule v)) (Query (ValidatorOpaRule v))
                    notationVerifier with
            | inl err => ([], resolveToken, Some err)
            | inr opaValidator =>
                createValidators_from rest (jobValidators ++ [OpaStage opaValidator])
                                      resolveToken
            end
        end
      else if String.eqb (ValidatorType v) "webhook" then
        match NewWebhookValidator (ValidatorName v)
                (Endpoint (ValidatorWebhook v)) (Method (ValidatorWebhook v)) with
        | inl err => ([], resolveToken, Some err)
        | inr validator =>
            createValidators_from rest (jobValidators ++ [WebhookStage validator])
                                  resolveToken
        end
      else if String.eqb (ValidatorType v) "notation" then
        match buildVerifier (ValidatorNotation v) with
        | inl err => ([], resolveToken, Some err)
        | inr notationVerifier =>
            let validator := NewNotationValidator (ValidatorName v) notationVerifier in
            createValidators_from rest (jobValidators ++ [NotationStage validator])
                                  resolveToken
        end
      else
        ([], resolveToken,
         Some (errorString ("unknown validator type " +:+ ValidatorType v)))
  end.

Definition createValidators (c : Config) : list JobValidator * bool * option error :=
  createValidators_from (Validators c) [] false.

(** What [buildServer] assembles: the listening address, the two TLS
    settings, and the arguments of [admissionctrl.NewJobHandler]. *)
Record Server : Type := {
  Addr : string;
  Backend : string;
  NomadTlsConfig : option TlsConfig;
  TLSConfig : option TlsConfig;
  jobMutators : list JobMutator;
  jobValidators : list JobValidator;
  resolveToken : bool;
}.

Definition buildServer (c : Config) : error + Server :=
  match url_Parse (NomadAddress c) with
  | inl err => inl (wrapError "failed to parse nomad address: " err)
  | inr backend =>
      let nomadTls : error + option TlsConfig :=
        match NomadTLS c with
        | None => inr None
        | Some tls =>
            match buildTlsConfig tls with
            | inl err => inl err
            | inr cfg => inr (Some cfg)
            end
        end in
      match nomadTls with
      | inl err => inl (wrapError "failed to create custom transport: " err)
      | inr nomadTlsConfig =>
          match createMutators c with
          | (_, _, Some err) => inl (wrapError "failed to create mutators: " err)
          | (mutators, resolveTokenMutators, None) =>
              match createValidators c with
              | (_, _, Some err) =>
                  inl (wrapError "failed to create validators: " err)
              | (validators, resolveTokenValidators, None) =>
                  let resolveToken :=
                    if resolveTokenMutators || resolveTokenValidators then true
                    else false in
                  let bind := Bind c +:+ ":" +:+ pretty (Port c) in
                  let tlsConfig : error + option TlsConfig :=
                    match ServerTls c with
                    | Some tls =>
                        if negb (String.eqb (CaFile tls) "") then
                          match createTlsConfig (CaFile tls) (NoClientCert tls) with
                          | inl err => inl err
                          | inr cfg => inr (Some cfg)
                          end
                        else inr None
                    | None => inr None
                    end in
                  match tlsConfig with
                  | inl err => inl (wrapError "failed to create tls config: " err)
                  | inr tlsConfig =>
                      inr {| Addr := bind; Backend := backend;
                             NomadTlsConfig := nomadTlsConfig;
                             TLSConfig := tlsConfig;
                             jobMutators := mutators;
                             jobValidators := validators;
                             resolveToken := resolveToken |}
                  end
              end
          end
      end
  end.

End Build.

End startup.

(** ** The job names the update route takes, decided directly *)
Module routes.

Definition is_letter (c : ascii) : bool :=
  regexp.in_class c classifier_spec.letters.

Definition is_tail_char (c : ascii) : bool :=
  regexp.in_class c classifier_spec.tail_chars.

Fixpoint skip_letters (s : list ascii) : list ascii :=
  match s with
  | c :: s' => if is_letter c then skip_letters s' else s
  | [] => []
  end.

(** A letter, more letters, then lower-case letters, digits, dashes
    and the letter Z only. *)
Definition job_name_ok (name : list ascii) : bool :=
  match name with
  | c :: rest => is_letter c && forallb is_tail_char (skip_letters rest)
  | [] => false
  end.

End routes.

(** ** More sample pipelines and upstreams *)
Module more_examples.

Import nacp.

(** A pipeline that accepts every job without a word. *)
Definition quiet_pipeline : admissionctrl.JobHandler :=
  {| admissionctrl.ResolveToken := true;
     admissionctrl.ApplyAdmissionControllers := fun p => (types.Job p, [], None);
     admissionctrl.AdmissionMutators := fun p => (types.Job p, [], None);
     admissionctrl.AdmissionValidators := fun p => ([], None) |}.

(** An upstream that refuses every request with a plain-text body. *)
Definition forbidding_upstream : RoundTripper :=
  fun req =>
    inr {| Status := "403 Forbidden"; StatusCode := 403; RespHeader := ∅;
           ContentLength := 17; Body := "Permission denied"; RespRequest := req |}.

(** A pipeline whose validator fails with an error that is not a
    multi-error. *)
Definition broken_validator_pipeline : admissionctrl.JobHandler :=
  {| admissionctrl.ResolveToken := false;
     admissionctrl.ApplyAdmissionControllers :=
       fun p => (None, [], Some (errorString "connection refused"));
     admissionctrl.AdmissionMutators := fun p => (types.Job p, [], None);
     admissionctrl.AdmissionValidators :=
       fun p => ([], Some (errorString "connection refused")) |}.

Definition token_request : Request :=
  examples.request "GET" "/v1/jobs" (<["X-Nomad-Token" := "secret"]> ∅) JNull.

(** A validate request on which the pipeline left one warning and no
    error, and the verdict the upstream returns for it. *)
Definition warned_validate_request : Request :=
  WithContext examples.validate_request
    (WithValue_ctxWarnings (WithValue_ctxValidationError Background None)
                           [errorString "cpu low"]).

Definition verdict : api.JobValidateResponse :=
  {| api.DriverConfigValidated := true;
     api.ValidationErrors := Some ["missing datacenter"];
     api.Error := "1 error occurred"; api.ValidateWarnings := "deprecated" |}.

Definition validate_reply : Response :=
  examples.reply warned_validate_request ∅
    (sample.print (api.JobValidateResponse_to_json verdict)).

End more_examples.

(** ** Texts without a given character, and sample configurations *)
Module texts.

Definition free_of (chars : string) (s : string) : bool :=
  forallb (fun c => negb (existsb (Ascii.eqb c) (list_ascii_of_string chars)))
          (list_ascii_of_string s).

End texts.

Module sample_config.

Import startup.

Definition parse_any : string -> error + string := fun s => inr s.

Definition no_file_string : string -> error + unit :=
  fun _ => inl (errorString "no such file").
Definition no_verifier : unit -> NotationVerifierConfig -> error + unit :=
  fun _ _ => inl (errorString "no trust store").
Definition opa_stage : string -> string -> string -> option unit -> error + string :=
  fun name _ _ _ => inr name.
Definition notation_stage : string -> unit -> string := fun name _ => name.
Definition no_nomad_tls : NomadServerTLS -> error + unit :=
  fun _ => inl (errorString "no such file").
Definition no_tls : string -> bool -> error + unit :=
  fun _ _ => inl (errorString "no such file").

Definition rule : OpaRule :=
  {| Filename := "rules.rego"; Query := "errors = data.rules.errors";
     RuleNotation := None |}.
Definition hook : Webhook :=
  {| Endpoint := "http://hooks.local/stage"; Method := "POST" |}.

Definition patcher : Mutator :=
  {| MutatorName := "patcher"; MutatorType := "json_patch_webhook";
     MutatorResolveToken := false; MutatorOpaRule := rule; MutatorWebhook := hook |}.
Definition policy : Mutator :=
  {| MutatorName := "policy"; MutatorType := "opa_json_patch";
     MutatorResolveToken := true; MutatorOpaRule := rule; MutatorWebhook := hook |}.
Definition checker : Validator :=
  {| ValidatorName := "checker"; ValidatorType := "webhook";
     ValidatorResolveToken := false; ValidatorOpaRule := rule;
     ValidatorWebhook := hook; ValidatorNotation := None |}.
Definition opa_checker : Validator :=
  {| ValidatorName := "opa"; ValidatorType := "opa";
     ValidatorResolveToken := false; ValidatorOpaRule := rule;
     ValidatorWebhook := hook; ValidatorNotation := None |}.

Definition config : Config :=
  {| Bind := "0.0.0.0"; Port := 6464; NomadAddress := "http://localhost:4646";
     NomadTLS := None; ServerTls := None;
     Mutators := [patcher; policy]; Validators := [checker; opa_checker] |}.

End sample_config.

(** ** How a stage relates to the entry it was built from *)
Module built.

Import startup.

Definition known_mutator_type (m : Mutator) : bool :=
  String.eqb (MutatorType m) "opa_json_patch"
  || String.eqb (MutatorType m) "json_patch_webhook".

Definition known_validator_type (v : Validator) : bool :=
  String.eqb (ValidatorType v) "opa" || String.eqb (ValidatorType v) "webhook"
  || String.eqb (ValidatorType v) "notation".

(** An entry of type [notation] that has no notation settings. *)
Definition notation_unconfigured (v : Validator) : bool :=
  String.eqb (ValidatorType v) "notation"
  && match ValidatorNotation v with None => true | Some _ => false end.

Definition mutator_from {OpaMutator : Type} (m : Mutator)
    (stage : JobMutator OpaMutator) : Prop :=
  match stage with
  | OpaJsonPatchStage _ _ => MutatorType m = "opa_json_patch"
  | JsonPatchWebhookStage _ w =>
      MutatorType m = "json_patch_webhook"
      /\ mutator.name w = MutatorName m
      /\ mutator.method w = Method (MutatorWebhook m)
  end.

Definition validator_from {OpaValidator NotationValidator : Type} (v : Validator)
    (stage : JobValidator OpaValidator NotationValidator) : Prop :=
  match stage with
  | OpaStage _ _ _ => ValidatorType v = "opa"
  | WebhookStage _ _ w =>
      ValidatorType v = "webhook"
      /\ validator.name w = ValidatorName v
      /\ validator.method w = Method (ValidatorWebhook v)
  | NotationStage _ _ _ =>
      ValidatorType v = "notation" /\ ValidatorNotation v <> None
  end.

End built.

(** ** What the further properties say of a response *)
Module more_properties.

Import nacp.

Definition bad_gateway : ClientResponse :=
  {| client_status := StatusBadGateway; client_header := ∅; client_body := "" |}.

(** What the three ways of leaving a response handler keep. *)
Definition kept (resp resp' : Response) : Prop :=
  Status resp' = Status resp /\ StatusCode resp' = StatusCode resp
  /\ RespRequest resp' = RespRequest resp
  /\ forall key, key <> "Content-Length" -> RespHeader resp' !! key = RespHeader resp !! key.

Definition length_announced (resp' : Response) : Prop :=
  ContentLength resp' = Z.of_nat (String.length (Body resp'))
  /\ RespHeader resp' !! "Content-Length" = Some (pretty (String.length (Body resp'))).

End more_properties.

(** ** What the properties below say of a rewritten response *)
Module properties.

Import nacp.

(** [resp'] carries [data] as a gzip stream, announces the length of
    that stream, and is still marked as gzip-encoded. *)
Definition gzip_rewritten (G : gzip.Codec) (data : string) (resp' : Response) : Prop :=
  Body resp' = gzip.compress G data
  /\ gzip.decompress G (Body resp') = Some data
  /\ RespHeader resp' !! "Content-Length" = Some (pretty (String.length (Body resp')))
  /\ ContentLength resp' = Z.of_nat (String.length (Body resp'))
  /\ Header_Get (RespHeader resp') "Content-Encoding" = "gzip".

(** The context a request gets when no token was resolved. *)
Definition unresolved (r : Request) : config.RequestContext :=
  {| config.ClientIP := getClientIP r; config.AccessorID := "";
     config.TokenInfo := None |}.

End properties.

(** * Properties *)

Import nacp.

Create HintDb regexp_db.

(** ** Auxiliary facts *)

Lemma length_pos_ne {A : Type} (l : list A) : l <> [] -> (0 <? length l)%nat = true.
Proof. destruct l; [congruence | reflexivity]. Qed.


Lemma fold_snoc_map {A B : Type} (f : A -> B) (l : list A) (acc : list B) :
  fold_left (fun acc x => acc ++ [f x]) l acc = acc ++ List.map f l.
Proof.
  revert acc. induction l as [|x l IH]; intros acc; simpl.
  - by rewrite app_nil_r.
  - rewrite IH, <- app_assoc. reflexivity.
Qed.

Lemma append_each_errors (es : list string) (acc : list error) :
  fold_left (fun oneError e => multierror.Append (Some oneError) [fmt.Errorf_v e])
            es (multiError acc)
  = multiError (acc ++ List.map fmt.Errorf_v es).
Proof.
  revert acc. induction es as [|e es IH]; intros acc; simpl.
  - by rewrite app_nil_r.
  - rewrite IH, <- app_assoc. reflexivity.
Qed.

(** ** C6: the merged warning string *)



(** X21. On a response that is not gzip-encoded, with warnings stored
    on the context, the Register and the Plan handler do the same:
    they replace [Warnings] by the string [buildFullWarningMsg] makes
    of the upstream's warnings and the stored ones, re-encode the
    response and write it uncompressed. *)
Lemma response_handlers_merge_warnings
    (T : json.Text) (G : gzip.Codec) (resp : Response)
    (warnings : list error) (response : api.JobResponse) :
  Header_Get (RespHeader resp) "Content-Encoding" <> "gzip" ->
  ctxWarnings (Ctx (RespRequest resp)) = Some warnings ->
  Decode T api.JobResponse_of_json (Body resp) = inr response ->
  let data :=
    json.marshal T
      (api.JobResponse_to_json
         {| api.Warnings := buildFullWarningMsg (api.Warnings response) warnings;
            api.ResponseOther := api.ResponseOther response |}) in
  handRegisterResponse T G resp = (rewriteResponse resp data, None)
  /\ handleJobPlanResponse T G resp = (rewriteResponse resp data, None).
Proof.
  intros Henc Hws Hdec data.
  apply String.eqb_neq in Henc.
  unfold handRegisterResponse, handleJobPlanResponse, warnings_value,
    checkIfGzipAndTransformReader.
  rewrite Hws, Henc, Hdec. split; reflexivity.
Qed.

Lemma response_handlers_merge_warnings_witness :
  let resp :=
    examples.reply examples.warned_request ∅
      (sample.print (JObject [("Warnings", JString "existing")])) in
  let data :=
    sample.print
      (JObject [("Warnings",
                 JString ("2 warning(s):" +:+ LF +:+ LF +:+ "* existing"
                          +:+ LF +:+ "* w1"))]) in
  handRegisterResponse sample.text sample.codec resp = (rewriteResponse resp data, None)
  /\ handleJobPlanResponse sample.text sample.codec resp
     = (rewriteResponse resp data, None).
Proof.
  apply (response_handlers_merge_warnings sample.text sample.codec
           (examples.reply examples.warned_request ∅
              (sample.print (JObject [("Warnings", JString "existing")])))
           [errorString "w1"]
           {| api.Warnings := "existing"; api.ResponseOther := [] |});
    [vm_compute; discriminate | reflexivity | reflexivity].
Defined.

(** The scenario of a register request with one local warning and an
    upstream warning: the client reads both, the upstream's first. *)
Lemma register_with_warning_scenario :
  snd (ProxyHandler sample.text sample.codec examples.warning_upstream
         examples.cautious_pipeline
         (examples.request "POST" "/v1/jobs" ∅ examples.envelope))
  = Returns
      {| client_status := 200;
         client_header := <["Content-Length" := "53"]> ∅;
         client_body :=
           sample.print
             (JObject [("Warnings",
                        JString ("2 warning(s):" +:+ LF +:+ LF +:+ "* existing"
                                 +:+ LF +:+ "* cpu low"))]) |}.
Proof. vm_compute. reflexivity. Qed.

(** ** C9: a rejecting webhook validator *)

(** C9. When the reply of the webhook lists errors, [Validate] returns
    no warnings and one multi-error that holds one entry per listed
    error, in the order of the reply; the warnings of the reply are not
    returned. *)
Theorem Validate_errors_aggregated
    (client : http.WebhookClient) (w : validator.WebhookValidator)
    (payload : types.Payload) (job : api.Job) (req : http.WebhookRequest)
    (body : option value) (reply : validator.validationWebhookResponse) :
  types.Job payload = Some job ->
  http.NewRequest (validator.method w) (validator.endpoint w)
                  (types.Payload_to_json payload) = inr req ->
  client (http.add_context_headers (types.Context payload) req) = inr body ->
  validator.decode_response body = Some reply ->
  validator.Errors reply <> [] ->
  validator.Validate client w payload
  = Returns ([], Some (multiError (List.map errorString (validator.Errors reply)))).
Proof.
  intros Hjob Hreq Hdo Hdec Herrs.
  unfold validator.Validate. rewrite Hreq, Hdo, Hdec, Hjob.
  rewrite (length_pos_ne _ Herrs).
  rewrite append_each_errors. reflexivity.
Qed.

Lemma Validate_errors_aggregated_witness :
  validator.Validate examples.rejecting_webhook examples.webhook_validator
                     examples.payload
  = Returns ([], Some (multiError [errorString "first"; errorString "second"])).
Proof.
  apply (Validate_errors_aggregated
           examples.rejecting_webhook examples.webhook_validator examples.payload
           examples.app
           {| http.wh_method := "POST"; http.wh_url := "http://hooks.local/validate";
              http.wh_header := ∅;
              http.wh_body := types.Payload_to_json examples.payload |}
           (Some (JObject [("errors", JArray [JString "first"; JString "second"]);
                           ("warnings", JArray [JString "ignored"])]))
           {| validator.Errors := ["first"; "second"];
              validator.Warnings := ["ignored"] |});
    [reflexivity | reflexivity | reflexivity | reflexivity | discriminate].
Defined.

(** ** C10: responses without stored warnings *)

(** C10. On the Register and Plan routes, when the request's context
    holds no warnings the response modifier returns the response as it
    received it, body unread: the proxy hands the upstream's bytes,
    [Content-Encoding] and [Content-Length] to the client. *)
Theorem no_warnings_response_untouched
    (T : json.Text) (G : gzip.Codec) (transport : RoundTripper)
    (r : Request) (res : Response) :
  isRegister r = true \/ isPlan r = true ->
  ctxWarnings (Ctx r) = None ->
  (RespRequest res = r ->
   handRegisterResponse T G res = (res, None)
   /\ handleJobPlanResponse T G res = (res, None)
   /\ ModifyResponse T G res = ([], Returns (res, None)))
  /\ (transport r = inr res ->
      ServeHTTP T G transport r
      = ([UpstreamCall r],
         Returns {| client_status := StatusCode res;
                    client_header := RespHeader res;
                    client_body := Body res |})).
Proof.
  intros Hroute Hnone.
  assert (Hreg : forall res', RespRequest res' = r ->
                              handRegisterResponse T G res' = (res', None)).
  { intros res' Hr. unfold handRegisterResponse, warnings_value.
    rewrite Hr, Hnone. reflexivity. }
  assert (Hplan : forall res', RespRequest res' = r ->
                               handleJobPlanResponse T G res' = (res', None)).
  { intros res' Hr. unfold handleJobPlanResponse, warnings_value.
    rewrite Hr, Hnone. reflexivity. }
  assert (Hmod : forall res', RespRequest res' = r ->
                              ModifyResponse T G res' = ([], Returns (res', None))).
  { intros res' Hr. unfold ModifyResponse. rewrite Hr.
    destruct (isRegister r) eqn:Hreg'.
    - rewrite (Hreg res' Hr). reflexivity.
    - destruct Hroute as [Habs | Hp]; [discriminate |].
      rewrite Hp, (Hplan res' Hr). reflexivity. }
  split.
  - intros Hr. auto.
  - intros Hrt. unfold ServeHTTP. rewrite Hrt.
    rewrite Hmod by reflexivity. reflexivity.
Qed.

Lemma no_warnings_response_untouched_witness :
  ServeHTTP sample.text sample.codec
            (fun req => inr examples.plain_reply)
            (examples.request "PUT" "/v1/jobs" ∅ examples.envelope)
  = ([UpstreamCall (examples.request "PUT" "/v1/jobs" ∅ examples.envelope)],
     Returns {| client_status := 200; client_header := ∅;
                client_body := Body examples.plain_reply |}).
Proof.
  apply (no_warnings_response_untouched
           sample.text sample.codec (fun req => inr examples.plain_reply)
           (examples.request "PUT" "/v1/jobs" ∅ examples.envelope)
           examples.plain_reply);
    [left; reflexivity | reflexivity | reflexivity].
Defined.

(** ** C5: the route classifier *)

(** [MatchString] decides [matches]: derivatives are correct. *)
Section Derivatives.

Import regexp.

#[local] Hint Constructors matches : regexp_db.

Lemma concat_inv (r1 r2 : Regexp) (s : list ascii) :
  matches (Concat r1 r2) s ->
  exists s1 s2, s = s1 ++ s2 /\ matches r1 s1 /\ matches r2 s2.
Proof. intros H. inversion H; subst. eauto. Qed.

Lemma plus_inv (r : Regexp) (s : list ascii) :
  matches (Plus r) s ->
  exists s1 s2, s = s1 ++ s2 /\ matches r s1 /\ matches (Star r) s2.
Proof. intros H. inversion H; subst. eauto. Qed.

Lemma alternate_inv (r1 r2 : Regexp) (s : list ascii) :
  matches (Alternate r1 r2) s -> matches r1 s \/ matches r2 s.
Proof. intros H. inversion H; subst; auto. Qed.

Lemma class_inv (items : list class_item) (s : list ascii) :
  matches (CharClass items) s -> exists c, s = [c] /\ in_class c items = true.
Proof. intros H. inversion H; subst. eauto. Qed.

Lemma literal_inv (a : ascii) (s : list ascii) :
  matches (Literal a) s -> s = [a].
Proof. intros H. inversion H; subst. reflexivity. Qed.

Lemma star_cons_inv (r : Regexp) (c : ascii) (s : list ascii) :
  matches (Star r) (c :: s) ->
  exists s1 s2, s = s1 ++ s2 /\ matches r (c :: s1) /\ matches (Star r) s2.
Proof.
  intros H. remember (Star r) as r' eqn:Hr. remember (c :: s) as t eqn:Ht.
  revert c s Ht.
  induction H as [| | | | | | | |r0 s1 s2 H1 _ H2 IH2|]; intros c0 s0 Ht;
    try discriminate.
  injection Hr as ->.
  destruct s1 as [|c1 s1].
  - cbn in Ht. apply IH2; auto.
  - cbn in Ht. injection Ht as -> <-. eauto.
Qed.

Lemma nullable_matches (r : Regexp) : nullable r = true <-> matches r [].
Proof.
  induction r as [| | |a|items|r1 IH1 r2 IH2|r1 IH1 r2 IH2|r IH|r IH]; cbn.
  - split; [discriminate | intros H; inversion H].
  - split; [constructor | reflexivity].
  - split; [discriminate | intros H; inversion H].
  - split; [discriminate | intros H; inversion H].
  - split; [discriminate | intros H; inversion H].
  - rewrite andb_true_iff, IH1, IH2. split.
    + intros [H1 H2]. change (@nil ascii) with (@nil ascii ++ []). constructor; assumption.
    + intros H. apply concat_inv in H as (s1 & s2 & Heq & H1 & H2).
      symmetry in Heq. apply app_eq_nil in Heq as [-> ->]. auto.
  - rewrite orb_true_iff, IH1, IH2. split.
    + intros [H | H]; auto with regexp_db.
    + apply alternate_inv.
  - split; [constructor | reflexivity].
  - rewrite IH. split.
    + intros H. change (@nil ascii) with (@nil ascii ++ []). constructor; [assumption | constructor].
    + intros H. apply plus_inv in H as (s1 & s2 & Heq & H1 & H2).
      symmetry in Heq. apply app_eq_nil in Heq as [-> ->]. assumption.
Qed.

Lemma deriv_concat (r1 r2 : Regexp) (c : ascii) (s : list ascii) :
  (forall s, matches (deriv c r1) s <-> matches r1 (c :: s)) ->
  (forall s, matches (deriv c r2) s <-> matches r2 (c :: s)) ->
  matches (Concat (deriv c r1) r2) s \/ (matches r1 [] /\ matches (deriv c r2) s)
  <-> matches (Concat r1 r2) (c :: s).
Proof.
  intros IH1 IH2. split.
  - intros [H | [Hn H]].
    + apply concat_inv in H as (s1 & s2 & -> & H1 & H2).
      apply IH1 in H1. change (c :: s1 ++ s2) with ((c :: s1) ++ s2).
      constructor; assumption.
    + apply IH2 in H. change (c :: s) with ([] ++ c :: s). constructor; assumption.
  - intros H. apply concat_inv in H as (s1 & s2 & Heq & H1 & H2).
    destruct s1 as [|c1 s1]; cbn in Heq.
    + subst s2. right. split; [assumption | apply IH2; assumption].
    + injection Heq as <- ->. left. constructor; [apply IH1 |]; assumption.
Qed.

Lemma deriv_matches (r : Regexp) (c : ascii) (s : list ascii) :
  matches (deriv c r) s <-> matches r (c :: s).
Proof.
  revert s.
  induction r as [| | |a|items|r1 IH1 r2 IH2|r1 IH1 r2 IH2|r IH|r IH]; intros s; cbn.
  - split; intros H; inversion H.
  - split; intros H; inversion H.
  - split; intros H; inversion H; subst; constructor.
  - destruct (Ascii.eqb c a) eqn:Hc.
    + apply Ascii.eqb_eq in Hc as ->.
      split; intros H; inversion H; subst; constructor.
    + apply Ascii.eqb_neq in Hc.
      split; intros H; inversion H; subst; congruence.
  - destruct (in_class c items) eqn:Hc.
    + split; intros H; inversion H; subst; constructor; assumption.
    + split; intros H; inversion H; subst; congruence.
  - rewrite <- (deriv_concat r1 r2 c s IH1 IH2), <- nullable_matches.
    destruct (nullable r1).
    + split.
      * intros H. apply alternate_inv in H as [H | H]; auto.
      * intros [H | [_ H]]; auto with regexp_db.
    + split; [auto |]. intros [H | [Hn _]]; [assumption | discriminate].
  - split.
    + intros H. apply alternate_inv in H as [H | H];
        [apply matches_left, IH1 | apply matches_right, IH2]; assumption.
    + intros H. apply alternate_inv in H as [H | H];
        [apply matches_left, IH1 | apply matches_right, IH2]; assumption.
  - split.
    + intros H. apply concat_inv in H as (s1 & s2 & -> & H1 & H2).
      apply IH in H1. change (c :: s1 ++ s2) with ((c :: s1) ++ s2).
      constructor; assumption.
    + intros H. apply star_cons_inv in H as (s1 & s2 & -> & H1 & H2).
      constructor; [apply IH |]; assumption.
  - split.
    + intros H. apply concat_inv in H as (s1 & s2 & -> & H1 & H2).
      apply IH in H1. change (c :: s1 ++ s2) with ((c :: s1) ++ s2).
      constructor; assumption.
    + intros H. apply plus_inv in H as (s1 & s2 & Heq & H1 & H2).
      destruct s1 as [|c1 s1]; cbn in Heq.
      * subst s2. apply star_cons_inv in H2 as (s1 & s2' & -> & H1' & H2').
        constructor; [apply IH |]; assumption.
      * injection Heq as <- ->. constructor; [apply IH |]; assumption.
Qed.

Lemma fold_deriv_matches (s : list ascii) (r : Regexp) :
  nullable (fold_left (fun r c => deriv c r) s r) = true <-> matches r s.
Proof.
  revert r. induction s as [|c s IH]; intros r; cbn.
  - apply nullable_matches.
  - rewrite IH. apply deriv_matches.
Qed.

Lemma full_match_matches (r : Regexp) (s : string) :
  full_match r s = true <-> matches r (list_ascii_of_string s).
Proof. apply fold_deriv_matches. Qed.

Lemma star_app (r : Regexp) (s1 s2 : list ascii) :
  matches (Star r) s1 -> matches (Star r) s2 -> matches (Star r) (s1 ++ s2).
Proof.
  intros H1 H2. remember (Star r) as r' eqn:Hr.
  induction H1 as [| | | | | | | |r0 t1 t2 Ht1 _ Ht2 IH|]; try discriminate.
  - exact H2.
  - injection Hr as ->. rewrite <- app_assoc. constructor; auto.
Qed.

Lemma star_class_mono (A B : list class_item) (s : list ascii) :
  (forall c, in_class c A = true -> in_class c B = true) ->
  matches (Star (CharClass A)) s -> matches (Star (CharClass B)) s.
Proof.
  intros Hsub H. remember (Star (CharClass A)) as r' eqn:Hr.
  induction H as [| | | | | | | |r0 t1 t2 Ht1 _ Ht2 IH|]; try discriminate.
  - constructor.
  - injection Hr as ->. apply class_inv in Ht1 as (c & -> & Hc).
    constructor; [constructor; auto | auto].
Qed.

Lemma literals_matches (p : string) (r : Regexp) (s : list ascii) :
  matches (literals p r) s
  <-> exists s', s = list_ascii_of_string p ++ s' /\ matches r s'.
Proof.
  unfold literals. revert s.
  induction (list_ascii_of_string p) as [|a l IH]; intros s; cbn.
  - split; [eauto | intros (s' & -> & H); exact H].
  - split.
    + intros H. apply concat_inv in H as (s1 & s2 & -> & H1 & H2).
      apply literal_inv in H1 as ->. apply IH in H2 as (s' & -> & H2). eauto.
    + intros (s' & -> & H). change (a :: l ++ s') with ([a] ++ (l ++ s')).
      constructor; [constructor | apply IH; eauto].
Qed.

(** The name part of the code's patterns matches no more than the one
    of the specification's. *)
Lemma letters_first (c : ascii) : in_class c classifier_spec.letters = true -> in_class c classifier_spec.spec_first = true.
Proof. destruct c as [[] [] [] [] [] [] [] []]; vm_compute; auto. Qed.
Lemma letters_rest (c : ascii) : in_class c classifier_spec.letters = true -> in_class c classifier_spec.spec_rest = true.
Proof. destruct c as [[] [] [] [] [] [] [] []]; vm_compute; auto. Qed.
Lemma tail_rest (c : ascii) : in_class c classifier_spec.tail_chars = true -> in_class c classifier_spec.spec_rest = true.
Proof. destruct c as [[] [] [] [] [] [] [] []]; vm_compute; auto. Qed.

Lemma name_inclusion (rest : Regexp) (s : list ascii) :
  matches (Concat (Plus (CharClass classifier_spec.letters)) (Concat (Star (CharClass classifier_spec.tail_chars)) rest)) s ->
  matches (Concat (CharClass classifier_spec.spec_first) (Concat (Star (CharClass classifier_spec.spec_rest)) rest)) s.
Proof.
  intros H.
  apply concat_inv in H as (s1 & s2 & -> & Hplus & Htail).
  apply plus_inv in Hplus as (a & b & -> & Ha & Hb).
  apply concat_inv in Htail as (t & u & -> & Ht & Hu).
  apply class_inv in Ha as (c & -> & Hc).
  replace (([c] ++ b) ++ t ++ u) with ([c] ++ ((b ++ t) ++ u))
    by (rewrite <- !app_assoc; reflexivity).
  constructor; [constructor; apply letters_first; exact Hc |].
  constructor; [| exact Hu].
  apply star_app.
  - apply (star_class_mono classifier_spec.letters); [apply letters_rest | exact Hb].
  - apply (star_class_mono classifier_spec.tail_chars); [apply tail_rest | exact Ht].
Qed.

Lemma jobPathRegex_inclusion (path : string) :
  MatchString jobPathRegex path = true ->
  MatchString classifier_spec.jobPathRegex path = true.
Proof.
  change (MatchString jobPathRegex path)
    with (full_match (literals "/v1/job/"
                        (Concat (Plus (CharClass classifier_spec.letters))
                                (Concat (Star (CharClass classifier_spec.tail_chars)) EmptyMatch))) path).
  change (MatchString classifier_spec.jobPathRegex path)
    with (full_match (literals "/v1/job/"
                        (Concat (CharClass classifier_spec.spec_first)
                                (Concat (Star (CharClass classifier_spec.spec_rest)) EmptyMatch))) path).
  rewrite !full_match_matches, !literals_matches.
  intros (s' & Heq & H). exists s'. split; [exact Heq | apply name_inclusion; exact H].
Qed.

Lemma jobPlanPathRegex_inclusion (path : string) :
  MatchString jobPlanPathRegex path = true ->
  MatchString classifier_spec.jobPlanPathRegex path = true.
Proof.
  change (MatchString jobPlanPathRegex path)
    with (full_match (literals "/v1/job/"
                        (Concat (Plus (CharClass classifier_spec.letters))
                                (Concat (Star (CharClass classifier_spec.tail_chars))
                                        (literals "/plan" EmptyMatch)))) path).
  change (MatchString classifier_spec.jobPlanPathRegex path)
    with (full_match (literals "/v1/job/"
                        (Concat (CharClass classifier_spec.spec_first)
                                (Concat (Star (CharClass classifier_spec.spec_rest))
                                        (literals "/plan" EmptyMatch)))) path).
  rewrite !full_match_matches, !literals_matches.
  intros (s' & Heq & H). exists s'. split; [exact Heq | apply name_inclusion; exact H].
Qed.

(** Whatever the code classifies as Register or Plan is so by the
    rules of the specification; the converse fails, as shown next. *)
Lemma classifier_within_spec (r : Request) :
  (isRegister r = true -> classifier_spec.Register (Method r) (Path r) = true)
  /\ (isPlan r = true -> classifier_spec.Plan (Method r) (Path r) = true).
Proof.
  unfold isRegister, isCreate, isUpdate, isPlan, is_put_or_post,
    classifier_spec.Register, classifier_spec.Plan, classifier_spec.put_or_post.
  destruct (String.eqb (Method r) "PUT" || String.eqb (Method r) "POST"); cbn;
    [| split; discriminate].
  split.
  - intros H. apply orb_true_iff in H as [H | H].
    + rewrite H. reflexivity.
    + rewrite (jobPathRegex_inclusion _ H). apply orb_true_r.
  - apply jobPlanPathRegex_inclusion.
Qed.

End Derivatives.

(** C5. The classifier and the rules of the specification disagree: a
    PUT of the job [a1B] (a letter, then a digit, then an upper-case
    letter) is neither Register nor Plan for the code, although the
    rules make it Register, and its plan request Plan.  The bracket
    expression that follows the first letters was compiled to the
    lower-case letters, the digits, the dash and the single letter Z. *)
Theorem classifier_misses_uppercase_after_digit :
  isRegister (examples.request "PUT" "/v1/job/my-app-2" ∅ examples.envelope) = true
  /\ isRegister (examples.request "PUT" "/v1/job/a1B" ∅ examples.envelope) = false
  /\ classifier_spec.Register "PUT" "/v1/job/a1B" = true
  /\ isPlan (examples.request "PUT" "/v1/job/a1B/plan" ∅ examples.envelope) = false
  /\ classifier_spec.Plan "PUT" "/v1/job/a1B/plan" = true
  /\ regexp.Compile "[a-z-Z0-9\-]"
     = Some {| regexp.begin_text := false; regexp.end_text := false;
               regexp.body :=
                 regexp.Concat
                   (regexp.CharClass
                      [regexp.Range "a" "z"; regexp.Single "-"; regexp.Single "Z";
                       regexp.Range "0" "9"; regexp.Single "-"])
                   regexp.EmptyMatch |}.
Proof. repeat split; vm_compute; reflexivity. Qed.

(** ** C2: the JSON-Patch webhook mutator *)

(** C2. [Mutate] applies the patch to the encoding of the whole
    payload, the object that holds the job under [job]: for the job
    with ID [app] and the patch that adds [/Meta], the member lands
    beside the job, and the job decoded from the result has the new
    [Meta] but no ID. *)
Theorem Mutate_patches_payload_document :
  mutator.Mutate examples.patching_webhook examples.webhook_mutator examples.payload
  = Returns (Some {| api.ID := None; api.Meta := Some {["foo" := "bar"]} |}, [], None)
  /\ jsonpatch.Apply [[("op", JString "add"); ("path", JString "/Meta");
                       ("value", JObject [("foo", JString "bar")])]]
                     (types.Payload_to_json examples.payload)
     = Some (JObject [("job", JObject [("ID", JString "app"); ("Meta", JNull)]);
                      ("Meta", JObject [("foo", JString "bar")])])
  /\ option_map api.Job_of_json
       (jsonpatch.Apply [[("op", JString "add"); ("path", JString "/Meta");
                          ("value", JObject [("foo", JString "bar")])]]
                        (api.Job_to_json examples.app))
     = Some (Some {| api.ID := Some "app"; api.Meta := Some {["foo" := "bar"]} |}).
Proof. repeat split; vm_compute; reflexivity. Qed.

(** Whatever the job of the payload is, the job returned for that
    patch has no ID. *)
Lemma Mutate_add_meta_drops_ID (j : api.Job) (ctx : option config.RequestContext) :
  exists patched,
    mutator.Mutate examples.patching_webhook examples.webhook_mutator
                   {| types.Job := Some j; types.Context := ctx |}
    = Returns (Some patched, [], None)
    /\ api.ID patched = None.
Proof.
  eexists. split.
  - unfold mutator.Mutate. cbn. destruct ctx; cbn; reflexivity.
  - reflexivity.
Qed.

(** ** C1: the order of the warnings on the Validate route *)

Lemma handleValidate_forwarded
    (T : json.Text) (r : Request) (jobHandler : admissionctrl.JobHandler)
    (q : api.JobRequest) (job : option api.Job)
    (mutateWarnings validateWarnings : list error) (err : option error) :
  Decode T api.JobRequest_of_json (ReqBody r) = inr q ->
  admissionctrl.AdmissionMutators jobHandler
    {| types.Job := api.ReqJob q; types.Context := request_context (Ctx r) |}
    = (job, mutateWarnings, None) ->
  admissionctrl.AdmissionValidators jobHandler
    {| types.Job := job; types.Context := request_context (Ctx r) |}
    = (validateWarnings, err) ->
  handleValidate T r jobHandler
  = (rewriteRequest
       (WithContext r
          (let ctx := WithValue_ctxValidationError (Ctx r) err in
           if (0 <? length (validateWarnings ++ mutateWarnings))%nat
           then WithValue_ctxWarnings ctx (validateWarnings ++ mutateWarnings)
           else ctx))
       (json.marshal T
          (api.JobRequest_to_json
             {| api.ReqJob := job; api.RequestOther := api.RequestOther q |})),
     None).
Proof.
  intros Hdec Hmut Hval.
  unfold handleValidate. rewrite Hdec. cbn. rewrite Hmut. cbn. rewrite Hval.
  reflexivity.
Qed.

(** C1 (as the code has it). On the Validate route, when the mutator
    phase and the validator phase each produce at least one warning,
    the list stored under [ctxWarnings] is the validator warnings, in
    their order, followed by the mutator warnings, in their order. *)
Theorem handleValidate_warnings_validators_first
    (T : json.Text) (r : Request) (jobHandler : admissionctrl.JobHandler)
    (q : api.JobRequest) (job : option api.Job)
    (mutateWarnings validateWarnings : list error) (err : option error) :
  Decode T api.JobRequest_of_json (ReqBody r) = inr q ->
  admissionctrl.AdmissionMutators jobHandler
    {| types.Job := api.ReqJob q; types.Context := request_context (Ctx r) |}
    = (job, mutateWarnings, None) ->
  admissionctrl.AdmissionValidators jobHandler
    {| types.Job := job; types.Context := request_context (Ctx r) |}
    = (validateWarnings, err) ->
  mutateWarnings <> [] ->
  validateWarnings <> [] ->
  ctxWarnings (Ctx (fst (handleValidate T r jobHandler)))
  = Some (validateWarnings ++ mutateWarnings).
Proof.
  intros Hdec Hmut Hval Hm Hv.
  rewrite (handleValidate_forwarded T r jobHandler q job _ _ err Hdec Hmut Hval).
  rewrite length_pos_ne; [reflexivity |].
  destruct validateWarnings; [congruence | discriminate].
Qed.

Lemma handleValidate_warnings_validators_first_witness :
  ctxWarnings (Ctx (fst (handleValidate sample.text examples.validate_request
                                        examples.warning_pipeline)))
  = Some [errorString "from the validator"; errorString "from the mutator"].
Proof.
  apply (handleValidate_warnings_validators_first
           sample.text examples.validate_request examples.warning_pipeline
           {| api.ReqJob := Some examples.app; api.RequestOther := [] |}
           (Some examples.app)
           [errorString "from the mutator"] [errorString "from the validator"] None);
    [vm_compute; reflexivity | reflexivity | reflexivity | discriminate | discriminate].
Defined.

(** C1 (as the specification has it) fails: with one warning from each
    phase the stored list starts with the validator's warning, not with
    the mutator's. *)
Lemma handleValidate_warnings_not_mutators_first :
  admissionctrl.AdmissionMutators examples.warning_pipeline
    {| types.Job := Some examples.app; types.Context := None |}
  = (Some examples.app, [errorString "from the mutator"], None)
  /\ admissionctrl.AdmissionValidators examples.warning_pipeline
       {| types.Job := Some examples.app; types.Context := None |}
     = ([errorString "from the validator"], None)
  /\ ctxWarnings (Ctx (fst (handleValidate sample.text examples.validate_request
                                           examples.warning_pipeline)))
     = Some [errorString "from the validator"; errorString "from the mutator"]
  /\ ctxWarnings (Ctx (fst (handleValidate sample.text examples.validate_request
                                           examples.warning_pipeline)))
     <> Some ([errorString "from the mutator"] ++ [errorString "from the validator"]).
Proof.
  repeat split; try (vm_compute; reflexivity).
  vm_compute. discriminate.
Qed.

(** ** C3: a hard error on the Validate route *)

Lemma validate_route_exclusive (r : Request) :
  isValidate r = true -> isRegister r = false /\ isPlan r = false.
Proof.
  unfold isValidate, isRegister, isCreate, isUpdate, isPlan.
  destruct (is_put_or_post r); [|discriminate]. cbn.
  intros Hpath. apply String.eqb_eq in Hpath. rewrite Hpath.
  split; vm_compute; reflexivity.
Qed.

Lemma checkIfGzip_request_irrelevant (G : gzip.Codec) (res : Response) (r : Request) :
  checkIfGzipAndTransformReader G
    {| Status := Status res; StatusCode := StatusCode res;
       RespHeader := RespHeader res; ContentLength := ContentLength res;
       Body := Body res; RespRequest := r |} (Body res)
  = checkIfGzipAndTransformReader G res (Body res).
Proof. reflexivity. Qed.

(** C3 (as the code has it). On the Validate route, when the mutator
    phase succeeds and the validator phase returns a multi-error, the
    request is forwarded to the upstream, and when the upstream's reply
    decodes the client receives it re-encoded with the text of the
    multi-error in [Error] and the text of each collected error, in
    order, in [ValidationErrors]. *)
Theorem validate_hard_error_reported
    (T : json.Text) (G : gzip.Codec) (transport : RoundTripper)
    (jobHandler : admissionctrl.JobHandler) (r : Request)
    (q : api.JobRequest) (job : option api.Job)
    (mutateWarnings validateWarnings merr : list error)
    (res : Response) (isGzip : bool) (reader : string)
    (response : api.JobValidateResponse) :
  let reqCtx := snd (buildRequestContext T transport jobHandler r) in
  let forwarded :=
    fst (handleValidate T (WithContext r (WithValue_request_context (Ctx r) reqCtx))
                        jobHandler) in
  isValidate r = true ->
  Decode T api.JobRequest_of_json (ReqBody r) = inr q ->
  admissionctrl.AdmissionMutators jobHandler
    {| types.Job := api.ReqJob q; types.Context := Some reqCtx |}
    = (job, mutateWarnings, None) ->
  admissionctrl.AdmissionValidators jobHandler
    {| types.Job := job; types.Context := Some reqCtx |}
    = (validateWarnings, Some (multiError merr)) ->
  transport forwarded = inr res ->
  checkIfGzipAndTransformReader G res (Body res) = inr (isGzip, reader) ->
  Decode T api.JobValidateResponse_of_json reader = inr response ->
  exists trace response' client,
    ProxyHandler T G transport jobHandler r = (trace, Returns client)
    /\ In (UpstreamCall forwarded) trace
    /\ ReqBody forwarded
       = json.marshal T (api.JobRequest_to_json
                           {| api.ReqJob := job;
                              api.RequestOther := api.RequestOther q |})
    /\ api.Error response' = Error (multiError merr)
    /\ api.ValidationErrors response' = Some (List.map Error merr)
    /\ client_status client = StatusCode res
    /\ client_body client
       = (if isGzip then gzip.compress G else fun data => data)
           (json.marshal T (api.JobValidateResponse_to_json response')).
Proof.
  intros reqCtx forwarded Hroute Hdec Hmut Hval Hrt Hgz Hresp.
  destruct (validate_route_exclusive r Hroute) as [Hreg Hplan].
  set (r0 := WithContext r (WithValue_request_context (Ctx r) reqCtx)) in *.
  pose proof (handleValidate_forwarded T r0 jobHandler q job
                mutateWarnings validateWarnings (Some (multiError merr))
                Hdec Hmut Hval) as Hfwd.
  assert (Hforwarded : handleValidate T r0 jobHandler = (forwarded, None)).
  { unfold forwarded. rewrite Hfwd. reflexivity. }
  assert (Hctx : validation_error_value (Ctx forwarded)
                 = (Some (multiError merr), true)).
  { unfold forwarded. rewrite Hfwd. cbn.
    destruct (validateWarnings ++ mutateWarnings); reflexivity. }
  assert (Hroutes : isRegister forwarded = false /\ isPlan forwarded = false
                    /\ isValidate forwarded = true).
  { unfold forwarded. rewrite Hfwd. cbn. auto. }
  destruct Hroutes as (Hreg' & Hplan' & Hval').
  unfold ProxyHandler.
  destruct (buildRequestContext T transport jobHandler r) as [trace0 reqCtx0] eqn:Hbuild.
  subst reqCtx. cbn [snd] in *. fold r0.
  unfold dispatch.
  replace (isRegister r0) with false by (symmetry; exact Hreg).
  replace (isPlan r0) with false by (symmetry; exact Hplan).
  replace (isValidate r0) with true by (symmetry; exact Hroute).
  rewrite Hforwarded.
  unfold ServeHTTP. rewrite Hrt.
  unfold ModifyResponse. cbn [RespRequest].
  rewrite Hreg', Hplan', Hval'.
  unfold handleJobValdidateResponse. cbn [RespRequest Body].
  rewrite Hctx.
  destruct (warnings_value (Ctx forwarded)) as [warnings okWarnings] eqn:Hw.
  cbn [negb andb].
  rewrite checkIfGzip_request_irrelevant, Hgz, Hresp.
  rewrite fold_snoc_map. cbn [app].
  set (response' :=
         if (0 <? length warnings)%nat
         then {| api.DriverConfigValidated := api.DriverConfigValidated response;
                 api.ValidationErrors := Some (List.map Error merr);
                 api.Error := Error (multiError merr);
                 api.ValidateWarnings :=
                   buildFullWarningMsg (api.ValidateWarnings response) warnings |}
         else {| api.DriverConfigValidated := api.DriverConfigValidated response;
                 api.ValidationErrors := Some (List.map Error merr);
                 api.Error := Error (multiError merr);
                 api.ValidateWarnings := api.ValidateWarnings response |}).
  assert (Hfields : api.Error response' = Error (multiError merr)
                    /\ api.ValidationErrors response' = Some (List.map Error merr)).
  { unfold response'. destruct (0 <? length warnings)%nat; split; reflexivity. }
  destruct Hfields as [Herr Hverrs].
  destruct isGzip.
  - eexists _, response', _. split; [reflexivity |].
    split; [apply in_or_app; right; right; left; reflexivity |].
    split; [unfold forwarded; rewrite Hfwd; reflexivity |].
    repeat split; try assumption; reflexivity.
  - eexists _, response', _. split; [reflexivity |].
    split; [apply in_or_app; right; right; left; reflexivity |].
    split; [unfold forwarded; rewrite Hfwd; reflexivity |].
    repeat split; try assumption; reflexivity.
Qed.

Lemma validate_hard_error_reported_witness :
  exists trace response' client,
    ProxyHandler sample.text sample.codec examples.upstream
                 examples.rejecting_pipeline examples.validate_request
    = (trace, Returns client)
    /\ In (UpstreamCall
             (fst (handleValidate sample.text
                     (WithContext examples.validate_request
                        (WithValue_request_context Background
                           {| config.ClientIP := "10.0.0.7"; config.AccessorID := "";
                              config.TokenInfo := None |}))
                     examples.rejecting_pipeline))) trace
    /\ ReqBody
         (fst (handleValidate sample.text
                 (WithContext examples.validate_request
                    (WithValue_request_context Background
                       {| config.ClientIP := "10.0.0.7"; config.AccessorID := "";
                          config.TokenInfo := None |}))
                 examples.rejecting_pipeline))
       = sample.print examples.envelope
    /\ api.Error response' = Error (multiError [errorString "bad"])
    /\ api.ValidationErrors response' = Some ["bad"]
    /\ client_status client = 200%Z
    /\ client_body client
       = sample.print (api.JobValidateResponse_to_json response').
Proof.
  apply (validate_hard_error_reported
           sample.text sample.codec examples.upstream examples.rejecting_pipeline
           examples.validate_request
           {| api.ReqJob := Some examples.app; api.RequestOther := [] |}
           (Some examples.app) [] [] [errorString "bad"]
           (examples.reply
              (fst (handleValidate sample.text
                      (WithContext examples.validate_request
                         (WithValue_request_context Background
                            {| config.ClientIP := "10.0.0.7"; config.AccessorID := "";
                               config.TokenInfo := None |}))
                      examples.rejecting_pipeline))
              ∅
              (sample.print (api.JobValidateResponse_to_json
                               {| api.DriverConfigValidated := true;
                                  api.ValidationErrors := Some [];
                                  api.Error := ""; api.ValidateWarnings := "" |})))
           false
           (sample.print (api.JobValidateResponse_to_json
                            {| api.DriverConfigValidated := true;
                               api.ValidationErrors := Some [];
                               api.Error := ""; api.ValidateWarnings := "" |}))
           {| api.DriverConfigValidated := true; api.ValidationErrors := Some [];
              api.Error := ""; api.ValidateWarnings := "" |});
    vm_compute; reflexivity.
Defined.

(** C3 (as the specification has it) fails for a mutator: its hard
    error on the Validate route ends the request with status 500 and
    nothing is sent to the upstream. *)
Lemma validate_mutator_error_not_forwarded :
  isValidate examples.validate_request = true
  /\ (forall p, admissionctrl.AdmissionMutators examples.failing_mutator_pipeline p
                = (None, [], Some (errorString "mutator unreachable")))
  /\ ProxyHandler sample.text sample.codec examples.upstream
                  examples.failing_mutator_pipeline examples.validate_request
     = ([Logged "info" "Request received" None;
         Logged "warn" "Error applying admission controllers"
                (Some (errorString "mutator unreachable"))],
        Returns {| client_status := 500; client_header := ∅;
                   client_body := "mutator unreachable" |})
  /\ ~ (exists req,
          In (UpstreamCall req)
             (fst (ProxyHandler sample.text sample.codec examples.upstream
                     examples.failing_mutator_pipeline examples.validate_request))).
Proof.
  split; [reflexivity |]. split; [reflexivity |].
  assert (Hrun : ProxyHandler sample.text sample.codec examples.upstream
                   examples.failing_mutator_pipeline examples.validate_request
                 = ([Logged "info" "Request received" None;
                     Logged "warn" "Error applying admission controllers"
                            (Some (errorString "mutator unreachable"))],
                    Returns {| client_status := 500; client_header := ∅;
                               client_body := "mutator unreachable" |}))
    by (vm_compute; reflexivity).
  split; [exact Hrun |].
  rewrite Hrun. intros [req Hin]. cbn in Hin.
  destruct Hin as [Habs | [Habs | []]]; discriminate.
Qed.

(** An error of the validator phase that is not a multi-error makes
    the response handler panic: the branch written for it reads the
    text of a nil error. *)
Lemma validate_plain_error_panics
    (T : json.Text) (G : gzip.Codec) (resp : Response) (e : error)
    (isGzip : bool) (reader : string) (response : api.JobValidateResponse) :
  ctxValidationError (Ctx (RespRequest resp)) = Some (Some e) ->
  is_plain e = true ->
  checkIfGzipAndTransformReader G resp (Body resp) = inr (isGzip, reader) ->
  Decode T api.JobValidateResponse_of_json reader = inr response ->
  handleJobValdidateResponse T G resp = Panics.
Proof.
  intros Hctx Hplain Hgz Hdec.
  unfold handleJobValdidateResponse, validation_error_value.
  rewrite Hctx. destruct (warnings_value _) as [warnings okWarnings].
  cbn [negb andb]. rewrite Hgz, Hdec.
  destruct e; [reflexivity | reflexivity | discriminate].
Qed.

(** ** C4: a hard error on the Register and Plan routes *)

Lemma buildRequestContext_calls
    (T : json.Text) (transport : RoundTripper)
    (jobHandler : admissionctrl.JobHandler) (r : Request) (req : Request) :
  In (UpstreamCall req) (fst (buildRequestContext T transport jobHandler r)) ->
  admissionctrl.ResolveToken jobHandler = true
  /\ Header_Get (ReqHeader r) "X-Nomad-Token" <> ""
  /\ req = selfRequest (Header_Get (ReqHeader r) "X-Nomad-Token").
Proof.
  unfold buildRequestContext.
  destruct (admissionctrl.ResolveToken jobHandler); [| intros []].
  unfold resolveTokenAccessor.
  destruct (String.eqb (Header_Get (ReqHeader r) "X-Nomad-Token") "") eqn:Htok.
  - intros [].
  - apply String.eqb_neq in Htok. intros Hin.
    assert (Hreq : req = selfRequest (Header_Get (ReqHeader r) "X-Nomad-Token")).
    { destruct (transport _) as [err | resp].
      - cbn in Hin. destruct Hin as [H | [H | []]]; congruence.
      - destruct (negb _).
        + cbn in Hin. destruct Hin as [H | [H | []]]; congruence.
        + destruct (Decode _ _ _); cbn in Hin.
          * destruct Hin as [H | [H | []]]; congruence.
          * destruct Hin as [H | []]; congruence. }
    auto.
Qed.

(** C4 (as the code has it). On the Register and Plan routes, when
    the pipeline returns a hard error the request is not forwarded: the
    only request the upstream may see is the token lookup made before
    the pipeline ran (with the resolve-token flag set and a token in
    the header); the client receives status 500 and a body that ends
    with the text of the error. *)
Theorem register_plan_hard_error_not_forwarded
    (T : json.Text) (G : gzip.Codec) (transport : RoundTripper)
    (jobHandler : admissionctrl.JobHandler) (r : Request)
    (q : api.JobRequest) (job : option api.Job) (warnings : list error)
    (err : error) :
  let reqCtx := snd (buildRequestContext T transport jobHandler r) in
  isRegister r = true \/ isPlan r = true ->
  Decode T api.JobRequest_of_json (ReqBody r) = inr q ->
  admissionctrl.ApplyAdmissionControllers jobHandler
    {| types.Job := api.ReqJob q; types.Context := Some reqCtx |}
    = (job, warnings, Some err) ->
  exists trace,
    ProxyHandler T G transport jobHandler r
    = (trace,
       Returns {| client_status := 500; client_header := ∅;
                  client_body :=
                    "admission controllers send an error, returning error: "
                    +:+ Error err |})
    /\ (forall req, In (UpstreamCall req) trace ->
          admissionctrl.ResolveToken jobHandler = true
          /\ Header_Get (ReqHeader r) "X-Nomad-Token" <> ""
          /\ req = selfRequest (Header_Get (ReqHeader r) "X-Nomad-Token")).
Proof.
  intros reqCtx Hroute Hdec Happly.
  pose proof (buildRequestContext_calls T transport jobHandler r) as Hcalls.
  unfold ProxyHandler.
  destruct (buildRequestContext T transport jobHandler r) as [trace0 reqCtx0] eqn:Hbuild.
  subst reqCtx. cbn [snd fst] in *.
  set (r0 := WithContext r (WithValue_request_context (Ctx r) reqCtx0)).
  assert (Hhandled :
            (if isRegister r0 then handleRegister T r0 jobHandler
             else if isPlan r0 then handlePlan T r0 jobHandler
             else if isValidate r0 then handleValidate T r0 jobHandler
             else (r0, None))
            = (r0, Some (wrapError
                           "admission controllers send an error, returning error: "
                           err))).
  { change (isRegister r0) with (isRegister r).
    change (isPlan r0) with (isPlan r).
    destruct (isRegister r) eqn:Hreg.
    - unfold handleRegister. change (ReqBody r0) with (ReqBody r).
      rewrite Hdec. cbn. rewrite Happly. reflexivity.
    - destruct Hroute as [Habs | Hplan]; [discriminate |].
      rewrite Hplan. unfold handlePlan. change (ReqBody r0) with (ReqBody r).
      rewrite Hdec. cbn. rewrite Happly. reflexivity. }
  unfold dispatch. rewrite Hhandled.
  eexists. split; [reflexivity |].
  intros req Hin. apply Hcalls.
  apply in_app_or in Hin. destruct Hin as [Hin | Hin]; [exact Hin |].
  cbn in Hin. destruct Hin as [H | [H | []]]; discriminate.
Qed.

Lemma register_plan_hard_error_not_forwarded_witness :
  exists trace,
    ProxyHandler sample.text sample.codec examples.upstream
                 examples.failing_mutator_pipeline
                 (examples.request "POST" "/v1/jobs" ∅ examples.envelope)
    = (trace,
       Returns {| client_status := 500; client_header := ∅;
                  client_body :=
                    "admission controllers send an error, returning error: "
                    +:+ "mutator unreachable" |})
    /\ (forall req, In (UpstreamCall req) trace ->
          admissionctrl.ResolveToken examples.failing_mutator_pipeline = true
          /\ Header_Get ∅ "X-Nomad-Token" <> ""
          /\ req = selfRequest (Header_Get ∅ "X-Nomad-Token")).
Proof.
  apply (register_plan_hard_error_not_forwarded
           sample.text sample.codec examples.upstream
           examples.failing_mutator_pipeline
           (examples.request "POST" "/v1/jobs" ∅ examples.envelope)
           {| api.ReqJob := Some examples.app; api.RequestOther := [] |}
           None [] (errorString "mutator unreachable"));
    [left; vm_compute; reflexivity | vm_compute; reflexivity | reflexivity].
Defined.

(** C4 (as the specification has it) fails: with token resolution
    switched on, a rejected register request that carries a token has
    already caused a request to the upstream, the lookup of the
    token. *)
Lemma register_hard_error_after_token_lookup :
  isRegister examples.register_request = true
  /\ snd (ProxyHandler sample.text sample.codec examples.upstream
            examples.rejecting_pipeline examples.register_request)
     = Returns {| client_status := 500; client_header := ∅;
                  client_body :=
                    "admission controllers send an error, returning error: "
                    +:+ Error (multiError [errorString "forbidden image"]) |}
  /\ In (UpstreamCall (selfRequest "secret"))
        (fst (ProxyHandler sample.text sample.codec examples.upstream
                examples.rejecting_pipeline examples.register_request)).
Proof.
  split; [vm_compute; reflexivity |].
  split; [vm_compute; reflexivity |].
  left. vm_compute. reflexivity.
Qed.

(** ** C7: gzip-encoded responses *)

Lemma rewriteResponseGzip_round_trip
    (G : gzip.Codec) (resp : Response) (data : string) :
  (forall b, gzip.decompress G (gzip.compress G b) = Some b) ->
  Header_Get (RespHeader resp) "Content-Encoding" = "gzip" ->
  properties.gzip_rewritten G data (rewriteResponseGzip G resp data).
Proof.
  intros Hlaw Henc.
  unfold properties.gzip_rewritten, rewriteResponseGzip, set_body, Header_Set.
  cbn [Body RespHeader ContentLength]. repeat split.
  - apply Hlaw.
  - apply lookup_insert_eq.
  - unfold Header_Get in *. rewrite lookup_insert_ne by discriminate. exact Henc.
Qed.

(** C7. For a response marked [Content-Encoding: gzip] whose body is a
    gzip stream of a decodable document, each of the three response
    handlers, when the context holds something to merge, replaces the
    body by the gzip stream of the re-encoded modified document: the
    new body decompresses to that document, and the [Content-Length]
    header and [ContentLength] are the length of the compressed body. *)
Theorem gzip_response_round_trip
    (T : json.Text) (G : gzip.Codec) (resp : Response) (raw : string) :
  (forall b, gzip.decompress G (gzip.compress G b) = Some b) ->
  Header_Get (RespHeader resp) "Content-Encoding" = "gzip" ->
  gzip.decompress G (Body resp) = Some raw ->
  (forall warnings response,
      ctxWarnings (Ctx (RespRequest resp)) = Some warnings ->
      Decode T api.JobResponse_of_json raw = inr response ->
      exists resp',
        handRegisterResponse T G resp = (resp', None)
        /\ handleJobPlanResponse T G resp = (resp', None)
        /\ properties.gzip_rewritten G
             (json.marshal T
                (api.JobResponse_to_json
                   {| api.Warnings :=
                        buildFullWarningMsg (api.Warnings response) warnings;
                      api.ResponseOther := api.ResponseOther response |}))
             resp')
  /\ (forall validationErr okErr warnings okWarnings response,
        validation_error_value (Ctx (RespRequest resp)) = (validationErr, okErr) ->
        warnings_value (Ctx (RespRequest resp)) = (warnings, okWarnings) ->
        okErr || okWarnings = true ->
        (forall e, validationErr = Some e -> is_plain e = false) ->
        Decode T api.JobValidateResponse_of_json raw = inr response ->
        exists resp' response',
          handleJobValdidateResponse T G resp = Returns (resp', None)
          /\ properties.gzip_rewritten G
               (json.marshal T (api.JobValidateResponse_to_json response')) resp'
          /\ api.ValidateWarnings response'
             = (if (0 <? length warnings)%nat
                then buildFullWarningMsg (api.ValidateWarnings response) warnings
                else api.ValidateWarnings response)).
Proof.
  intros Hlaw Henc Hraw.
  assert (Hcheck : checkIfGzipAndTransformReader G resp (Body resp) = inr (true, raw)).
  { unfold checkIfGzipAndTransformReader. rewrite Henc, Hraw. reflexivity. }
  split.
  - intros warnings response Hws Hdec.
    eexists. unfold handRegisterResponse, handleJobPlanResponse, warnings_value.
    rewrite Hws, Hcheck, Hdec. cbn [negb andb].
    split; [reflexivity |]. split; [reflexivity |].
    apply rewriteResponseGzip_round_trip; assumption.
  - intros validationErr okErr warnings okWarnings response Hve Hwv Hok Hmulti Hdec.
    unfold handleJobValdidateResponse. rewrite Hve, Hwv.
    assert (Hgo : negb okErr && negb okWarnings = false).
    { destruct okErr, okWarnings; try reflexivity; discriminate. }
    rewrite Hgo, Hcheck, Hdec.
    destruct validationErr as [e |].
    + specialize (Hmulti e eq_refl).
      destruct e as [msg | prefix inner | merr]; try discriminate.
      destruct (0 <? length warnings)%nat;
        eexists _, _; (split; [reflexivity |]);
        (split; [apply rewriteResponseGzip_round_trip; assumption | reflexivity]).
    + destruct (0 <? length warnings)%nat;
        eexists _, _; (split; [reflexivity |]);
        (split; [apply rewriteResponseGzip_round_trip; assumption | reflexivity]).
Qed.

Lemma sample_codec_round_trip (b : string) :
  gzip.decompress sample.codec (gzip.compress sample.codec b) = Some b.
Proof. reflexivity. Qed.

Lemma gzip_response_round_trip_witness :
  exists resp',
    handRegisterResponse sample.text sample.codec examples.gzip_reply = (resp', None)
    /\ handleJobPlanResponse sample.text sample.codec examples.gzip_reply = (resp', None)
    /\ properties.gzip_rewritten sample.codec
         (sample.print
            (JObject [("Warnings", JString (buildFullWarningMsg "" [errorString "w1"]));
                      ("EvalID", JString "e1")]))
         resp'.
Proof.
  apply (proj1 (gzip_response_round_trip
                  sample.text sample.codec examples.gzip_reply
                  (sample.print (JObject [("Warnings", JString "");
                                          ("EvalID", JString "e1")]))
                  sample_codec_round_trip eq_refl eq_refl)
               [errorString "w1"]
               {| api.Warnings := ""; api.ResponseOther := [("EvalID", JString "e1")] |});
    [reflexivity | vm_compute; reflexivity].
Defined.

(** ** C8: token resolution *)

Lemma resolveTokenAccessor_success
    (T : json.Text) (transport : RoundTripper) (token : string)
    (tok : api.ACLToken) :
  token <> "" ->
  snd (resolveTokenAccessor T transport token) = (Some tok, None)
  <-> exists resp,
        transport (selfRequest token) = inr resp
        /\ StatusCode resp = StatusOK
        /\ Decode T api.ACLToken_of_json (Body resp) = inr tok.
Proof.
  intros Htok. apply String.eqb_neq in Htok.
  unfold resolveTokenAccessor. rewrite Htok.
  destruct (transport (selfRequest token)) as [err | resp] eqn:Hrt.
  - cbn. split; [discriminate |]. intros (resp & Habs & _). discriminate.
  - destruct (Z.eqb (StatusCode resp) StatusOK) eqn:Hstatus; cbn.
    + apply Z.eqb_eq in Hstatus.
      destruct (Decode T api.ACLToken_of_json (Body resp)) as [err | tok'] eqn:Hdec; cbn.
      * split; [discriminate |].
        intros (resp' & Hresp & _ & Hdec'). congruence.
      * split.
        -- intros Heq. exists resp. repeat split; congruence.
        -- intros (resp' & Hresp & _ & Hdec'). congruence.
    + apply Z.eqb_neq in Hstatus. split; [discriminate |].
      intros (resp' & Hresp & Hok & _). congruence.
Qed.

Lemma resolveTokenAccessor_failure
    (T : json.Text) (transport : RoundTripper) (token : string) (err : error) :
  snd (snd (resolveTokenAccessor T transport token)) = Some err ->
  fst (snd (resolveTokenAccessor T transport token)) = None.
Proof.
  unfold resolveTokenAccessor.
  destruct (String.eqb token ""); [discriminate |].
  destruct (transport (selfRequest token)) as [e | resp]; [reflexivity |].
  destruct (negb _); [reflexivity |].
  destruct (Decode _ _ _); [reflexivity | discriminate].
Qed.

(** C8. Token resolution is attempted only when the pipeline's
    resolve-token flag is set; with an empty [X-Nomad-Token] header
    nothing is sent to the upstream; it succeeds exactly when the
    upstream answers the lookup with status 200 and a decodable body;
    and when it fails the error is logged, the accessor ID and the
    token stay unset, and the request is handled as a request without
    a resolved token is. *)
Theorem token_resolution_never_fatal
    (T : json.Text) (G : gzip.Codec) (transport : RoundTripper)
    (jobHandler : admissionctrl.JobHandler) (r : Request) :
  let token := Header_Get (ReqHeader r) "X-Nomad-Token" in
  (admissionctrl.ResolveToken jobHandler = false ->
   buildRequestContext T transport jobHandler r = ([], properties.unresolved r))
  /\ (token = "" ->
      resolveTokenAccessor T transport token = ([], (None, None))
      /\ buildRequestContext T transport jobHandler r = ([], properties.unresolved r))
  /\ (token <> "" ->
      forall tok,
        snd (resolveTokenAccessor T transport token) = (Some tok, None)
        <-> exists resp,
              transport (selfRequest token) = inr resp
              /\ StatusCode resp = StatusOK
              /\ Decode T api.ACLToken_of_json (Body resp) = inr tok)
  /\ (admissionctrl.ResolveToken jobHandler = true ->
      forall err,
        snd (snd (resolveTokenAccessor T transport token)) = Some err ->
        snd (buildRequestContext T transport jobHandler r) = properties.unresolved r
        /\ In (Logged "error" "Resolving token failed" (Some err))
              (fst (buildRequestContext T transport jobHandler r))
        /\ snd (ProxyHandler T G transport jobHandler r)
           = snd (dispatch T G transport jobHandler
                    (WithContext r
                       (WithValue_request_context (Ctx r) (properties.unresolved r))))).
Proof.
  intros token.
  assert (Hfail : forall err,
            admissionctrl.ResolveToken jobHandler = true ->
            snd (snd (resolveTokenAccessor T transport token)) = Some err ->
            buildRequestContext T transport jobHandler r
            = (fst (resolveTokenAccessor T transport token)
               ++ [Logged "error" "Resolving token failed" (Some err)],
               properties.unresolved r)).
  { intros err Hflag Herr.
    pose proof (resolveTokenAccessor_failure T transport token err Herr) as Hnone.
    unfold buildRequestContext. fold token. rewrite Hflag.
    destruct (resolveTokenAccessor T transport token) as [calls [tokenInfo err']].
    cbn in Hnone, Herr. subst. reflexivity. }
  split; [| split; [| split]].
  - intros Hflag. unfold buildRequestContext. rewrite Hflag. reflexivity.
  - intros Hempty. split.
    + rewrite Hempty. reflexivity.
    + unfold buildRequestContext. fold token. rewrite Hempty.
      destruct (admissionctrl.ResolveToken jobHandler); reflexivity.
  - intros Htok tok. apply resolveTokenAccessor_success. exact Htok.
  - intros Hflag err Herr. rewrite (Hfail err Hflag Herr). cbn [fst snd].
    split; [reflexivity |].
    split; [apply in_or_app; right; left; reflexivity |].
    unfold ProxyHandler. rewrite (Hfail err Hflag Herr).
    destruct (dispatch _ _ _ _ _). reflexivity.
Qed.

Lemma token_resolution_never_fatal_witness :
  snd (buildRequestContext sample.text examples.denying_upstream
         examples.rejecting_pipeline examples.register_request)
  = properties.unresolved examples.register_request
  /\ In (Logged "error" "Resolving token failed"
                (Some (errorString "unexpected status code: 403 Forbidden")))
        (fst (buildRequestContext sample.text examples.denying_upstream
                examples.rejecting_pipeline examples.register_request))
  /\ snd (ProxyHandler sample.text sample.codec examples.denying_upstream
            examples.rejecting_pipeline examples.register_request)
     = snd (dispatch sample.text sample.codec examples.denying_upstream
              examples.rejecting_pipeline
              (WithContext examples.register_request
                 (WithValue_request_context Background
                    (properties.unresolved examples.register_request)))).
Proof.
  apply (token_resolution_never_fatal
           sample.text sample.codec examples.denying_upstream
           examples.rejecting_pipeline examples.register_request);
    reflexivity.
Defined.

(** * Further properties of the proxy, the stages and the start-up *)

(** * Further properties of the code *)

(** ** The routes *)

Section Routes.

Import regexp.

#[local] Arguments routes.is_letter : simpl never.
#[local] Arguments routes.is_tail_char : simpl never.

Lemma star_class_forallb (A : list class_item) (s : list ascii) :
  matches (Star (CharClass A)) s <-> forallb (fun c => in_class c A) s = true.
Proof.
  split.
  - intros H. remember (Star (CharClass A)) as r eqn:Hr.
    induction H as [| | | | | | | |r0 t1 t2 Ht1 _ Ht2 IH|]; try discriminate.
    + reflexivity.
    + injection Hr as ->. apply class_inv in Ht1 as (c & -> & Hc).
      cbn. rewrite Hc. auto.
  - induction s as [|c s IH]; cbn; intros H.
    + constructor.
    + apply andb_true_iff in H as [Hc Hs].
      change (c :: s) with ([c] ++ s). constructor; [constructor; exact Hc | auto].
Qed.

Lemma skip_letters_split (s : list ascii) :
  exists l, s = l ++ routes.skip_letters s /\ forallb routes.is_letter l = true.
Proof.
  induction s as [|c s (l & Hs & Hl)]; cbn.
  - exists []. auto.
  - destruct (routes.is_letter c) eqn:Hc.
    + exists (c :: l). cbn. rewrite Hc, Hl. split; [congruence | reflexivity].
    + exists []. auto.
Qed.

Lemma forallb_skip_letters (P : ascii -> bool) (s : list ascii) :
  forallb P s = true -> forallb P (routes.skip_letters s) = true.
Proof.
  induction s as [|c s IH]; cbn; [auto |]. intros H.
  apply andb_true_iff in H as [Hc Hs].
  destruct (routes.is_letter c); [auto | cbn; rewrite Hc, Hs; reflexivity].
Qed.

Lemma skip_letters_app (l t : list ascii) :
  forallb routes.is_letter l = true ->
  forallb routes.is_tail_char t = true ->
  forallb routes.is_tail_char (routes.skip_letters (l ++ t)) = true.
Proof.
  induction l as [|c l IH]; cbn; intros Hl Ht.
  - apply forallb_skip_letters. exact Ht.
  - apply andb_true_iff in Hl as [Hc Hl]. rewrite Hc. auto.
Qed.

(** The name part of the two patterns, whatever follows it. *)
Lemma name_part_matches (rest : Regexp) (s : list ascii) :
  matches (Concat (Plus (CharClass classifier_spec.letters))
                  (Concat (Star (CharClass classifier_spec.tail_chars)) rest)) s
  <-> exists name s', s = name ++ s' /\ routes.job_name_ok name = true
                      /\ matches rest s'.
Proof.
  split.
  - intros H.
    apply concat_inv in H as (s1 & s2 & -> & Hplus & Htail).
    apply plus_inv in Hplus as (a & b & -> & Ha & Hb).
    apply concat_inv in Htail as (t & u & -> & Ht & Hu).
    apply class_inv in Ha as (c & -> & Hc).
    apply star_class_forallb in Hb, Ht.
    exists ([c] ++ b ++ t), u. split; [by rewrite <- !app_assoc |].
    split; [| exact Hu].
    cbn. unfold routes.is_letter at 1. rewrite Hc. cbn.
    apply skip_letters_app; assumption.
  - intros (name & s' & -> & Hname & Hrest).
    destruct name as [|c rest']; [discriminate |].
    cbn in Hname. apply andb_true_iff in Hname as [Hc Htail].
    destruct (skip_letters_split rest') as (l & Hsplit & Hl).
    rewrite Hsplit.
    replace ((c :: l ++ routes.skip_letters rest') ++ s')
      with (([c] ++ l) ++ (routes.skip_letters rest' ++ s'))
      by (cbn; rewrite <- app_assoc; reflexivity).
    constructor.
    + constructor; [constructor; exact Hc | apply star_class_forallb; exact Hl].
    + constructor; [apply star_class_forallb; exact Htail | exact Hrest].
Qed.

Lemma empty_match_inv (s : list ascii) : matches EmptyMatch s <-> s = [].
Proof. split; [intros H; inversion H; reflexivity | intros ->; constructor]. Qed.

Lemma jobPathRegex_names (path : string) :
  MatchString nacp.jobPathRegex path = true
  <-> exists name,
        list_ascii_of_string path = list_ascii_of_string "/v1/job/" ++ name
        /\ routes.job_name_ok name = true.
Proof.
  change (MatchString nacp.jobPathRegex path)
    with (full_match (literals "/v1/job/"
                        (Concat (Plus (CharClass classifier_spec.letters))
                                (Concat (Star (CharClass classifier_spec.tail_chars))
                                        EmptyMatch))) path).
  rewrite full_match_matches, literals_matches. split.
  - intros (s' & Heq & H). apply name_part_matches in H as (name & u & -> & Hname & Hu).
    apply empty_match_inv in Hu as ->. rewrite app_nil_r in Heq. eauto.
  - intros (name & Heq & Hname). exists name. split; [exact Heq |].
    apply name_part_matches. exists name, []. rewrite app_nil_r.
    repeat split; [exact Hname | constructor].
Qed.

Lemma jobPlanPathRegex_names (path : string) :
  MatchString nacp.jobPlanPathRegex path = true
  <-> exists name,
        list_ascii_of_string path
        = list_ascii_of_string "/v1/job/" ++ name ++ list_ascii_of_string "/plan"
        /\ routes.job_name_ok name = true.
Proof.
  change (MatchString nacp.jobPlanPathRegex path)
    with (full_match (literals "/v1/job/"
                        (Concat (Plus (CharClass classifier_spec.letters))
                                (Concat (Star (CharClass classifier_spec.tail_chars))
                                        (literals "/plan" EmptyMatch)))) path).
  rewrite full_match_matches, literals_matches. split.
  - intros (s' & Heq & H). apply name_part_matches in H as (name & u & -> & Hname & Hu).
    apply literals_matches in Hu as (u' & -> & Hu').
    apply empty_match_inv in Hu' as ->. rewrite app_nil_r in Heq. eauto.
  - intros (name & Heq & Hname). exists (name ++ list_ascii_of_string "/plan").
    split; [exact Heq |].
    apply name_part_matches. exists name, (list_ascii_of_string "/plan").
    repeat split; [exact Hname |].
    apply literals_matches. exists []. split; [reflexivity | constructor].
Qed.

Lemma job_name_chars (name : list ascii) :
  routes.job_name_ok name = true ->
  forallb (fun c => routes.is_letter c || routes.is_tail_char c) name = true.
Proof.
  destruct name as [|c rest]; [discriminate |]. cbn.
  intros H. apply andb_true_iff in H as [Hc Htail]. rewrite Hc. cbn.
  destruct (skip_letters_split rest) as (l & Hsplit & Hl).
  rewrite Hsplit, forallb_app. apply andb_true_iff. split.
  - clear Hsplit. induction l as [|a l IH]; cbn in *; [reflexivity |].
    apply andb_true_iff in Hl as [Ha Hl]. rewrite Ha. auto.
  - revert Htail. generalize (routes.skip_letters rest). intros t.
    induction t as [|a t IH]; cbn; [reflexivity |].
    intros H. apply andb_true_iff in H as [Ha Ht]. rewrite Ha, orb_true_r. auto.
Qed.

Lemma no_slash_in_name (name : list ascii) :
  routes.job_name_ok name = true -> ~ In "/"%char name.
Proof.
  intros Hname Hin. apply job_name_chars in Hname.
  rewrite forallb_forall in Hname. specialize (Hname _ Hin). discriminate.
Qed.

End Routes.

Lemma isUpdate_names (r : Request) :
  isUpdate r = true
  <-> is_put_or_post r = true
      /\ exists name,
           list_ascii_of_string (Path r) = list_ascii_of_string "/v1/job/" ++ name
           /\ routes.job_name_ok name = true.
Proof.
  unfold isUpdate. rewrite andb_true_iff, jobPathRegex_names. tauto.
Qed.

Lemma isPlan_names (r : Request) :
  isPlan r = true
  <-> is_put_or_post r = true
      /\ exists name,
           list_ascii_of_string (Path r)
           = list_ascii_of_string "/v1/job/" ++ name ++ list_ascii_of_string "/plan"
           /\ routes.job_name_ok name = true.
Proof.
  unfold isPlan. rewrite andb_true_iff, jobPlanPathRegex_names. tauto.
Qed.

(** X1. A path goes the update route exactly when it is [/v1/job/]
    followed by a job name that starts with a letter, goes on with
    letters, and ends with lower-case letters, digits, dashes and the
    letter Z; the plan route takes the same names followed by
    [/plan]. *)
Theorem update_and_plan_routes_by_name (r : Request) :
  (isUpdate r = true
   <-> is_put_or_post r = true
       /\ exists name,
            list_ascii_of_string (Path r) = list_ascii_of_string "/v1/job/" ++ name
            /\ routes.job_name_ok name = true)
  /\ (isPlan r = true
      <-> is_put_or_post r = true
          /\ exists name,
               list_ascii_of_string (Path r)
               = list_ascii_of_string "/v1/job/" ++ name ++ list_ascii_of_string "/plan"
               /\ routes.job_name_ok name = true).
Proof.
  split; [apply isUpdate_names | apply isPlan_names].
Qed.



(** X3. A request carries at most one of the three labels. *)
Theorem route_labels_exclusive (r : Request) :
  (isRegister r = true -> isPlan r = false /\ isValidate r = false)
  /\ (isPlan r = true -> isRegister r = false /\ isValidate r = false)
  /\ (isValidate r = true -> isRegister r = false /\ isPlan r = false).
Proof.
  assert (Hrp : isRegister r = true -> isPlan r = true -> False).
  { intros Hreg Hplan.
    apply isPlan_names in Hplan as (_ & name & Hpath & Hname).
    unfold isRegister in Hreg. apply orb_true_iff in Hreg as [Hc | Hu].
    - unfold isCreate in Hc. apply andb_true_iff in Hc as [_ Hc].
      apply String.eqb_eq in Hc. rewrite Hc in Hpath. cbn in Hpath.
      discriminate Hpath.
    - apply isUpdate_names in Hu as (_ & name' & Hpath' & Hname').
      rewrite Hpath in Hpath'. apply app_inv_head in Hpath'.
      apply (no_slash_in_name name' Hname'). rewrite <- Hpath'.
      apply in_or_app. right. left. reflexivity. }
  pose proof (validate_route_exclusive r) as Hv.
  split; [| split].
  - intros Hreg. split.
    + destruct (isPlan r) eqn:Hp; [exfalso; auto | reflexivity].
    + destruct (isValidate r) eqn:Hval; [| reflexivity].
      destruct (Hv eq_refl) as [Habs _]. congruence.
  - intros Hplan. split.
    + destruct (isRegister r) eqn:Hreg; [exfalso; auto | reflexivity].
    + destruct (isValidate r) eqn:Hval; [| reflexivity].
      destruct (Hv eq_refl) as [_ Habs]. congruence.
  - exact Hv.
Qed.

Lemma route_labels_exclusive_witness :
  isPlan (examples.request "PUT" "/v1/job/app/plan" ∅ examples.envelope) = true
  /\ isRegister (examples.request "PUT" "/v1/job/app/plan" ∅ examples.envelope) = false
  /\ isValidate (examples.request "PUT" "/v1/job/app/plan" ∅ examples.envelope) = false.
Proof.
  split; [reflexivity |].
  apply (proj1 (proj2 (route_labels_exclusive
                         (examples.request "PUT" "/v1/job/app/plan" ∅
                                           examples.envelope)))).
  reflexivity.
Defined.

(** ** The proxy host *)

(** X4. A request with none of the three labels is handed to the
    reverse proxy with its method, path, headers and body as they came,
    the pipeline is not consulted, and the response modifier leaves the
    reply alone: its status, headers and body go to the client (502
    when the round trip fails). *)
Theorem passthrough_verbatim
    (T : json.Text) (G : gzip.Codec) (transport : RoundTripper)
    (jobHandler : admissionctrl.JobHandler) (r : Request) :
  isRegister r = false -> isPlan r = false -> isValidate r = false ->
  exists sent,
    Method sent = Method r /\ Path sent = Path r /\ ReqHeader sent = ReqHeader r
    /\ ReqBody sent = ReqBody r /\ ReqContentLength sent = ReqContentLength r
    /\ ProxyHandler T G transport jobHandler r
       = (fst (buildRequestContext T transport jobHandler r)
          ++ [Logged "info" "Request received" None; UpstreamCall sent],
          match transport sent with
          | inl _ => Returns more_properties.bad_gateway
          | inr res =>
              Returns {| client_status := StatusCode res;
                         client_header := RespHeader res;
                         client_body := Body res |}
          end).
Proof.
  intros Hreg Hplan Hval.
  unfold ProxyHandler.
  destruct (buildRequestContext T transport jobHandler r) as [trace reqCtx].
  set (r0 := WithContext r (WithValue_request_context (Ctx r) reqCtx)).
  exists r0. repeat (split; [reflexivity |]).
  unfold dispatch.
  change (isRegister r0) with (isRegister r). change (isPlan r0) with (isPlan r).
  change (isValidate r0) with (isValidate r). rewrite Hreg, Hplan, Hval.
  unfold ServeHTTP, ModifyResponse. cbn [fst].
  destruct (transport r0) as [err | res]; [reflexivity |].
  cbn [RespRequest].
  change (isRegister r0) with (isRegister r). change (isPlan r0) with (isPlan r).
  change (isValidate r0) with (isValidate r). rewrite Hreg, Hplan, Hval.
  reflexivity.
Qed.

Lemma passthrough_verbatim_witness :
  exists sent,
    Method sent = "DELETE" /\ Path sent = "/v1/job/app" /\ ReqHeader sent = ∅
    /\ ReqBody sent = sample.print examples.envelope
    /\ ReqContentLength sent = 32%Z
    /\ ProxyHandler sample.text sample.codec examples.upstream
         examples.rejecting_pipeline
         (examples.request "DELETE" "/v1/job/app" ∅ examples.envelope)
       = (fst (buildRequestContext sample.text examples.upstream
                 examples.rejecting_pipeline
                 (examples.request "DELETE" "/v1/job/app" ∅ examples.envelope))
          ++ [Logged "info" "Request received" None; UpstreamCall sent],
          match examples.upstream sent with
          | inl _ => Returns more_properties.bad_gateway
          | inr res =>
              Returns {| client_status := StatusCode res;
                         client_header := RespHeader res;
                         client_body := Body res |}
          end).
Proof.
  apply (passthrough_verbatim sample.text sample.codec examples.upstream
           examples.rejecting_pipeline
           (examples.request "DELETE" "/v1/job/app" ∅ examples.envelope));
    reflexivity.
Defined.

(** The handler on a request whose body the route's handler refuses. *)
Lemma dispatch_refused
    (T : json.Text) (G : gzip.Codec) (transport : RoundTripper)
    (jobHandler : admissionctrl.JobHandler) (r : Request) (err : error) :
  (if isRegister r then handleRegister T r jobHandler
   else if isPlan r then handlePlan T r jobHandler
   else if isValidate r then handleValidate T r jobHandler
   else (r, None)) = (r, Some err) ->
  dispatch T G transport jobHandler r
  = ([Logged "warn" "Error applying admission controllers" (Some err)],
     Returns (writeError err)).
Proof. intros H. unfold dispatch. rewrite H. reflexivity. Qed.

(** X5. A body that does not decode as the job envelope ends the
    request on all three routes: the pipeline is not run, nothing but
    the token lookup reaches the upstream, and the client receives
    status 500 with the decoding error, on Register and Plan after the
    words "failed decoding job, skipping admission controller". *)
Theorem undecodable_request_refused
    (T : json.Text) (G : gzip.Codec) (transport : RoundTripper)
    (jobHandler : admissionctrl.JobHandler) (r : Request) (err : error) :
  isRegister r = true \/ isPlan r = true \/ isValidate r = true ->
  Decode T api.JobRequest_of_json (ReqBody r) = inl err ->
  exists trace,
    ProxyHandler T G transport jobHandler r
    = (trace,
       Returns {| client_status := 500; client_header := ∅;
                  client_body :=
                    (if isRegister r || isPlan r
                     then "failed decoding job, skipping admission controller: "
                     else "") +:+ Error err |})
    /\ (forall req, In (UpstreamCall req) trace ->
          req = selfRequest (Header_Get (ReqHeader r) "X-Nomad-Token")).
Proof.
  intros Hroute Hdec.
  pose proof (buildRequestContext_calls T transport jobHandler r) as Hcalls.
  unfold ProxyHandler.
  destruct (buildRequestContext T transport jobHandler r) as [trace0 reqCtx].
  cbn [fst] in Hcalls.
  set (r0 := WithContext r (WithValue_request_context (Ctx r) reqCtx)).
  assert (Hrefused :
            exists e,
              dispatch T G transport jobHandler r0
              = ([Logged "warn" "Error applying admission controllers" (Some e)],
                 Returns (writeError e))
              /\ Error e
                 = (if isRegister r || isPlan r
                    then "failed decoding job, skipping admission controller: "
                    else "") +:+ Error err).
  { destruct (isRegister r) eqn:Hreg.
    - eexists. split; [apply dispatch_refused |].
      + change (isRegister r0) with (isRegister r). rewrite Hreg.
        unfold handleRegister. change (ReqBody r0) with (ReqBody r).
        rewrite Hdec. reflexivity.
      + reflexivity.
    - destruct (isPlan r) eqn:Hplan.
      + eexists. split; [apply dispatch_refused |].
        * change (isRegister r0) with (isRegister r).
          change (isPlan r0) with (isPlan r). rewrite Hreg, Hplan.
          unfold handlePlan. change (ReqBody r0) with (ReqBody r).
          rewrite Hdec. reflexivity.
        * reflexivity.
      + destruct Hroute as [? | [? | Hval]]; try discriminate.
        eexists. split; [apply dispatch_refused |].
        * change (isRegister r0) with (isRegister r).
          change (isPlan r0) with (isPlan r).
          change (isValidate r0) with (isValidate r). rewrite Hreg, Hplan, Hval.
          unfold handleValidate. change (ReqBody r0) with (ReqBody r).
          rewrite Hdec. reflexivity.
        * reflexivity. }
  destruct Hrefused as (e & Hdisp & Htext). rewrite Hdisp.
  eexists. split.
  - unfold writeError. rewrite Htext. reflexivity.
  - intros req Hin. apply in_app_or in Hin as [Hin | Hin].
    + apply Hcalls. exact Hin.
    + cbn in Hin. destruct Hin as [H | [H | []]]; discriminate.
Qed.

Lemma undecodable_request_refused_witness :
  exists trace,
    ProxyHandler sample.text sample.codec examples.upstream
      examples.warning_pipeline
      (examples.request "POST" "/v1/jobs" ∅ (JArray []))
    = (trace,
       Returns {| client_status := 500; client_header := ∅;
                  client_body :=
                    "failed decoding job, skipping admission controller: "
                    +:+ Error json_decode_error |})
    /\ (forall req, In (UpstreamCall req) trace ->
          req = selfRequest (Header_Get ∅ "X-Nomad-Token")).
Proof.
  apply (undecodable_request_refused sample.text sample.codec examples.upstream
           examples.warning_pipeline
           (examples.request "POST" "/v1/jobs" ∅ (JArray []))
           json_decode_error);
    [left; reflexivity | reflexivity].
Defined.

(** X6. On Register and Plan, when the pipeline accepts the job, the
    upstream receives the request with the same method, path and
    headers, a body that is the envelope re-encoded with the pipeline's
    job in place of the sent one, and a content length that is the
    length of that body; the warnings are put on the context exactly
    when there are some. *)
Theorem accepted_job_forwarded
    (T : json.Text) (G : gzip.Codec) (transport : RoundTripper)
    (jobHandler : admissionctrl.JobHandler) (r : Request)
    (q : api.JobRequest) (job : option api.Job) (warnings : list error) :
  let reqCtx := snd (buildRequestContext T transport jobHandler r) in
  isRegister r = true \/ isPlan r = true ->
  Decode T api.JobRequest_of_json (ReqBody r) = inr q ->
  admissionctrl.ApplyAdmissionControllers jobHandler
    {| types.Job := api.ReqJob q; types.Context := Some reqCtx |}
    = (job, warnings, None) ->
  exists sent,
    Method sent = Method r /\ Path sent = Path r /\ ReqHeader sent = ReqHeader r
    /\ ReqBody sent
       = json.marshal T (api.JobRequest_to_json
                           {| api.ReqJob := job;
                              api.RequestOther := api.RequestOther q |})
    /\ ReqContentLength sent = Z.of_nat (String.length (ReqBody sent))
    /\ ctxWarnings (Ctx sent)
       = (match warnings with [] => ctxWarnings (Ctx r) | _ => Some warnings end)
    /\ In (UpstreamCall sent) (fst (ProxyHandler T G transport jobHandler r))
    /\ snd (ProxyHandler T G transport jobHandler r)
       = snd (ServeHTTP T G transport sent).
Proof.
  intros reqCtx Hroute Hdec Happly.
  unfold ProxyHandler.
  destruct (buildRequestContext T transport jobHandler r) as [trace0 reqCtx0].
  subst reqCtx. cbn [snd] in Happly.
  set (r0 := WithContext r (WithValue_request_context (Ctx r) reqCtx0)).
  set (data := json.marshal T (api.JobRequest_to_json
                                 {| api.ReqJob := job;
                                    api.RequestOther := api.RequestOther q |})).
  set (ctx := if (0 <? length warnings)%nat
              then WithValue_ctxWarnings (Ctx r0) warnings else Ctx r0).
  assert (Hhandled :
            (if isRegister r0 then handleRegister T r0 jobHandler
             else if isPlan r0 then handlePlan T r0 jobHandler
             else if isValidate r0 then handleValidate T r0 jobHandler
             else (r0, None))
            = (rewriteRequest (WithContext r0 ctx) data, None)).
  { change (isRegister r0) with (isRegister r).
    change (isPlan r0) with (isPlan r).
    destruct (isRegister r) eqn:Hreg.
    - unfold handleRegister. change (ReqBody r0) with (ReqBody r).
      rewrite Hdec. cbn. rewrite Happly. reflexivity.
    - destruct Hroute as [Habs | Hplan]; [discriminate |].
      rewrite Hplan. unfold handlePlan. change (ReqBody r0) with (ReqBody r).
      rewrite Hdec. cbn. rewrite Happly. reflexivity. }
  unfold dispatch. rewrite Hhandled.
  exists (rewriteRequest (WithContext r0 ctx) data).
  repeat (split; [reflexivity |]).
  split; [subst ctx; destruct warnings; reflexivity |].
  destruct (ServeHTTP T G transport (rewriteRequest (WithContext r0 ctx) data))
    as [trace1 result] eqn:Hserve.
  split; [| reflexivity].
  cbn [fst]. apply in_or_app. right. right.
  unfold ServeHTTP in Hserve.
  destruct (transport _) as [err | res].
  - injection Hserve as <- _. left. reflexivity.
  - destruct (ModifyResponse _ _ _) as [logs [[res' [e |]] |]];
      injection Hserve as <- _; left; reflexivity.
Qed.

Lemma accepted_job_forwarded_witness :
  exists sent,
    Method sent = "POST" /\ Path sent = "/v1/jobs" /\ ReqHeader sent = ∅
    /\ ReqBody sent = sample.print examples.envelope
    /\ ReqContentLength sent = Z.of_nat (String.length (ReqBody sent))
    /\ ctxWarnings (Ctx sent) = Some [errorString "cpu low"]
    /\ In (UpstreamCall sent)
          (fst (ProxyHandler sample.text sample.codec examples.warning_upstream
                  examples.cautious_pipeline
                  (examples.request "POST" "/v1/jobs" ∅ examples.envelope)))
    /\ snd (ProxyHandler sample.text sample.codec examples.warning_upstream
              examples.cautious_pipeline
              (examples.request "POST" "/v1/jobs" ∅ examples.envelope))
       = snd (ServeHTTP sample.text sample.codec examples.warning_upstream sent).
Proof.
  apply (accepted_job_forwarded sample.text sample.codec examples.warning_upstream
           examples.cautious_pipeline
           (examples.request "POST" "/v1/jobs" ∅ examples.envelope)
           {| api.ReqJob := Some examples.app; api.RequestOther := [] |}
           (Some examples.app) [errorString "cpu low"]);
    [left; reflexivity | reflexivity | reflexivity].
Defined.

(** ** The response handlers *)

(** X7. When warnings are stored for a Register or Plan request and the
    upstream's reply cannot be read (a gzip-marked body that is no gzip
    stream, or a body that does not decode as the response envelope:
    an error page, say), the client does not receive that reply: the
    failure is logged and the proxy answers 502 with an empty body. *)
Theorem unreadable_reply_becomes_bad_gateway
    (T : json.Text) (G : gzip.Codec) (transport : RoundTripper)
    (r : Request) (res : Response) (warnings : list error) :
  isRegister r = true \/ isPlan r = true ->
  ctxWarnings (Ctx r) = Some warnings ->
  transport r = inr res ->
  (exists err, checkIfGzipAndTransformReader G res (Body res) = inl err)
  \/ (exists isGzip reader err,
        checkIfGzipAndTransformReader G res (Body res) = inr (isGzip, reader)
        /\ Decode T api.JobResponse_of_json reader = inl err) ->
  exists err,
    ServeHTTP T G transport r
    = ([UpstreamCall r; Logged "error" "Preparing response failed" (Some err)],
       Returns {| client_status := 502; client_header := ∅; client_body := "" |}).
Proof.
  intros Hroute Hws Hrt Hbad.
  unfold ServeHTTP. rewrite Hrt.
  set (res0 := {| Status := Status res; StatusCode := StatusCode res;
                  RespHeader := RespHeader res; ContentLength := ContentLength res;
                  Body := Body res; RespRequest := r |}).
  assert (Hfail : exists err resp',
             handRegisterResponse T G res0 = (resp', Some err)
             /\ handleJobPlanResponse T G res0 = (resp', Some err)).
  { unfold handRegisterResponse, handleJobPlanResponse, warnings_value, res0.
    cbn [RespRequest Body]. rewrite Hws. cbn [negb andb].
    rewrite (checkIfGzip_request_irrelevant G res r).
    destruct Hbad as [(err & Hgz) | (isGzip & reader & err & Hgz & Hdec)].
    - rewrite Hgz. eauto.
    - rewrite Hgz, Hdec. eauto. }
  destruct Hfail as (err & resp' & Hreg & Hplan).
  exists err. unfold ModifyResponse.
  change (RespRequest res0) with r.
  destruct (isRegister r) eqn:Hr.
  - rewrite Hreg. reflexivity.
  - destruct Hroute as [? | Hp]; [discriminate |]. rewrite Hp, Hplan. reflexivity.
Qed.

Lemma unreadable_reply_becomes_bad_gateway_witness :
  exists err,
    ServeHTTP sample.text sample.codec more_examples.forbidding_upstream
              examples.warned_request
    = ([UpstreamCall examples.warned_request;
        Logged "error" "Preparing response failed" (Some err)],
       Returns {| client_status := 502; client_header := ∅; client_body := "" |}).
Proof.
  apply (unreadable_reply_becomes_bad_gateway sample.text sample.codec
           more_examples.forbidding_upstream examples.warned_request
           {| Status := "403 Forbidden"; StatusCode := 403;
              RespHeader := ∅; ContentLength := 17;
              Body := "Permission denied"; RespRequest := examples.warned_request |}
           [errorString "w1"]);
    [left; reflexivity | reflexivity | reflexivity |].
  right. exists false, "Permission denied", json_decode_error.
  split; reflexivity.
Defined.

(** X8. On the Validate route, when the mutators leave no warning and
    the validators return neither warning nor error, the nil error
    kept on the context does not count as a validation error: the
    upstream's reply reaches the client as it is. *)
Theorem clean_validation_reply_untouched
    (T : json.Text) (G : gzip.Codec) (transport : RoundTripper)
    (jobHandler : admissionctrl.JobHandler) (r : Request)
    (q : api.JobRequest) (job : option api.Job) (res : Response) :
  let reqCtx := snd (buildRequestContext T transport jobHandler r) in
  let sent :=
    fst (handleValidate T (WithContext r (WithValue_request_context (Ctx r) reqCtx))
                        jobHandler) in
  isValidate r = true ->
  ctxWarnings (Ctx r) = None ->
  Decode T api.JobRequest_of_json (ReqBody r) = inr q ->
  admissionctrl.AdmissionMutators jobHandler
    {| types.Job := api.ReqJob q; types.Context := Some reqCtx |}
    = (job, [], None) ->
  admissionctrl.AdmissionValidators jobHandler
    {| types.Job := job; types.Context := Some reqCtx |} = ([], None) ->
  transport sent = inr res ->
  ctxValidationError (Ctx sent) = Some None
  /\ snd (ProxyHandler T G transport jobHandler r)
     = Returns {| client_status := StatusCode res;
                  client_header := RespHeader res;
                  client_body := Body res |}.
Proof.
  intros reqCtx sent Hroute Hnone Hdec Hmut Hval Hrt.
  destruct (validate_route_exclusive r Hroute) as [Hreg Hplan].
  set (r0 := WithContext r (WithValue_request_context (Ctx r) reqCtx)) in *.
  pose proof (handleValidate_forwarded T r0 jobHandler q job [] [] None
                Hdec Hmut Hval) as Hfwd.
  cbn [app length Nat.ltb Nat.leb] in Hfwd.
  assert (Hsent : handleValidate T r0 jobHandler = (sent, None)).
  { unfold sent. rewrite Hfwd. reflexivity. }
  assert (Hctx : ctxValidationError (Ctx sent) = Some None
                 /\ ctxWarnings (Ctx sent) = None).
  { unfold sent. rewrite Hfwd. split; [reflexivity | exact Hnone]. }
  destruct Hctx as [Hverr Hws].
  assert (Hroutes : isRegister sent = false /\ isPlan sent = false
                    /\ isValidate sent = true).
  { unfold sent. rewrite Hfwd. cbn. auto. }
  destruct Hroutes as (Hreg' & Hplan' & Hval').
  split; [exact Hverr |].
  unfold ProxyHandler.
  destruct (buildRequestContext T transport jobHandler r) as [trace0 reqCtx0].
  subst reqCtx. cbn [snd] in *. fold r0.
  unfold dispatch.
  replace (isRegister r0) with false by (symmetry; exact Hreg).
  replace (isPlan r0) with false by (symmetry; exact Hplan).
  replace (isValidate r0) with true by (symmetry; exact Hroute).
  rewrite Hsent. unfold ServeHTTP. rewrite Hrt.
  unfold ModifyResponse. cbn [RespRequest].
  rewrite Hreg', Hplan', Hval'.
  unfold handleJobValdidateResponse, validation_error_value, warnings_value.
  cbn [RespRequest]. rewrite Hverr, Hws. reflexivity.
Qed.

Lemma clean_validation_reply_untouched_witness :
  ctxValidationError
    (Ctx (fst (handleValidate sample.text
                 (WithContext examples.validate_request
                    (WithValue_request_context Background
                       (properties.unresolved examples.validate_request)))
                 more_examples.quiet_pipeline)))
  = Some None
  /\ snd (ProxyHandler sample.text sample.codec more_examples.forbidding_upstream
            more_examples.quiet_pipeline examples.validate_request)
     = Returns {| client_status := 403; client_header := ∅;
                  client_body := "Permission denied" |}.
Proof.
  apply (clean_validation_reply_untouched sample.text sample.codec
           more_examples.forbidding_upstream more_examples.quiet_pipeline
           examples.validate_request
           {| api.ReqJob := Some examples.app; api.RequestOther := [] |}
           (Some examples.app)
           {| Status := "403 Forbidden"; StatusCode := 403; RespHeader := ∅;
              ContentLength := 17; Body := "Permission denied";
              RespRequest :=
                fst (handleValidate sample.text
                       (WithContext examples.validate_request
                          (WithValue_request_context Background
                             (properties.unresolved examples.validate_request)))
                       more_examples.quiet_pipeline) |});
    reflexivity.
Defined.

Lemma kept_refl (resp : Response) : more_properties.kept resp resp.
Proof. repeat split. Qed.

Lemma kept_drained (resp : Response) : more_properties.kept resp (drained resp).
Proof. repeat split. Qed.

Lemma kept_rewriteResponse (resp : Response) (data : string) :
  more_properties.kept resp (rewriteResponse resp data)
  /\ more_properties.length_announced (rewriteResponse resp data).
Proof.
  unfold more_properties.kept, more_properties.length_announced, rewriteResponse, set_body, Header_Set.
  cbn [Status StatusCode RespRequest RespHeader ContentLength Body].
  repeat split.
  - intros key Hkey. apply lookup_insert_ne. congruence.
  - apply lookup_insert_eq.
Qed.

Lemma kept_rewriteResponseGzip (G : gzip.Codec) (resp : Response) (data : string) :
  more_properties.kept resp (rewriteResponseGzip G resp data)
  /\ more_properties.length_announced (rewriteResponseGzip G resp data).
Proof.
  unfold more_properties.kept, more_properties.length_announced, rewriteResponseGzip, set_body, Header_Set.
  cbn [Status StatusCode RespRequest RespHeader ContentLength Body].
  repeat split.
  - intros key Hkey. apply lookup_insert_ne. congruence.
  - apply lookup_insert_eq.
Qed.

Lemma register_handler_kept (T : json.Text) (G : gzip.Codec) (resp resp' : Response)
    (e : option error) :
  handRegisterResponse T G resp = (resp', e) ->
  more_properties.kept resp resp'
  /\ (e = None -> resp' = resp \/ more_properties.length_announced resp').
Proof.
  unfold handRegisterResponse.
  destruct (warnings_value _) as [warnings ok].
  destruct (negb ok && Nat.eqb (length warnings) 0).
  { intros [= <- <-]. split; [apply kept_refl | auto]. }
  destruct (checkIfGzipAndTransformReader G resp (Body resp)) as [err | [isGzip reader]].
  { intros [= <- <-]. split; [apply kept_drained | discriminate]. }
  destruct (Decode T api.JobResponse_of_json reader) as [err | response].
  { intros [= <- <-]. split; [apply kept_drained | discriminate]. }
  destruct isGzip; intros [= <- <-].
  - split; [apply kept_rewriteResponseGzip | intros _; right; apply kept_rewriteResponseGzip].
  - split; [apply kept_rewriteResponse | intros _; right; apply kept_rewriteResponse].
Qed.

Lemma plan_handler_kept (T : json.Text) (G : gzip.Codec) (resp resp' : Response)
    (e : option error) :
  handleJobPlanResponse T G resp = (resp', e) ->
  more_properties.kept resp resp'
  /\ (e = None -> resp' = resp \/ more_properties.length_announced resp').
Proof.
  unfold handleJobPlanResponse.
  destruct (warnings_value _) as [warnings ok].
  destruct (negb ok && Nat.eqb (length warnings) 0).
  { intros [= <- <-]. split; [apply kept_refl | auto]. }
  destruct (checkIfGzipAndTransformReader G resp (Body resp)) as [err | [isGzip reader]].
  { intros [= <- <-]. split; [apply kept_drained | discriminate]. }
  destruct (Decode T api.JobResponse_of_json reader) as [err | response].
  { intros [= <- <-]. split; [apply kept_drained | discriminate]. }
  destruct isGzip; intros [= <- <-].
  - split; [apply kept_rewriteResponseGzip | intros _; right; apply kept_rewriteResponseGzip].
  - split; [apply kept_rewriteResponse | intros _; right; apply kept_rewriteResponse].
Qed.

Lemma validate_handler_kept (T : json.Text) (G : gzip.Codec) (resp resp' : Response)
    (e : option error) :
  handleJobValdidateResponse T G resp = Returns (resp', e) ->
  more_properties.kept resp resp'
  /\ (e = None -> resp' = resp \/ more_properties.length_announced resp').
Proof.
  unfold handleJobValdidateResponse.
  destruct (validation_error_value _) as [validationErr okErr].
  destruct (warnings_value _) as [warnings okWarnings].
  destruct (negb okErr && negb okWarnings).
  { intros [= <- <-]. split; [apply kept_refl | auto]. }
  destruct (checkIfGzipAndTransformReader G resp (Body resp)) as [err | [isGzip reader]].
  { intros [= <- <-]. split; [apply kept_drained | discriminate]. }
  destruct (Decode T api.JobValidateResponse_of_json reader) as [err | response].
  { intros [= <- <-]. split; [apply kept_drained | discriminate]. }
  destruct validationErr as [[msg | prefix inner | merr] |]; try discriminate;
    destruct isGzip; intros [= <- <-];
    (split; [first [apply kept_rewriteResponseGzip | apply kept_rewriteResponse]
            | intros _; right;
              first [apply kept_rewriteResponseGzip | apply kept_rewriteResponse]]).
Qed.

(** X9. Whatever the response modifier does to a response, it leaves
    the status, the request and every header but [Content-Length] as
    they were; and when it returns without error, either the response
    is untouched or [Content-Length] and [ContentLength] are the
    length of the new body. *)
Theorem response_modifier_frame
    (T : json.Text) (G : gzip.Codec) (resp resp' : Response)
    (logs : list event) (e : option error) :
  ModifyResponse T G resp = (logs, Returns (resp', e)) ->
  Status resp' = Status resp /\ StatusCode resp' = StatusCode resp
  /\ RespRequest resp' = RespRequest resp
  /\ (forall key, key <> "Content-Length" ->
        RespHeader resp' !! key = RespHeader resp !! key)
  /\ (e = None ->
      resp' = resp
      \/ (ContentLength resp' = Z.of_nat (String.length (Body resp'))
          /\ RespHeader resp' !! "Content-Length"
             = Some (pretty (String.length (Body resp'))))).
Proof.
  intros Hmod.
  assert (Hres : more_properties.kept resp resp'
                 /\ (e = None ->
                     resp' = resp \/ more_properties.length_announced resp')).
  { unfold ModifyResponse in Hmod.
    destruct (isRegister (RespRequest resp)).
    - destruct (handRegisterResponse T G resp) as [resp0 e0] eqn:H.
      apply register_handler_kept in H.
      destruct e0; injection Hmod as _ <- <-; exact H.
    - destruct (isPlan (RespRequest resp)).
      + destruct (handleJobPlanResponse T G resp) as [resp0 e0] eqn:H.
        apply plan_handler_kept in H.
        destruct e0; injection Hmod as _ <- <-; exact H.
      + destruct (isValidate (RespRequest resp)).
        * destruct (handleJobValdidateResponse T G resp) as [[resp0 e0] |] eqn:H;
            [| discriminate].
          apply validate_handler_kept in H.
          destruct e0; injection Hmod as _ <- <-; exact H.
        * injection Hmod as _ <- <-. split; [apply kept_refl | auto]. }
  destruct Hres as [(Hs & Hc & Hr & Hh) Hlen]. auto 10.
Qed.

Lemma response_modifier_frame_witness :
  let resp' := fst (handRegisterResponse sample.text sample.codec examples.gzip_reply) in
  Status resp' = "200 OK" /\ StatusCode resp' = 200%Z
  /\ RespRequest resp' = examples.warned_request
  /\ (forall key, key <> "Content-Length" ->
        RespHeader resp' !! key = RespHeader examples.gzip_reply !! key)
  /\ (@None error = None ->
      resp' = examples.gzip_reply
      \/ (ContentLength resp' = Z.of_nat (String.length (Body resp'))
          /\ RespHeader resp' !! "Content-Length"
             = Some (pretty (String.length (Body resp'))))).
Proof.
  apply (response_modifier_frame sample.text sample.codec examples.gzip_reply
           (fst (handRegisterResponse sample.text sample.codec examples.gzip_reply))
           [] (@None error)).
  vm_compute. reflexivity.
Defined.

(** ** Token resolution *)

(** X10. With the resolve-token flag set and a token in the header, a
    lookup that the upstream answers with status 200 and a decodable
    token costs one request, logs no error and fills the context with
    the client's address, the accessor ID of the token and the token
    itself. *)
Theorem resolved_token_fills_context
    (T : json.Text) (transport : RoundTripper)
    (jobHandler : admissionctrl.JobHandler) (r : Request)
    (resp : Response) (tok : api.ACLToken) :
  let token := Header_Get (ReqHeader r) "X-Nomad-Token" in
  admissionctrl.ResolveToken jobHandler = true ->
  token <> "" ->
  transport (selfRequest token) = inr resp ->
  StatusCode resp = 200%Z ->
  Decode T api.ACLToken_of_json (Body resp) = inr tok ->
  buildRequestContext T transport jobHandler r
  = ([UpstreamCall (selfRequest token)],
     {| config.ClientIP := getClientIP r;
        config.AccessorID := api.AccessorID tok;
        config.TokenInfo := Some tok |})
  /\ Method (selfRequest token) = "GET"
  /\ Path (selfRequest token) = "/v1/acl/token/self"
  /\ ReqHeader (selfRequest token) !! "X-Nomad-Token" = Some token.
Proof.
  intros token Hflag Htok Hrt Hstatus Hdec.
  apply String.eqb_neq in Htok.
  split; [| repeat split; apply lookup_insert_eq].
  unfold buildRequestContext, resolveTokenAccessor. fold token.
  rewrite Hflag, Htok, Hrt, Hstatus, Hdec. reflexivity.
Qed.

Lemma resolved_token_fills_context_witness :
  buildRequestContext sample.text examples.upstream more_examples.quiet_pipeline
                      more_examples.token_request
  = ([UpstreamCall (selfRequest "secret")],
     {| config.ClientIP := "10.0.0.7"; config.AccessorID := "b780e702";
        config.TokenInfo := Some examples.token |})
  /\ Method (selfRequest "secret") = "GET"
  /\ Path (selfRequest "secret") = "/v1/acl/token/self"
  /\ ReqHeader (selfRequest "secret") !! "X-Nomad-Token" = Some "secret".
Proof.
  apply (resolved_token_fills_context sample.text examples.upstream
           more_examples.quiet_pipeline more_examples.token_request
           (examples.reply (selfRequest "secret") ∅
              (sample.print (api.ACLToken_to_json examples.token)))
           examples.token);
    [reflexivity | discriminate | reflexivity | reflexivity | vm_compute; reflexivity].
Defined.

(** ** The panic of the Validate response handler *)

(** X11. On the Validate route, when the validator phase returns an
    error that is not a multi-error (a webhook that cannot be reached,
    say) and the upstream's reply decodes, the response handler
    panics: the client receives no reply. *)
Theorem plain_validation_error_aborts
    (T : json.Text) (G : gzip.Codec) (transport : RoundTripper)
    (jobHandler : admissionctrl.JobHandler) (r : Request)
    (q : api.JobRequest) (job : option api.Job)
    (mutateWarnings validateWarnings : list error) (e : error)
    (res : Response) (isGzip : bool) (reader : string)
    (response : api.JobValidateResponse) :
  let reqCtx := snd (buildRequestContext T transport jobHandler r) in
  let sent :=
    fst (handleValidate T (WithContext r (WithValue_request_context (Ctx r) reqCtx))
                        jobHandler) in
  isValidate r = true ->
  Decode T api.JobRequest_of_json (ReqBody r) = inr q ->
  admissionctrl.AdmissionMutators jobHandler
    {| types.Job := api.ReqJob q; types.Context := Some reqCtx |}
    = (job, mutateWarnings, None) ->
  admissionctrl.AdmissionValidators jobHandler
    {| types.Job := job; types.Context := Some reqCtx |}
    = (validateWarnings, Some e) ->
  is_plain e = true ->
  transport sent = inr res ->
  checkIfGzipAndTransformReader G res (Body res) = inr (isGzip, reader) ->
  Decode T api.JobValidateResponse_of_json reader = inr response ->
  snd (ProxyHandler T G transport jobHandler r) = Panics.
Proof.
  intros reqCtx sent Hroute Hdec Hmut Hval Hplain Hrt Hgz Hresp.
  destruct (validate_route_exclusive r Hroute) as [Hreg Hplan].
  set (r0 := WithContext r (WithValue_request_context (Ctx r) reqCtx)) in *.
  pose proof (handleValidate_forwarded T r0 jobHandler q job
                mutateWarnings validateWarnings (Some e) Hdec Hmut Hval) as Hfwd.
  assert (Hsent : handleValidate T r0 jobHandler = (sent, None)).
  { unfold sent. rewrite Hfwd. reflexivity. }
  assert (Hctx : ctxValidationError (Ctx sent) = Some (Some e)).
  { unfold sent. rewrite Hfwd. cbn.
    destruct (validateWarnings ++ mutateWarnings); reflexivity. }
  assert (Hroutes : isRegister sent = false /\ isPlan sent = false
                    /\ isValidate sent = true).
  { unfold sent. rewrite Hfwd. cbn. auto. }
  destruct Hroutes as (Hreg' & Hplan' & Hval').
  unfold ProxyHandler.
  destruct (buildRequestContext T transport jobHandler r) as [trace0 reqCtx0].
  subst reqCtx. cbn [snd] in *. fold r0.
  unfold dispatch.
  replace (isRegister r0) with false by (symmetry; exact Hreg).
  replace (isPlan r0) with false by (symmetry; exact Hplan).
  replace (isValidate r0) with true by (symmetry; exact Hroute).
  rewrite Hsent. unfold ServeHTTP. rewrite Hrt.
  unfold ModifyResponse. cbn [RespRequest].
  rewrite Hreg', Hplan', Hval'.
  rewrite (validate_plain_error_panics T G _ e isGzip reader response);
    [reflexivity | exact Hctx | exact Hplain | exact Hgz | exact Hresp].
Qed.

Lemma plain_validation_error_aborts_witness :
  snd (ProxyHandler sample.text sample.codec examples.upstream
         more_examples.broken_validator_pipeline examples.validate_request)
  = Panics.
Proof.
  apply (plain_validation_error_aborts sample.text sample.codec examples.upstream
           more_examples.broken_validator_pipeline examples.validate_request
           {| api.ReqJob := Some examples.app; api.RequestOther := [] |}
           (Some examples.app) [] [] (errorString "connection refused")
           (examples.reply
              (fst (handleValidate sample.text
                      (WithContext examples.validate_request
                         (WithValue_request_context Background
                            (properties.unresolved examples.validate_request)))
                      more_examples.broken_validator_pipeline))
              ∅
              (sample.print (api.JobValidateResponse_to_json
                               {| api.DriverConfigValidated := true;
                                  api.ValidationErrors := Some [];
                                  api.Error := ""; api.ValidateWarnings := "" |})))
           false
           (sample.print (api.JobValidateResponse_to_json
                            {| api.DriverConfigValidated := true;
                               api.ValidationErrors := Some [];
                               api.Error := ""; api.ValidateWarnings := "" |}))
           {| api.DriverConfigValidated := true; api.ValidationErrors := Some [];
              api.Error := ""; api.ValidateWarnings := "" |});
    vm_compute; reflexivity.
Defined.

(** ** The webhook stages *)

(** X12. A reply of the validator webhook that lists no error is an
    acceptance: [Validate] returns the warnings of the reply, in their
    order, as errors with the same text, and no hard error; a payload
    without job is accepted in the same way. *)
Theorem Validate_warnings_returned
    (client : http.WebhookClient) (w : validator.WebhookValidator)
    (payload : types.Payload) (req : http.WebhookRequest)
    (body : option value) (reply : validator.validationWebhookResponse) :
  http.NewRequest (validator.method w) (validator.endpoint w)
                  (types.Payload_to_json payload) = inr req ->
  client (http.add_context_headers (types.Context payload) req) = inr body ->
  validator.decode_response body = Some reply ->
  validator.Errors reply = [] ->
  validator.Validate client w payload
  = Returns (List.map errorString (validator.Warnings reply), None).
Proof.
  intros Hreq Hdo Hdec Herrs.
  unfold validator.Validate. rewrite Hreq, Hdo, Hdec, Herrs. cbn [length Nat.ltb Nat.leb].
  destruct (validator.Warnings reply) as [|w0 ws] eqn:Hws; [reflexivity |].
  cbn [length Nat.ltb Nat.leb]. rewrite fold_snoc_map. reflexivity.
Qed.

Lemma Validate_warnings_returned_witness :
  validator.Validate
    (fun _ => inr (Some (JObject [("warnings", JArray [JString "cpu low";
                                                       JString "no limits"])])))
    examples.webhook_validator
    {| types.Job := None; types.Context := None |}
  = Returns ([errorString "cpu low"; errorString "no limits"], None).
Proof.
  apply (Validate_warnings_returned
           (fun _ => inr (Some (JObject [("warnings", JArray [JString "cpu low";
                                                              JString "no limits"])])))
           examples.webhook_validator
           {| types.Job := None; types.Context := None |}
           {| http.wh_method := "POST"; http.wh_url := "http://hooks.local/validate";
              http.wh_header := ∅;
              http.wh_body :=
                types.Payload_to_json {| types.Job := None; types.Context := None |} |}
           (Some (JObject [("warnings", JArray [JString "cpu low";
                                                JString "no limits"])]))
           {| validator.Errors := [];
              validator.Warnings := ["cpu low"; "no limits"] |});
    reflexivity.
Defined.

(** X13. Neither webhook stage returns anything beside a hard error: a
    [Validate] that fails returns no warnings, a [Mutate] that fails
    returns neither job nor warnings, and a [Mutate] that succeeds
    returns a job. *)
Theorem stage_error_stands_alone
    (client : http.WebhookClient) (payload : types.Payload) :
  (forall w warnings e,
      validator.Validate client w payload = Returns (warnings, Some e) ->
      warnings = [])
  /\ (forall j job warnings e,
        mutator.Mutate client j payload = Returns (job, warnings, Some e) ->
        job = None /\ warnings = [])
  /\ (forall j job warnings,
        mutator.Mutate client j payload = Returns (job, warnings, None) ->
        job <> None).
Proof.
  split; [| split].
  - intros w warnings e. unfold validator.Validate.
    repeat case_match; intros ?; simplify_eq; reflexivity.
  - intros j job warnings e. unfold mutator.Mutate.
    repeat case_match; intros ?; simplify_eq; auto.
  - intros j job warnings. unfold mutator.Mutate.
    repeat case_match; intros ?; simplify_eq; discriminate.
Qed.

Lemma stage_error_stands_alone_witness :
  validator.Validate examples.rejecting_webhook examples.webhook_validator
                     examples.payload
  = Returns ([], Some (multiError [errorString "first"; errorString "second"]))
  /\ @nil error = [].
Proof.
  split; [reflexivity |].
  apply (proj1 (stage_error_stands_alone examples.rejecting_webhook examples.payload)
               examples.webhook_validator []
               (multiError [errorString "first"; errorString "second"])).
  reflexivity.
Defined.

Lemma Sprintf_scan_plain (s : string) :
  texts.free_of "%" s = true -> fmt.Sprintf_scan false s = s.
Proof.
  unfold texts.free_of. induction s as [|c s IH]; cbn; [reflexivity |].
  intros H. apply andb_true_iff in H as [Hc Hs].
  destruct (Ascii.eqb c "%"); [discriminate |]. rewrite IH by exact Hs. reflexivity.
Qed.

Lemma map_ext_forallb {A B : Type} (f g : A -> B) (P : A -> bool) (l : list A) :
  (forall x, P x = true -> f x = g x) ->
  forallb P l = true -> List.map f l = List.map g l.
Proof.
  intros Hfg. induction l as [|x l IH]; cbn; [reflexivity |].
  intros H. apply andb_true_iff in H as [Hx Hl]. rewrite (Hfg x Hx), IH by exact Hl.
  reflexivity.
Qed.

(** X14. When [Mutate] succeeds, the warnings it returns are those of
    the reply, in their order and with their text, provided no warning
    holds a percent sign (each text is used as a format). *)
Theorem Mutate_warnings_returned
    (client : http.WebhookClient) (j : mutator.JsonPatchWebhookMutator)
    (payload : types.Payload) (req : http.WebhookRequest)
    (body : option value) (reply : mutator.jsonPatchWebhookResponse)
    (job : option api.Job) (warnings : list error) :
  http.NewRequest (mutator.method j) (mutator.endpoint j)
                  (types.Payload_to_json payload) = inr req ->
  client (http.add_context_headers (types.Context payload) req) = inr body ->
  mutator.decode_response body = Some (Some reply) ->
  forallb (texts.free_of "%") (mutator.Warnings reply) = true ->
  mutator.Mutate client j payload = Returns (job, warnings, None) ->
  warnings = List.map errorString (mutator.Warnings reply).
Proof.
  intros Hreq Hdo Hdec Hfree.
  unfold mutator.Mutate. rewrite Hreq, Hdo, Hdec.
  assert (Hws : (if (0 <? length (mutator.Warnings reply))%nat
                 then fold_left (fun warnings warning => warnings ++ [fmt.Errorf0 warning])
                                (mutator.Warnings reply) []
                 else [])
                = List.map errorString (mutator.Warnings reply)).
  { destruct (mutator.Warnings reply) as [|w0 ws] eqn:Hws; [reflexivity |].
    cbn [length Nat.ltb Nat.leb]. rewrite fold_snoc_map. cbn [app].
    apply (map_ext_forallb _ _ (texts.free_of "%")); [| exact Hfree].
    intros x Hx. unfold fmt.Errorf0, fmt.Sprintf0. rewrite Sprintf_scan_plain by exact Hx.
    reflexivity. }
  rewrite Hws.
  repeat case_match; intros ?; simplify_eq; reflexivity.
Qed.

Lemma Mutate_warnings_returned_witness :
  mutator.Mutate
    (fun _ => inr (Some (JObject [("warnings", JArray [JString "Warning 1";
                                                       JString "Warning 2"])])))
    examples.webhook_mutator
    {| types.Job := Some api.empty_Job; types.Context := None |}
  = Returns (Some api.empty_Job,
             [errorString "Warning 1"; errorString "Warning 2"], None)
  /\ [errorString "Warning 1"; errorString "Warning 2"]
     = List.map errorString ["Warning 1"; "Warning 2"].
Proof.
  split; [reflexivity |].
  apply (Mutate_warnings_returned
           (fun _ => inr (Some (JObject [("warnings", JArray [JString "Warning 1";
                                                              JString "Warning 2"])])))
           examples.webhook_mutator
           {| types.Job := Some api.empty_Job; types.Context := None |}
           {| http.wh_method := "POST"; http.wh_url := "http://hooks.local/mutate";
              http.wh_header := ∅;
              http.wh_body :=
                types.Payload_to_json
                  {| types.Job := Some api.empty_Job; types.Context := None |} |}
           (Some (JObject [("warnings", JArray [JString "Warning 1";
                                                JString "Warning 2"])]))
           {| mutator.Patch := None; mutator.Warnings := ["Warning 1"; "Warning 2"];
              mutator.Errors := [] |}
           (Some api.empty_Job));
    reflexivity.
Defined.

Lemma payload_decodes_empty (job : api.Job) (ctx : option config.RequestContext) :
  api.Job_of_json
    (types.Payload_to_json {| types.Job := Some job; types.Context := ctx |})
  = Some api.empty_Job.
Proof. destruct ctx; reflexivity. Qed.

(** X15. A reply of the mutator webhook without patch (none, [null] or
    the empty array) does not leave the job as it is: whatever job the
    payload carries, [Mutate] returns the empty job, since it decodes
    the job from the encoding of the payload. *)
Theorem Mutate_without_patch_returns_empty_job
    (client : http.WebhookClient) (j : mutator.JsonPatchWebhookMutator)
    (job : api.Job) (ctx : option config.RequestContext)
    (req : http.WebhookRequest) (body : option value)
    (reply : mutator.jsonPatchWebhookResponse) :
  let payload := {| types.Job := Some job; types.Context := ctx |} in
  http.NewRequest (mutator.method j) (mutator.endpoint j)
                  (types.Payload_to_json payload) = inr req ->
  client (http.add_context_headers ctx req) = inr body ->
  mutator.decode_response body = Some (Some reply) ->
  mutator.Patch reply = None \/ mutator.Patch reply = Some [] ->
  exists warnings,
    mutator.Mutate client j payload = Returns (Some api.empty_Job, warnings, None).
Proof.
  intros payload Hreq Hdo Hdec Hpatch.
  unfold mutator.Mutate. cbn [types.Context types.Job payload].
  rewrite Hreq, Hdo, Hdec.
  assert (Hp : jsonpatch.DecodePatch (mutator.Patch_to_json (mutator.Patch reply))
               = Some []).
  { destruct Hpatch as [-> | ->]; reflexivity. }
  rewrite Hp.
  assert (Happly : jsonpatch.Apply [] (types.Payload_to_json payload)
                   = Some (types.Payload_to_json payload)) by reflexivity.
  rewrite Happly. unfold payload. rewrite payload_decodes_empty.
  destruct (0 <? length (mutator.Warnings reply))%nat; eexists; reflexivity.
Qed.

Lemma Mutate_without_patch_returns_empty_job_witness :
  exists warnings,
    mutator.Mutate (fun _ => inr (Some (JObject []))) examples.webhook_mutator
                   examples.payload
    = Returns (Some api.empty_Job, warnings, None).
Proof.
  apply (Mutate_without_patch_returns_empty_job
           (fun _ => inr (Some (JObject []))) examples.webhook_mutator
           examples.app None
           {| http.wh_method := "POST"; http.wh_url := "http://hooks.local/mutate";
              http.wh_header := ∅;
              http.wh_body := types.Payload_to_json examples.payload |}
           (Some (JObject [])) mutator.zero_response);
    [reflexivity | reflexivity | reflexivity | left; reflexivity].
Defined.

(** ** The hello mutator *)

(** X16. The hello mutator puts [hello = world] into the [Meta] of the
    payload's own job (a fresh map when there was none), keeps the ID
    and every other [Meta] entry, returns that job without warning or
    error, and changes nothing when run again. *)
Theorem hello_mutator_sets_greeting
    (h : testutil.HelloMutator) (payload : types.Payload) (job : api.Job) :
  types.Job payload = Some job ->
  exists job' meta,
    testutil.Mutate h payload
    = Returns ({| types.Job := Some job'; types.Context := types.Context payload |},
               (Some job', [], None))
    /\ api.ID job' = api.ID job
    /\ api.Meta job' = Some meta
    /\ meta !! "hello" = Some "world"
    /\ (forall key, key <> "hello" ->
          meta !! key = default ∅ (api.Meta job) !! key)
    /\ testutil.Mutate h {| types.Job := Some job';
                            types.Context := types.Context payload |}
       = testutil.Mutate h payload.
Proof.
  intros Hjob. unfold testutil.Mutate. rewrite Hjob.
  eexists _, _. split; [reflexivity |]. cbn [types.Job api.ID api.Meta].
  split; [reflexivity |]. split; [reflexivity |].
  split; [apply lookup_insert_eq |].
  split.
  - intros key Hkey. rewrite lookup_insert_ne by congruence.
    destruct (api.Meta job); reflexivity.
  - rewrite insert_insert_eq. reflexivity.
Qed.

Lemma hello_mutator_sets_greeting_witness :
  exists job' meta,
    testutil.Mutate {| testutil.MutatorName := "hello" |} examples.payload
    = Returns ({| types.Job := Some job'; types.Context := None |},
               (Some job', [], None))
    /\ api.ID job' = Some "app"
    /\ api.Meta job' = Some meta
    /\ meta !! "hello" = Some "world"
    /\ (forall key, key <> "hello" -> meta !! key = (∅ : gmap string string) !! key)
    /\ testutil.Mutate {| testutil.MutatorName := "hello" |}
                       {| types.Job := Some job'; types.Context := None |}
       = testutil.Mutate {| testutil.MutatorName := "hello" |} examples.payload.
Proof.
  apply (hello_mutator_sets_greeting {| testutil.MutatorName := "hello" |}
           examples.payload examples.app).
  reflexivity.
Defined.

(** ** The client address *)

Lemma free_of_cons (chars : string) (c : ascii) (s : string) :
  texts.free_of chars (String c s)
  = negb (existsb (Ascii.eqb c) (list_ascii_of_string chars)) && texts.free_of chars s.
Proof. reflexivity. Qed.

Lemma before_comma_app (ip rest : string) :
  texts.free_of "," ip = true -> before_comma (ip +:+ "," +:+ rest) = ip.
Proof.
  induction ip as [|c ip IH]; [reflexivity |].
  rewrite free_of_cons. intros H. apply andb_true_iff in H as [Hc Hip].
  change (before_comma (String c (ip +:+ "," +:+ rest)) = String c ip).
  cbn [before_comma]. cbn in Hc. rewrite orb_false_r in Hc.
  apply negb_true_iff in Hc. rewrite Hc, IH by exact Hip. reflexivity.
Qed.

Lemma before_comma_plain (ip : string) :
  texts.free_of "," ip = true -> before_comma ip = ip.
Proof.
  induction ip as [|c ip IH]; [reflexivity |].
  rewrite free_of_cons. intros H. apply andb_true_iff in H as [Hc Hip].
  cbn [before_comma]. cbn in Hc. rewrite orb_false_r in Hc.
  apply negb_true_iff in Hc. rewrite Hc, IH by exact Hip. reflexivity.
Qed.

Lemma free_of_colon (c : ascii) :
  negb (existsb (Ascii.eqb c) (list_ascii_of_string ":[]")) = true ->
  Ascii.eqb c ":" = false /\ Ascii.eqb c "[" = false.
Proof.
  cbn. intros H. apply negb_true_iff in H.
  apply orb_false_iff in H as [H1 H]. apply orb_false_iff in H as [H2 _]. auto.
Qed.

Lemma host_of_plain (s : string) :
  texts.free_of ":[]" s = true -> host_of s = None.
Proof.
  induction s as [|c s IH]; [reflexivity |].
  rewrite free_of_cons. intros H. apply andb_true_iff in H as [Hc Hs].
  apply free_of_colon in Hc as [Hc _].
  cbn [host_of]. rewrite IH by exact Hs. rewrite Hc. reflexivity.
Qed.

Lemma host_of_host_port (host port : string) :
  texts.free_of ":[]" port = true ->
  host_of (host +:+ ":" +:+ port) = Some host.
Proof.
  intros Hport. induction host as [|c host IH].
  - change (host_of (String ":" port) = Some ""). cbn [host_of].
    rewrite host_of_plain by exact Hport. reflexivity.
  - change (host_of (String c (host +:+ ":" +:+ port)) = Some (String c host)).
    cbn [host_of]. rewrite IH. reflexivity.
Qed.

Lemma no_colon_in (host : string) :
  texts.free_of ":[]" host = true ->
  existsb (Ascii.eqb ":") (list_ascii_of_string host) = false.
Proof.
  induction host as [|c host IH]; [reflexivity |].
  rewrite free_of_cons. intros H. apply andb_true_iff in H as [Hc Hs].
  apply free_of_colon in Hc as [Hc _].
  cbn [list_ascii_of_string existsb]. rewrite IH by exact Hs.
  rewrite Ascii.eqb_sym, Hc. reflexivity.
Qed.

Lemma strip_brackets_plain (host : string) :
  texts.free_of ":[]" host = true -> strip_brackets host = host.
Proof.
  intros Hhost. pose proof (no_colon_in host Hhost) as Hcolon.
  destruct host as [|c host]; [reflexivity |].
  rewrite free_of_cons in Hhost. apply andb_true_iff in Hhost as [Hc _].
  apply free_of_colon in Hc as [_ Hc]. apply Ascii.eqb_neq in Hc.
  unfold strip_brackets.
  destruct c as [[] [] [] [] [] [] [] []]; try (rewrite Hcolon; reflexivity).
  congruence.
Qed.

(** X17. The client address is the first element of [X-Forwarded-For]
    whenever that header is not empty, whatever the peer address is;
    without the header it is the host of a peer address of the form
    host:port. *)
Theorem client_address
    (r : Request) (ip rest host port : string) :
  (texts.free_of "," ip = true ->
   Header_Get (ReqHeader r) "X-Forwarded-For" = ip +:+ "," +:+ rest
   \/ (ip <> "" /\ Header_Get (ReqHeader r) "X-Forwarded-For" = ip) ->
   getClientIP r = ip)
  /\ (Header_Get (ReqHeader r) "X-Forwarded-For" = "" ->
      texts.free_of ":[]" host = true ->
      texts.free_of ":[]" port = true ->
      RemoteAddr r = host +:+ ":" +:+ port ->
      getClientIP r = host).
Proof.
  split.
  - intros Hip [Hxff | [Hne Hxff]]; unfold getClientIP; rewrite Hxff.
    + assert (Hnonempty : String.eqb (ip +:+ "," +:+ rest) "" = false)
        by (destruct ip; reflexivity).
      rewrite Hnonempty. apply before_comma_app. exact Hip.
    + apply String.eqb_neq in Hne. rewrite Hne. apply before_comma_plain. exact Hip.
  - intros Hxff Hhost Hport Haddr. unfold getClientIP.
    rewrite Hxff, Haddr, host_of_host_port by exact Hport.
    apply strip_brackets_plain. exact Hhost.
Qed.

Lemma client_address_witness :
  getClientIP (examples.request "GET" "/v1/jobs"
                 (<["X-Forwarded-For" := "192.0.2.1, 10.0.0.1"]> ∅) JNull)
  = "192.0.2.1".
Proof.
  apply (proj1 (client_address
                  (examples.request "GET" "/v1/jobs"
                     (<["X-Forwarded-For" := "192.0.2.1, 10.0.0.1"]> ∅) JNull)
                  "192.0.2.1" " 10.0.0.1" "" ""));
    [reflexivity | left; reflexivity].
Defined.

(** ** Building the stages *)

Section Startup.

Import startup.

Variables Policy ImageVerifier OpaMutator OpaValidator NotationValidator
          TlsConfig : Type.
Variable url_Parse : string -> error + string.
Variable LoadTrustPolicyDocument : string -> error + Policy.
Variable NewImageVerifier : Policy -> NotationVerifierConfig -> error + ImageVerifier.
Variable NewOpaJsonPatchMutator :
  string -> string -> string -> option ImageVerifier -> error + OpaMutator.
Variable NewOpaValidator :
  string -> string -> string -> option ImageVerifier -> error + OpaValidator.
Variable NewNotationValidator : string -> ImageVerifier -> NotationValidator.
Variable buildTlsConfig : NomadServerTLS -> error + TlsConfig.
Variable createTlsConfig : string -> bool -> error + TlsConfig.

Local Abbreviation mutators_from :=
  (createMutators_from Policy ImageVerifier OpaMutator url_Parse
     LoadTrustPolicyDocument NewImageVerifier NewOpaJsonPatchMutator).
Local Abbreviation validators_from :=
  (createValidators_from Policy ImageVerifier OpaValidator NotationValidator url_Parse
     LoadTrustPolicyDocument NewImageVerifier NewOpaValidator NewNotationValidator).

Lemma mutators_from_ok (ms : list Mutator) (acc stages : list (JobMutator OpaMutator))
    (flag flag' : bool) :
  mutators_from ms acc flag = (stages, flag', None) ->
  exists new,
    stages = acc ++ new
    /\ Forall2 built.mutator_from ms new
    /\ flag' = flag || existsb MutatorResolveToken ms.
Proof.
  revert acc flag. induction ms as [|m ms IH]; intros acc flag; cbn.
  - intros [= <- <-]. exists []. rewrite app_nil_r, orb_false_r. auto.
  - destruct (String.eqb (MutatorType m) "opa_json_patch") eqn:Hopa.
    + destruct (buildVerifierIfEnabled _ _ _ _ _) as [err | v]; [discriminate |].
      destruct (NewOpaJsonPatchMutator _ _ _ _) as [err | stage]; [discriminate |].
      intros H. apply IH in H as (new & -> & Hall & ->).
      exists (OpaJsonPatchStage _ stage :: new). rewrite <- app_assoc.
      split; [reflexivity |]. split.
      * constructor; [apply String.eqb_eq; exact Hopa | exact Hall].
      * destruct (MutatorResolveToken m), flag; reflexivity.
    + destruct (String.eqb (MutatorType m) "json_patch_webhook") eqn:Hhook;
        [| discriminate].
      unfold NewJsonPatchWebhookMutator.
      destruct (url_Parse _) as [err | u]; [discriminate |].
      intros H. apply IH in H as (new & -> & Hall & ->).
      eexists (JsonPatchWebhookStage _ _ :: new). rewrite <- app_assoc.
      split; [reflexivity |]. split.
      * constructor; [| exact Hall]. cbn. apply String.eqb_eq in Hhook. auto.
      * destruct (MutatorResolveToken m), flag; reflexivity.
Qed.

Lemma mutators_from_failed (ms : list Mutator) (acc stages : list (JobMutator OpaMutator))
    (flag flag' : bool) (e : error) :
  mutators_from ms acc flag = (stages, flag', Some e) -> stages = [].
Proof.
  revert acc flag. induction ms as [|m ms IH]; intros acc flag; cbn; [discriminate |].
  unfold NewJsonPatchWebhookMutator.
  repeat case_match; intros ?; simplify_eq; eauto.
Qed.

Lemma mutators_from_unknown (ms : list Mutator) (acc : list (JobMutator OpaMutator))
    (flag : bool) :
  forallb built.known_mutator_type ms = false ->
  exists e, snd (mutators_from ms acc flag) = Some e.
Proof.
  revert acc flag. induction ms as [|m ms IH]; intros acc flag; cbn; [discriminate |].
  unfold built.known_mutator_type at 1, NewJsonPatchWebhookMutator.
  intros H.
  destruct (String.eqb (MutatorType m) "opa_json_patch"); cbn in H.
  - destruct (buildVerifierIfEnabled _ _ _ _ _); [eauto |].
    destruct (NewOpaJsonPatchMutator _ _ _ _); [eauto | apply IH; exact H].
  - destruct (String.eqb (MutatorType m) "json_patch_webhook"); cbn in H.
    + destruct (url_Parse _); [eauto | apply IH; exact H].
    + eauto.
Qed.

(** X18. [createMutators] either builds one stage per configured
    mutator, in the order of the configuration (a webhook stage with
    the name and the method of its entry), and reports the resolve-token
    flag that is the disjunction of the entries' flags; or it returns an
    error and no stage at all.  An entry of a type other than
    [opa_json_patch] and [json_patch_webhook] always makes it fail. *)
Theorem createMutators_all_or_nothing (c : Config) :
  let result :=
    createMutators Policy ImageVerifier OpaMutator url_Parse
      LoadTrustPolicyDocument NewImageVerifier NewOpaJsonPatchMutator c in
  (forall stages flag,
      result = (stages, flag, None) ->
      Forall2 built.mutator_from (Mutators c) stages
      /\ flag = existsb MutatorResolveToken (Mutators c))
  /\ (forall stages flag e, result = (stages, flag, Some e) -> stages = [])
  /\ (forallb built.known_mutator_type (Mutators c) = false ->
      exists e, snd result = Some e).
Proof.
  cbn zeta. unfold createMutators. split; [| split].
  - intros stages flag H. apply mutators_from_ok in H as (new & -> & Hall & ->). auto.
  - intros stages flag e. apply mutators_from_failed.
  - apply mutators_from_unknown.
Qed.

Lemma validators_from_ok (vs : list Validator)
    (acc stages : list (JobValidator OpaValidator NotationValidator))
    (flag flag' : bool) :
  validators_from vs acc flag = (stages, flag', None) ->
  exists new,
    stages = acc ++ new
    /\ Forall2 built.validator_from vs new
    /\ flag' = flag || existsb ValidatorResolveToken vs.
Proof.
  revert acc flag. induction vs as [|v vs IH]; intros acc flag; cbn.
  - intros [= <- <-]. exists []. rewrite app_nil_r, orb_false_r. auto.
  - destruct (String.eqb (ValidatorType v) "opa") eqn:Hopa.
    { destruct (buildVerifierIfEnabled _ _ _ _ _) as [err | verifier]; [discriminate |].
      destruct (NewOpaValidator _ _ _ _) as [err | stage]; [discriminate |].
      intros H. apply IH in H as (new & -> & Hall & ->).
      exists (OpaStage _ _ stage :: new). rewrite <- app_assoc.
      split; [reflexivity |]. split.
      - constructor; [apply String.eqb_eq; exact Hopa | exact Hall].
      - destruct (ValidatorResolveToken v), flag; reflexivity. }
    destruct (String.eqb (ValidatorType v) "webhook") eqn:Hhook.
    { unfold NewWebhookValidator.
      destruct (url_Parse _) as [err | u]; [discriminate |].
      intros H. apply IH in H as (new & -> & Hall & ->).
      eexists (WebhookStage _ _ _ :: new). rewrite <- app_assoc.
      split; [reflexivity |]. split.
      - constructor; [| exact Hall]. cbn. apply String.eqb_eq in Hhook. auto.
      - destruct (ValidatorResolveToken v), flag; reflexivity. }
    destruct (String.eqb (ValidatorType v) "notation") eqn:Hnot; [| discriminate].
    destruct (ValidatorNotation v) as [cfg |] eqn:Hcfg; cbn; [| discriminate].
    destruct (LoadTrustPolicyDocument _) as [err | policy]; [discriminate |].
    destruct (NewImageVerifier _ _) as [err | verifier]; [discriminate |].
    intros H. apply IH in H as (new & -> & Hall & ->).
    eexists (NotationStage _ _ _ :: new). rewrite <- app_assoc.
    split; [reflexivity |]. split.
    + constructor; [| exact Hall]. cbn. apply String.eqb_eq in Hnot.
      split; [exact Hnot | congruence].
    + destruct (ValidatorResolveToken v), flag; reflexivity.
Qed.

Lemma validators_from_failed (vs : list Validator)
    (acc stages : list (JobValidator OpaValidator NotationValidator))
    (flag flag' : bool) (e : error) :
  validators_from vs acc flag = (stages, flag', Some e) -> stages = [].
Proof.
  revert acc flag. induction vs as [|v vs IH]; intros acc flag; cbn; [discriminate |].
  unfold NewWebhookValidator.
  repeat case_match; intros ?; simplify_eq; eauto.
Qed.

Lemma validators_from_unknown (vs : list Validator)
    (acc : list (JobValidator OpaValidator NotationValidator)) (flag : bool) :
  forallb built.known_validator_type vs = false ->
  exists e, snd (validators_from vs acc flag) = Some e.
Proof.
  revert acc flag. induction vs as [|v vs IH]; intros acc flag; cbn; [discriminate |].
  unfold built.known_validator_type at 1, NewWebhookValidator.
  intros H.
  destruct (String.eqb (ValidatorType v) "opa"); cbn in H.
  { destruct (buildVerifierIfEnabled _ _ _ _ _); [eauto |].
    destruct (NewOpaValidator _ _ _ _); [eauto | apply IH; exact H]. }
  destruct (String.eqb (ValidatorType v) "webhook"); cbn in H.
  { destruct (url_Parse _); [eauto | apply IH; exact H]. }
  destruct (String.eqb (ValidatorType v) "notation"); cbn in H; [| eauto].
  destruct (buildVerifier _ _ _ _ _); [eauto | apply IH; exact H].
Qed.

Lemma validators_from_unconfigured (vs : list Validator)
    (acc : list (JobValidator OpaValidator NotationValidator)) (flag : bool) :
  existsb built.notation_unconfigured vs = true ->
  exists e, snd (validators_from vs acc flag) = Some e.
Proof.
  revert acc flag. induction vs as [|v vs IH]; intros acc flag; cbn; [discriminate |].
  unfold built.notation_unconfigured at 1, NewWebhookValidator.
  intros H.
  destruct (String.eqb (ValidatorType v) "opa") eqn:Hopa.
  { apply String.eqb_eq in Hopa. rewrite Hopa in H. cbn in H.
    destruct (buildVerifierIfEnabled _ _ _ _ _); [eauto |].
    destruct (NewOpaValidator _ _ _ _); [eauto | apply IH; exact H]. }
  destruct (String.eqb (ValidatorType v) "webhook") eqn:Hhook.
  { apply String.eqb_eq in Hhook. rewrite Hhook in H. cbn in H.
    destruct (url_Parse _); [eauto | apply IH; exact H]. }
  destruct (String.eqb (ValidatorType v) "notation"); [| eauto].
  destruct (ValidatorNotation v) as [cfg |]; cbn in H |- *; [| eauto].
  destruct (LoadTrustPolicyDocument _); [eauto |].
  destruct (NewImageVerifier _ _); [eauto | apply IH; exact H].
Qed.

(** X19. [createValidators] behaves in the same way for the types [opa],
    [webhook] and [notation]; a validator of type [notation] is only
    built from an entry that has a notation configuration, while an
    [opa] validator is built without verifier when it has none. *)
Theorem createValidators_all_or_nothing (c : Config) :
  let result :=
    createValidators Policy ImageVerifier OpaValidator NotationValidator url_Parse
      LoadTrustPolicyDocument NewImageVerifier NewOpaValidator NewNotationValidator c in
  (forall stages flag,
      result = (stages, flag, None) ->
      Forall2 built.validator_from (Validators c) stages
      /\ flag = existsb ValidatorResolveToken (Validators c))
  /\ (forall stages flag e, result = (stages, flag, Some e) -> stages = [])
  /\ (forallb built.known_validator_type (Validators c) = false ->
      exists e, snd result = Some e)
  /\ (existsb built.notation_unconfigured (Validators c) = true ->
      exists e, snd result = Some e).
Proof.
  cbn zeta. unfold createValidators. split; [| split; [| split]].
  - intros stages flag H. apply validators_from_ok in H as (new & -> & Hall & ->). auto.
  - intros stages flag e. apply validators_from_failed.
  - apply validators_from_unknown.
  - apply validators_from_unconfigured.
Qed.

(** X20. When [buildServer] succeeds, the pipeline's resolve-token flag
    is set exactly when some configured mutator or validator asks for
    it, the stages are those of the configuration in order, and the
    server listens on bind:port; a stage entry of an unknown type makes
    it fail. *)
Theorem buildServer_outcome (c : Config) :
  let result :=
    startup.buildServer Policy ImageVerifier OpaMutator OpaValidator NotationValidator
      TlsConfig url_Parse LoadTrustPolicyDocument NewImageVerifier
      NewOpaJsonPatchMutator NewOpaValidator NewNotationValidator
      buildTlsConfig createTlsConfig c in
  (forall server,
      result = inr server ->
      resolveToken _ _ _ _ server
      = existsb MutatorResolveToken (Mutators c)
        || existsb ValidatorResolveToken (Validators c)
      /\ Forall2 built.mutator_from (Mutators c) (jobMutators _ _ _ _ server)
      /\ Forall2 built.validator_from (Validators c) (jobValidators _ _ _ _ server)
      /\ Addr _ _ _ _ server = Bind c +:+ ":" +:+ pretty (Port c))
  /\ (forallb built.known_mutator_type (Mutators c)
      && forallb built.known_validator_type (Validators c) = false ->
      exists e, result = inl e).
Proof.
  cbn zeta. unfold startup.buildServer, createMutators, createValidators.
  destruct (url_Parse (NomadAddress c)) as [err | backend].
  { split; [discriminate | eauto]. }
  destruct (match NomadTLS c with Some _ => _ | None => _ end) as [err | nomadTls].
  { split; [discriminate | eauto]. }
  destruct (mutators_from (Mutators c) [] false) as [[mutators flagM] [errM |]] eqn:Hm.
  { split; [discriminate | eauto]. }
  destruct (validators_from (Validators c) [] false)
    as [[validators flagV] [errV |]] eqn:Hv.
  { split; [discriminate | eauto]. }
  destruct (mutators_from_ok _ _ _ _ _ Hm) as (newM & -> & HallM & ->).
  destruct (validators_from_ok _ _ _ _ _ Hv) as (newV & -> & HallV & ->).
  split.
  - destruct (match ServerTls c with Some _ => _ | None => _ end) as [err | tlsConfig];
      [discriminate |].
    intros server [= <-]. cbn.
    destruct (existsb MutatorResolveToken (Mutators c)
              || existsb ValidatorResolveToken (Validators c)); auto.
  - intros Hunknown. apply andb_false_iff in Hunknown as [H | H].
    + destruct (mutators_from_unknown _ [] false H) as (e & He).
      rewrite Hm in He. discriminate.
    + destruct (validators_from_unknown _ [] false H) as (e & He).
      rewrite Hv in He. discriminate.
Qed.

End Startup.

Lemma createMutators_all_or_nothing_witness :
  exists stages,
    startup.createMutators unit unit string sample_config.parse_any
      sample_config.no_file_string sample_config.no_verifier sample_config.opa_stage
      sample_config.config
    = (stages, true, None)
    /\ Forall2 built.mutator_from [sample_config.patcher; sample_config.policy] stages
    /\ true = existsb startup.MutatorResolveToken (startup.Mutators sample_config.config).
Proof.
  eexists. split; [reflexivity |].
  apply (proj1 (createMutators_all_or_nothing unit unit string sample_config.parse_any
                  sample_config.no_file_string sample_config.no_verifier
                  sample_config.opa_stage sample_config.config)).
  reflexivity.
Defined.

Lemma createValidators_all_or_nothing_witness :
  exists stages,
    startup.createValidators unit unit string string sample_config.parse_any
      sample_config.no_file_string sample_config.no_verifier sample_config.opa_stage
      sample_config.notation_stage sample_config.config
    = (stages, false, None)
    /\ Forall2 built.validator_from [sample_config.checker; sample_config.opa_checker]
               stages
    /\ false = existsb startup.ValidatorResolveToken (startup.Validators sample_config.config).
Proof.
  eexists. split; [reflexivity |].
  apply (proj1 (createValidators_all_or_nothing unit unit string string
                  sample_config.parse_any sample_config.no_file_string
                  sample_config.no_verifier sample_config.opa_stage
                  sample_config.notation_stage sample_config.config)).
  reflexivity.
Defined.

Lemma buildServer_outcome_witness :
  exists server,
    startup.buildServer unit unit string string string unit sample_config.parse_any
      sample_config.no_file_string sample_config.no_verifier sample_config.opa_stage
      sample_config.opa_stage sample_config.notation_stage sample_config.no_nomad_tls
      sample_config.no_tls sample_config.config
    = inr server
    /\ startup.resolveToken _ _ _ _ server = true
    /\ startup.Addr _ _ _ _ server = "0.0.0.0:6464".
Proof.
  eexists. split; [vm_compute; reflexivity |].
  destruct (proj1 (buildServer_outcome unit unit string string string unit
                     sample_config.parse_any sample_config.no_file_string
                     sample_config.no_verifier sample_config.opa_stage
                     sample_config.opa_stage sample_config.notation_stage
                     sample_config.no_nomad_tls sample_config.no_tls
                     sample_config.config) _ eq_refl) as (Hflag & _ & _ & Haddr).
  split; [exact Hflag | exact Haddr].
Defined.

(** ** Warnings on the Validate route *)

Lemma strings_of_strings (l : list string) :
  json.strings_of (List.map JString l) = Some l.
Proof.
  induction l as [|s l IH]; cbn; [reflexivity |]. rewrite IH. reflexivity.
Qed.

Lemma JobValidateResponse_round_trip (q : api.JobValidateResponse) :
  api.JobValidateResponse_of_json (api.JobValidateResponse_to_json q) = Some q.
Proof.
  destruct q as [validated errors err warnings].
  unfold api.JobValidateResponse_of_json, api.JobValidateResponse_to_json.
  cbn [api.DriverConfigValidated api.ValidationErrors api.Error api.ValidateWarnings].
  destruct errors as [l |]; cbn; [rewrite strings_of_strings |]; reflexivity.
Qed.

(** X22. On the Validate route, when warnings are stored but no
    validation error, the response handler changes nothing of the
    upstream's verdict but [Warnings]: the document it writes (gzip
    or not, as the reply came) is the upstream's with the merged
    warnings, and it decodes to the same [DriverConfigValidated],
    [ValidationErrors] and [Error]. *)
Theorem validate_warnings_keep_verdict
    (T : json.Text) (G : gzip.Codec) (resp : Response) (warnings : list error)
    (isGzip : bool) (reader : string) (response : api.JobValidateResponse) :
  ctxValidationError (Ctx (RespRequest resp)) = None
  \/ ctxValidationError (Ctx (RespRequest resp)) = Some None ->
  ctxWarnings (Ctx (RespRequest resp)) = Some warnings ->
  warnings <> [] ->
  checkIfGzipAndTransformReader G resp (Body resp) = inr (isGzip, reader) ->
  Decode T api.JobValidateResponse_of_json reader = inr response ->
  let response' :=
    {| api.DriverConfigValidated := api.DriverConfigValidated response;
       api.ValidationErrors := api.ValidationErrors response;
       api.Error := api.Error response;
       api.ValidateWarnings :=
         buildFullWarningMsg (api.ValidateWarnings response) warnings |} in
  let data := json.marshal T (api.JobValidateResponse_to_json response') in
  handleJobValdidateResponse T G resp
  = Returns (if isGzip then rewriteResponseGzip G resp data
             else rewriteResponse resp data, None)
  /\ api.JobValidateResponse_of_json (api.JobValidateResponse_to_json response')
     = Some response'.
Proof.
  intros Herr Hws Hne Hgz Hdec response' data.
  split; [| apply JobValidateResponse_round_trip].
  unfold handleJobValdidateResponse, validation_error_value, warnings_value.
  rewrite Hws.
  assert (Hlen : (0 <? length warnings)%nat = true).
  { destruct warnings; [congruence | reflexivity]. }
  destruct Herr as [-> | ->]; cbn [negb andb]; rewrite Hgz, Hdec, Hlen;
    destruct isGzip; reflexivity.
Qed.

Lemma validate_warnings_keep_verdict_witness :
  let response' :=
    {| api.DriverConfigValidated := true;
       api.ValidationErrors := Some ["missing datacenter"];
       api.Error := "1 error occurred";
       api.ValidateWarnings :=
         buildFullWarningMsg "deprecated" [errorString "cpu low"] |} in
  handleJobValdidateResponse sample.text sample.codec more_examples.validate_reply
  = Returns (rewriteResponse more_examples.validate_reply
               (sample.print (api.JobValidateResponse_to_json response')), None)
  /\ api.JobValidateResponse_of_json (api.JobValidateResponse_to_json response')
     = Some response'.
Proof.
  apply (validate_warnings_keep_verdict sample.text sample.codec
           more_examples.validate_reply [errorString "cpu low"] false
           (sample.print (api.JobValidateResponse_to_json more_examples.verdict))
           more_examples.verdict);
    [right; reflexivity | reflexivity | discriminate | reflexivity
     | vm_compute; reflexivity].
Defined.
